(** * Grid-world MDP (pp/mdp/mdp.py): shallow embedding and verified properties

    The Python classes [MDP] and [GridWorldMDP] are embedded as follows.
    - Python integers are [Z]; [//] and [%] are [Z.div] and [Z.modulo]
      (both floor, as in Python).
    - numpy float64 values are Rocq's primitive binary64 floats, so
      [-np.inf] is [neg_infinity] and [np.sqrt(2)] is [PrimFloat.sqrt 2].
    - A raised exception is the [Raise] case of [result].
    - The reward matrix is the one array that is rebound, copied and mutated
      in place after construction; it lives in a store ([heap]) and an engine
      holds its address.  The other tables are written only while
      [__init__] runs and are kept by value.
    - Rewards are given as floats ([rewards.fill] and the cell assignments
      convert to float64 anyway).  [np.empty] arrays start with zeros; the
      loop overwrites every cell of [transition_cached].  The attribute
      [q_cache], an empty dict kept for another module, has no counterpart. *)

From Stdlib Require Import ZArith Lia Bool.
From Stdlib Require Import Floats.PrimFloat.
From stdpp Require Import gmap list strings.

Local Open Scope Z_scope.

(** ** Exceptions and fallible computations *)

Inductive exn :=
  | AssertionError (cond : string)
  | IndexError
  | ValueError
  | TypeError
  | BaseException (msg : string).

Inductive result (A : Type) :=
  | Ok (a : A)
  | Raise (e : exn).
Arguments Ok {A} a.
Arguments Raise {A} e.

Definition bindR {A B} (m : result A) (f : A → result B) : result B :=
  match m with
  | Ok a => f a
  | Raise e => Raise e
  end.

Definition py_assert (b : bool) (cond : string) : result unit :=
  if b then Ok tt else Raise (AssertionError cond).

Notation "'let?' x := e1 'in' e2" := (bindR e1 (λ x, e2))
  (at level 10, x name, e1 at level 100, e2 at level 200).
Notation "'let?' ' p := e1 'in' e2" := (bindR e1 (λ x, match x with p => e2 end))
  (at level 10, p pattern, e1 at level 100, e2 at level 200).

Fixpoint foldR {A B} (f : B → A → result B) (b : B) (l : list A) : result B :=
  match l with
  | [] => Ok b
  | x :: l => let? b' := f b x in foldR f b' l
  end.

(** ** Python sequence indexing

    An index [i] into a sequence of length [n] addresses position [i] when
    [0 <= i < n], position [i + n] when [-n <= i < 0], and raises
    [IndexError] otherwise. *)

Definition py_index (n : nat) (i : Z) : result nat :=
  if bool_decide (0 ≤ i < Z.of_nat n) then Ok (Z.to_nat i)
  else if bool_decide (- Z.of_nat n ≤ i < 0) then Ok (Z.to_nat (i + Z.of_nat n))
  else Raise IndexError.

Definition list_getitem {T} (l : list T) (i : Z) : result T :=
  let? k := py_index (length l) i in
  match l !! k with
  | Some x => Ok x
  | None => Raise IndexError
  end.

Definition list_setitem {T} (l : list T) (i : Z) (x : T) : result (list T) :=
  let? k := py_index (length l) i in
  Ok (<[k := x]> l).

(** [l[i].append(x)] for a list of lists [l]. *)
Definition list_append_at {T} (l : list (list T)) (i : Z) (x : T)
  : result (list (list T)) :=
  let? k := py_index (length l) i in
  Ok (alter (λ row, row ++ [x]) k l).

(** [xrange(n)] *)
Definition xrange (n : Z) : list Z := seqZ 0 n.

(** ** Two-dimensional numpy arrays *)

Record ndarray (T : Type) := mk_ndarray {
  shape : nat * nat;
  data : list (list T)
}.
Arguments mk_ndarray {T} shape data.
Arguments shape {T} n.
Arguments data {T} n.

(** [np.full([n, m], v)]; also [np.zeros] followed by [fill], and
    [np.empty] (whose cells are unspecified until written).  A negative
    dimension raises [ValueError]. *)
Definition np_full {T} (n m : Z) (v : T) : result (ndarray T) :=
  if bool_decide (0 ≤ n ∧ 0 ≤ m)
  then Ok (mk_ndarray (Z.to_nat n, Z.to_nat m)
                      (replicate (Z.to_nat n) (replicate (Z.to_nat m) v)))
  else Raise ValueError.

(** [arr[i, j]] *)
Definition nd_getitem {T} (arr : ndarray T) (i j : Z) : result T :=
  let? k := py_index (fst (shape arr)) i in
  let? l := py_index (snd (shape arr)) j in
  match data arr !! k ≫= (.!! l) with
  | Some x => Ok x
  | None => Raise IndexError
  end.

(** [arr[i, j] = x] *)
Definition nd_setitem {T} (arr : ndarray T) (i j : Z) (x : T) : result (ndarray T) :=
  let? k := py_index (fst (shape arr)) i in
  let? l := py_index (snd (shape arr)) j in
  Ok (mk_ndarray (shape arr) (alter (λ row, <[l := x]> row) k (data arr))).

(** [arr.fill(x)] *)
Definition nd_fill {T} (arr : ndarray T) (x : T) : ndarray T :=
  mk_ndarray (shape arr) (fmap (M:=list) (fmap (M:=list) (λ _, x)) (data arr)).

(** An in-place update of every cell of the column view [arr[:, j]]: the
    view shares the storage of [arr], so the update is an update of [arr]. *)
Definition nd_col_map {T} (f : T → T) (arr : ndarray T) (j : Z) : result (ndarray T) :=
  let? l := py_index (snd (shape arr)) j in
  Ok (mk_ndarray (shape arr) (fmap (M:=list) (alter f l) (data arr))).

(** ** The store of reward matrices *)

Definition loc := nat.
Abbreviation heap := (gmap nat (ndarray float)).

Definition M (A : Type) : Type := heap → result (A * heap).

Definition ret {A} (a : A) : M A := λ h, Ok (a, h).

Definition bind {A B} (m : M A) (f : A → M B) : M B :=
  λ h, match m h with
       | Ok (a, h') => f a h'
       | Raise e => Raise e
       end.

Definition lift {A} (r : result A) : M A :=
  λ h, match r with
       | Ok a => Ok (a, h)
       | Raise e => Raise e
       end.

Notation "'let!' x := e1 'in' e2" := (bind e1 (λ x, e2))
  (at level 10, x name, e1 at level 100, e2 at level 200).
Notation "'let!' ' p := e1 'in' e2" := (bind e1 (λ x, match x with p => e2 end))
  (at level 10, p pattern, e1 at level 100, e2 at level 200).

Fixpoint foldM {A B} (f : B → A → M B) (b : B) (l : list A) : M B :=
  match l with
  | [] => ret b
  | x :: l => let! b' := f b x in foldM f b' l
  end.

(** A new array object gets an address that is not in use. *)
Definition heap_alloc (arr : ndarray float) : M loc :=
  λ h, let l := fresh (dom h) in Ok (l, <[l := arr]> h).

(** Reading through an address.  Python has no dangling references; the
    [Raise] case only makes the function total on arbitrary stores. *)
Definition heap_read (l : loc) : M (ndarray float) :=
  λ h, match h !! l with
       | Some arr => Ok (arr, h)
       | None => Raise (BaseException "no object at this address")
       end.

(** In-place update of the array at an address. *)
Definition heap_update (l : loc) (f : ndarray float → result (ndarray float)) : M unit :=
  let! arr := heap_read l in
  let! arr' := lift (f arr) in
  λ h, Ok (tt, <[l := arr']> h).

(** ** Dynamically typed constructor arguments of [MDP] *)

Inductive pyval :=
  | PyInt (z : Z)
  | PyFloat (f : float)
  | PyStr (s : string)
  | PyNone.

Inductive pyobj :=
  | PyFunction (f : Z → Z → result Z)
  | PyData (v : pyval).

(** [isinstance(v, int)] *)
Definition isinstance_int (v : pyval) : bool :=
  match v with
  | PyInt _ => true
  | _ => false
  end.

(** [callable(o)] *)
Definition callable (o : pyobj) : bool :=
  match o with
  | PyFunction _ => true
  | PyData _ => false
  end.

(** [o(s, a)] *)
Definition call (o : pyobj) (s a : Z) : result Z :=
  match o with
  | PyFunction f => f s a
  | PyData _ => Raise TypeError
  end.

(** [shp == (S, A)] for the shape tuple of a two-dimensional array. *)
Definition shape_eq (shp : nat * nat) (S A : pyval) : bool :=
  match S, A with
  | PyInt s, PyInt a => bool_decide (Z.of_nat (fst shp) = s ∧ Z.of_nat (snd shp) = a)
  | _, _ => false
  end.

Module MDP.
Record t := mk {
  S : pyval;
  A : pyval;
  rewards : loc;
  transition : pyobj
}.

(** [MDP.__init__] *)
Definition __init__ (S A : pyval) (rewards : loc) (transition : pyobj) : M t :=
  let! _ := lift (py_assert (isinstance_int S) "isinstance(S, int)") in
  let! _ := lift (py_assert (isinstance_int A) "isinstance(A, int)") in
  let! arr := heap_read rewards in
  let! _ := lift (py_assert (shape_eq (shape arr) S A) "rewards.shape == (S, A)") in
  let! _ := lift (py_assert (callable transition) "callable(transition)") in
  ret (mk S A rewards transition).
End MDP.

(** ** The grid world *)

Module GridWorldMDP.

Inductive Actions :=
  | UP | DOWN | LEFT | RIGHT
  | UP_LEFT | UP_RIGHT | DOWN_LEFT | DOWN_RIGHT
  | ABSORB.

(** The integer value of a member of the [IntEnum]. *)
Definition value (a : Actions) : Z :=
  match a with
  | UP => 0 | DOWN => 1 | LEFT => 2 | RIGHT => 3
  | UP_LEFT => 4 | UP_RIGHT => 5 | DOWN_LEFT => 6 | DOWN_RIGHT => 7
  | ABSORB => 8
  end.

Definition members : list Actions :=
  [UP; DOWN; LEFT; RIGHT; UP_LEFT; UP_RIGHT; DOWN_LEFT; DOWN_RIGHT; ABSORB].

(** [len(self.Actions)] *)
Definition len_Actions : Z := Z.of_nat (length members).

(** [GridWorldMDP.diagonal_actions], a Python set. *)
Definition diagonal_actions : gset Z :=
  {[ value UP_LEFT; value UP_RIGHT; value DOWN_LEFT; value DOWN_RIGHT ]}.

(** The attributes of [self] that the construction loop writes. *)
Record tables := mk_tables {
  t_neighbors : list (list (Z * Z));
  t_reverse_neighbors : list (list (Z * Z));
  t_transition_cached : ndarray Z;
  t_transition_cached_l : list Z
}.

(** [rewards[s, a] = v] on the stored matrix. *)
Definition heap_setitem (rewards : loc) (s a : Z) (v : float) : M unit :=
  heap_update rewards (λ arr, nd_setitem arr s a v).

(** [np.sqrt(2)] *)
Definition sqrt2 : float := PrimFloat.sqrt 2%float.

Section Grid.
Variables rows cols : Z.

(** [GridWorldMDP.coor_to_state] *)
Definition coor_to_state (r c : Z) : result Z :=
  let? _ := py_assert (bool_decide (0 ≤ r < rows)) "0 <= r < self.rows" in
  let? _ := py_assert (bool_decide (0 ≤ c < cols)) "0 <= c < self.cols" in
  Ok (r * cols + c).

(** [GridWorldMDP.state_to_coor] *)
Definition state_to_coor (s : Z) : result (Z * Z) :=
  let? _ := py_assert (bool_decide (s < rows * cols)) "s < self.rows * self.cols" in
  Ok (s `div` cols, s `mod` cols).

Variable disallow_diag : bool.

(** [GridWorldMDP._transition_helper] with [alert_illegal=True]; with
    [alert_illegal=False] the method returns the first component. *)
Definition _transition_helper (s a : Z) : result (Z * bool) :=
  let? '(r, c) := state_to_coor s in
  let? _ := py_assert (bool_decide (a >= 0) && bool_decide (a < len_Actions))
                      "a >= 0 and a < len(self.Actions)" in
  let? '(r_prime, c_prime) :=
    if bool_decide (a = value LEFT) then Ok (r - 1, c)
    else if bool_decide (a = value RIGHT) then Ok (r + 1, c)
    else if bool_decide (a = value DOWN) then Ok (r, c - 1)
    else if bool_decide (a = value UP) then Ok (r, c + 1)
    else if bool_decide (a = value UP_LEFT) then Ok (r - 1, c + 1)
    else if bool_decide (a = value UP_RIGHT) then Ok (r + 1, c + 1)
    else if bool_decide (a = value DOWN_LEFT) then Ok (r - 1, c - 1)
    else if bool_decide (a = value DOWN_RIGHT) then Ok (r + 1, c - 1)
    else if bool_decide (a = value ABSORB) then Ok (r, c)
    else Raise (BaseException "undefined action") in
  let illegal :=
    bool_decide (r_prime < 0) || bool_decide (r_prime >= rows) ||
    bool_decide (c_prime < 0) || bool_decide (c_prime >= cols) ||
    (disallow_diag && bool_decide (a ∈ diagonal_actions)) in
  let '(r_prime, c_prime) := if illegal then (r, c) else (r_prime, c_prime) in
  let? s_prime := coor_to_state r_prime c_prime in
  Ok (s_prime, illegal).

Variable reward_dict : gmap (Z * Z) float.
Variable rewards : loc.

(** The body of the two nested [for] loops of [__init__]. *)
Definition loop_body (s a : Z) (tb : tables) : M tables :=
  let! '(s_prime, illegal) := lift (_transition_helper s a) in
  let! tc := lift (nd_setitem (t_transition_cached tb) s a s_prime) in
  let! tcl := lift (list_setitem (t_transition_cached_l tb)
                                 (a + s * len_Actions) s_prime) in
  let! coor := lift (state_to_coor s_prime) in
  if negb illegal then
    let! _ := match reward_dict !! coor with
              | Some v => heap_setitem rewards s a v
              | None => ret tt
              end in
    let! nb := lift (list_append_at (t_neighbors tb) s (a, s_prime)) in
    let! rnb := lift (list_append_at (t_reverse_neighbors tb) s_prime (a, s)) in
    ret (mk_tables nb rnb tc tcl)
  else
    let! _ := heap_setitem rewards s a neg_infinity in
    ret (mk_tables (t_neighbors tb) (t_reverse_neighbors tb) tc tcl).

(** [for s in xrange(S): for a in xrange(A): ...] *)
Definition loops (S A : Z) (tb : tables) : M tables :=
  foldM (λ tb s, foldM (λ tb a, loop_body s a tb) tb (xrange A)) tb (xrange S).
End Grid.

(** The first part of [__init__]: allocation of the tables and the
    double loop.  It returns the local [rewards] and the tables written
    so far. *)
Definition init_tables (rows cols : Z) (reward_dict : gmap (Z * Z) float)
    (default_reward : float) (disallow_diag : bool) : M (loc * tables) :=
  let! _ := lift (py_assert (bool_decide (rows > 0)) "rows > 0") in
  let! _ := lift (py_assert (bool_decide (cols > 0)) "cols > 0") in
  let S := rows * cols in
  let A := len_Actions in
  let! zeros := lift (np_full S A 0%float) in
  let! rewards := heap_alloc zeros in
  let! _ := heap_update rewards (λ arr, Ok (nd_fill arr default_reward)) in
  let neighbors := replicate (Z.to_nat S) [] in
  let reverse_neighbors := replicate (Z.to_nat S) [] in
  let! transition_cached := lift (np_full S A 0) in
  let transition_cached_l := replicate (Z.to_nat (S * A)) 0 in
  let! tb := loops rows cols disallow_diag reward_dict rewards S A
               (mk_tables neighbors reverse_neighbors
                          transition_cached transition_cached_l) in
  ret (rewards, tb).

(** [if euclidean_rewards: for a in self.diagonal_actions: ...] *)
Definition scale_diagonals (euclidean_rewards : bool) (rewards : loc) : M unit :=
  if euclidean_rewards then
    foldM (λ _ a, heap_update rewards
                    (λ arr, nd_col_map (λ x, PrimFloat.mul x sqrt2) arr a))
          tt (elements diagonal_actions)
  else ret tt.

Record t := mk {
  S : pyval;
  A : pyval;
  rewards : loc;
  transition : pyobj;
  rows : Z;
  cols : Z;
  default_reward : float;
  neighbors : list (list (Z * Z));
  reverse_neighbors : list (list (Z * Z));
  transition_cached : ndarray Z;
  transition_cached_nd1d : list Z;
  transition_cached_l : list Z;
  transition_cached_t : list Z;
  allow_wait : bool;
  disallow_diag : bool;
  state_rewards : list float;
  goal : option Z
}.

(** [self.goal = g] *)
Definition with_goal (self : t) (g : option Z) : t :=
  mk (S self) (A self) (rewards self) (transition self) (rows self) (cols self)
     (default_reward self) (neighbors self) (reverse_neighbors self)
     (transition_cached self) (transition_cached_nd1d self)
     (transition_cached_l self) (transition_cached_t self)
     (allow_wait self) (disallow_diag self) (state_rewards self) g.

(** [self.rewards = l] *)
Definition with_rewards (self : t) (l : loc) : t :=
  mk (S self) (A self) l (transition self) (rows self) (cols self)
     (default_reward self) (neighbors self) (reverse_neighbors self)
     (transition_cached self) (transition_cached_nd1d self)
     (transition_cached_l self) (transition_cached_t self)
     (allow_wait self) (disallow_diag self) (state_rewards self) (goal self).

(** [GridWorldMDP._transition] *)
Definition _transition (self : t) (s a : Z) : result Z :=
  nd_getitem (transition_cached self) s a.

(** [GridWorldMDP.set_goal] *)
Definition set_goal (self : t) (goal_state : option Z) : M t :=
  let self := with_goal self goal_state in
  let! _ :=
    if allow_wait self then
      heap_update (rewards self)
        (λ arr, nd_col_map (λ _, default_reward self) arr (value ABSORB))
    else
      heap_update (rewards self)
        (λ arr, nd_col_map (λ _, neg_infinity) arr (value ABSORB)) in
  let! _ :=
    match goal_state with
    | Some g => heap_setitem (rewards self) g (value ABSORB) 0%float
    | None => ret tt
    end in
  ret self.

(** [GridWorldMDP.set_all_goals] *)
Definition set_all_goals (self : t) : M unit :=
  heap_update (rewards self)
    (λ arr, nd_col_map (λ _, 0%float) arr (value ABSORB)).

(** [GridWorldMDP.__init__] *)
Definition __init__ (rows cols : Z) (reward_dict : gmap (Z * Z) float)
    (goal_state : option Z) (default_reward : float)
    (euclidean_rewards allow_wait disallow_diag : bool) : M t :=
  let! '(rewards, tb) :=
    init_tables rows cols reward_dict default_reward disallow_diag in
  let S := rows * cols in
  let A := len_Actions in
  let transition_cached_nd1d := replicate (Z.to_nat (S * A)) 0 in
  let transition_cached_t := t_transition_cached_l tb in
  let! _ := scale_diagonals euclidean_rewards rewards in
  let! base :=
    MDP.__init__ (PyInt S) (PyInt A) rewards
      (PyFunction (λ s a, nd_getitem (t_transition_cached tb) s a)) in
  let state_rewards := replicate (Z.to_nat S) default_reward in
  let! state_rewards :=
    lift (foldR (λ sr '((r, c), reward),
                   let? k := coor_to_state rows cols r c in
                   list_setitem sr k reward)
                state_rewards (map_to_list reward_dict)) in
  set_goal
    (mk (MDP.S base) (MDP.A base) (MDP.rewards base) (MDP.transition base)
        rows cols default_reward
        (t_neighbors tb) (t_reverse_neighbors tb)
        (t_transition_cached tb) transition_cached_nd1d
        (t_transition_cached_l tb) transition_cached_t
        allow_wait disallow_diag state_rewards None)
    goal_state.

(** [GridWorldMDP.copy] *)
Definition copy (self : t) : M t :=
  let! cp := __init__ (rows self) (cols self) ∅ None (-1)%float true false false in
  let! arr := heap_read (rewards self) in
  let! l := heap_alloc (mk_ndarray (shape arr) (data arr)) in
  ret (with_rewards cp l).

End GridWorldMDP.

(** * Vocabulary of the statements *)

(** The content of cell [(i, j)] of an array, for non-negative indices. *)
Definition cell {T} (arr : ndarray T) (i j : Z) : option T :=
  data arr !! Z.to_nat i ≫= (.!! Z.to_nat j).

(** The data of [arr] has the extent its shape [(n, m)] announces. *)
Definition nd_wf {T} (n m : nat) (arr : ndarray T) : Prop :=
  shape arr = (n, m) ∧ length (data arr) = n ∧
  Forall (λ row, length row = m) (data arr).

Definition in_range (n m : nat) (i j : Z) : Prop :=
  0 ≤ i < Z.of_nat n ∧ 0 ≤ j < Z.of_nat m.

(** Row [i] of a list of lists, for a non-negative index. *)
Definition row {T} (l : list (list T)) (i : Z) : list T :=
  default [] (l !! Z.to_nat i).

(** A loop nest visits the pairs of indices, outer index first. *)
Definition index_pairs (ls la : list Z) : list (Z * Z) :=
  ls ≫= λ s, pair s <$> la.

(** The offset [(Δrow, Δcolumn)] that the branches of
    [_transition_helper] apply for each action. *)
Definition offset (a : GridWorldMDP.Actions) : Z * Z :=
  match a with
  | GridWorldMDP.LEFT => (-1, 0)
  | GridWorldMDP.RIGHT => (1, 0)
  | GridWorldMDP.DOWN => (0, -1)
  | GridWorldMDP.UP => (0, 1)
  | GridWorldMDP.UP_LEFT => (-1, 1)
  | GridWorldMDP.UP_RIGHT => (1, 1)
  | GridWorldMDP.DOWN_LEFT => (-1, -1)
  | GridWorldMDP.DOWN_RIGHT => (1, -1)
  | GridWorldMDP.ABSORB => (0, 0)
  end.

Definition is_diagonal (a : GridWorldMDP.Actions) : bool :=
  match a with
  | GridWorldMDP.UP_LEFT | GridWorldMDP.UP_RIGHT
  | GridWorldMDP.DOWN_LEFT | GridWorldMDP.DOWN_RIGHT => true
  | _ => false
  end.

(** The candidate coordinate of a move: the coordinate of [s] plus the
    offset of the action. *)
Definition candidate (cols s : Z) (a : GridWorldMDP.Actions) : Z * Z :=
  (s `div` cols + (offset a).1, s `mod` cols + (offset a).2).

(** A move is legal when its candidate lies in the grid and the action is
    not a diagonal one while diagonals are disallowed. *)
Definition legal (rows cols : Z) (disallow_diag : bool) (s : Z)
    (a : GridWorldMDP.Actions) : bool :=
  bool_decide (0 ≤ (candidate cols s a).1 < rows ∧ 0 ≤ (candidate cols s a).2 < cols)
  && negb (disallow_diag && is_diagonal a).

(** The result of [_transition_helper] as a pair; the [Raise] case does
    not occur on the states and actions of the grid. *)
Definition step_of (rows cols : Z) (dd : bool) (s a : Z) : Z * bool :=
  match GridWorldMDP._transition_helper rows cols dd s a with
  | Ok p => p
  | Raise _ => (s, true)
  end.

(** The reward that the loop body leaves in a cell, given the resulting
    state and the illegality flag of its move. *)
Definition reward_of (cols : Z) (reward_dict : gmap (Z * Z) float)
    (default_reward : float) (p : Z * bool) : float :=
  if p.2 then neg_infinity
  else default default_reward (reward_dict !! (p.1 `div` cols, p.1 `mod` cols)).

(** The invariant of the construction loop after the pairs [vis] have
    been processed, starting from the store [h0]. *)
Definition loop_inv (rows cols : Z) (dd : bool) (rd : gmap (Z * Z) float)
    (dr : float) (rw : loc) (h0 : heap)
    (vis : list (Z * Z)) (tb : GridWorldMDP.tables) (h : heap) : Prop :=
  let n := Z.to_nat (rows * cols) in
  (∀ p, p ∈ vis → in_range n 9 p.1 p.2) ∧
  length (GridWorldMDP.t_neighbors tb) = n ∧
  length (GridWorldMDP.t_reverse_neighbors tb) = n ∧
  nd_wf n 9 (GridWorldMDP.t_transition_cached tb) ∧
  length (GridWorldMDP.t_transition_cached_l tb)
    = Z.to_nat (rows * cols * GridWorldMDP.len_Actions) ∧
  (∃ arr, h = <[rw := arr]> h0 ∧ nd_wf n 9 arr ∧
     ∀ s a, in_range n 9 s a →
       cell arr s a =
         Some (if decide ((s, a) ∈ vis)
               then reward_of cols rd dr (step_of rows cols dd s a)
               else dr)) ∧
  (∀ s a, (s, a) ∈ vis →
     cell (GridWorldMDP.t_transition_cached tb) s a
       = Some (step_of rows cols dd s a).1) ∧
  (∀ s x, 0 ≤ s →
     x ∈ row (GridWorldMDP.t_neighbors tb) s ↔
     ∃ a, (s, a) ∈ vis ∧ (step_of rows cols dd s a).2 = false ∧
          x = (a, (step_of rows cols dd s a).1)) ∧
  (∀ s' x, 0 ≤ s' →
     x ∈ row (GridWorldMDP.t_reverse_neighbors tb) s' ↔
     ∃ s a, (s, a) ∈ vis ∧ (step_of rows cols dd s a).2 = false ∧
            (step_of rows cols dd s a).1 = s' ∧ x = (a, s)).

(** The reward that the construction loop assigns to a pair, in the words
    of the specification: negative infinity for an illegal move, otherwise
    the override at the coordinate of the resulting state when there is
    one, else the default reward. *)
Definition assigned_reward (rows cols : Z) (dd : bool) (rd : gmap (Z * Z) float)
    (dr : float) (s : Z) (a : GridWorldMDP.Actions) : float :=
  if legal rows cols dd s a
  then default dr (rd !! candidate cols s a)
  else neg_infinity.

(** The position that a Python index [i] addresses in a sequence of
    length [n]: a negative index counts from the end. *)
Definition wrap (n i : Z) : Z := if bool_decide (i < 0) then i + n else i.

(** The state that a goal argument designates. *)
Definition goal_index (rows cols : Z) (goal : option Z) : option Z :=
  wrap (rows * cols) <$> goal.

(** The ABSORB reward of state [s] once the goal is the state [goal]. *)
Definition absorb_reward (allow_wait : bool) (dr : float) (goal : option Z) (s : Z)
  : float :=
  if decide (goal = Some s) then 0%float
  else if allow_wait then dr else neg_infinity.

(** Scaling by [np.sqrt(2)]. *)
Definition scaled (x : float) : float := PrimFloat.mul x GridWorldMDP.sqrt2.

(** The goal argument is [None] or an index into the [rows * cols]
    states, possibly a negative one. *)
Definition goal_in_grid (rows cols : Z) (goal : option Z) : Prop :=
  match goal with
  | Some g => - (rows * cols) ≤ g < rows * cols
  | None => True
  end.

(** Every key of the override map is a coordinate of the grid. *)
Definition keys_in_grid (rows cols : Z) (rd : gmap (Z * Z) float) : Prop :=
  map_Forall (λ k _, 0 ≤ k.1 < rows ∧ 0 ≤ k.2 < cols) rd.

(** [rewards[s, a]] for the matrix stored at address [l]. *)
Definition reward_at (h : heap) (l : loc) (s a : Z) : result float :=
  match heap_read l h with
  | Ok (arr, _) => nd_getitem arr s a
  | Raise e => Raise e
  end.

(** The tables of a constructed engine: the cached transitions and the
    two adjacency lists hold what [_transition_helper] returns on every
    state and action of the grid. *)
Definition tables_ok (rows cols : Z) (dd : bool) (m : GridWorldMDP.t) : Prop :=
  let n := Z.to_nat (rows * cols) in
  GridWorldMDP.transition m
    = PyFunction (λ s a, nd_getitem (GridWorldMDP.transition_cached m) s a) ∧
  nd_wf n 9 (GridWorldMDP.transition_cached m) ∧
  length (GridWorldMDP.neighbors m) = n ∧
  length (GridWorldMDP.reverse_neighbors m) = n ∧
  (∀ s a, in_range n 9 s a →
     cell (GridWorldMDP.transition_cached m) s a
       = Some (step_of rows cols dd s a).1) ∧
  (∀ s x, 0 ≤ s →
     x ∈ row (GridWorldMDP.neighbors m) s ↔
     ∃ a, in_range n 9 s a ∧ (step_of rows cols dd s a).2 = false ∧
          x = (a, (step_of rows cols dd s a).1)) ∧
  (∀ s' x, 0 ≤ s' →
     x ∈ row (GridWorldMDP.reverse_neighbors m) s' ↔
     ∃ s a, in_range n 9 s a ∧ (step_of rows cols dd s a).2 = false ∧
            (step_of rows cols dd s a).1 = s' ∧ x = (a, s)).

(** The three stages of the reward matrix during [__init__]: after the
    loop, after the scaling, and after [set_goal]. *)
Definition loop_reward (rows cols : Z) (dd : bool) (rd : gmap (Z * Z) float)
    (dr : float) (s a : Z) : float :=
  reward_of cols rd dr (step_of rows cols dd s a).

Definition scaled_reward (rows cols : Z) (dd : bool) (rd : gmap (Z * Z) float)
    (dr : float) (eu : bool) (s a : Z) : float :=
  if eu && bool_decide (a ∈ GridWorldMDP.diagonal_actions)
  then scaled (loop_reward rows cols dd rd dr s a)
  else loop_reward rows cols dd rd dr s a.

Definition final_reward (rows cols : Z) (dd : bool) (rd : gmap (Z * Z) float)
    (dr : float) (eu aw : bool) (goal : option Z) (s a : Z) : float :=
  if decide (a = 8) then absorb_reward aw dr (goal_index rows cols goal) s
  else scaled_reward rows cols dd rd dr eu s a.

(** The arguments with which construction succeeds: positive dimensions,
    override keys inside the grid, and no goal or a goal that indexes a
    state. *)
Definition valid_args (rows cols : Z) (rd : gmap (Z * Z) float) (goal : option Z)
  : bool :=
  bool_decide (0 < rows) && bool_decide (0 < cols) &&
  bool_decide (keys_in_grid rows cols rd) &&
  match goal with
  | Some g => bool_decide (- (rows * cols) ≤ g < rows * cols)
  | None => true
  end.

(** The operations that mutate the rewards of an engine after
    construction, and a sequence of them. *)
Inductive mutation :=
  | Set_goal (g : option Z)
  | Set_all_goals.

Definition mutate (mu : mutation) (self : GridWorldMDP.t) : M GridWorldMDP.t :=
  match mu with
  | Set_goal g => GridWorldMDP.set_goal self g
  | Set_all_goals => let! _ := GridWorldMDP.set_all_goals self in ret self
  end.

Definition mutations (mus : list mutation) (self : GridWorldMDP.t) : M GridWorldMDP.t :=
  foldM (λ self mu, mutate mu self) self mus.

(** A goal given to [set_goal] is [None] or an index into the states. *)
Definition mutation_ok (rows cols : Z) (mu : mutation) : bool :=
  match mu with
  | Set_goal (Some g) => bool_decide (- (rows * cols) ≤ g < rows * cols)
  | _ => true
  end.

(** "A positive integer", in the words of the specification of [MDP]. *)
Definition positive_int (v : pyval) : Prop :=
  ∃ z, v = PyInt z ∧ 0 < z.

(** ** Vocabulary of the further properties *)

(** The state that a legal move from [s] leads to. *)
Definition target (cols s : Z) (a : GridWorldMDP.Actions) : Z :=
  (candidate cols s a).1 * cols + (candidate cols s a).2.

(** The action that undoes a move. *)
Definition opposite (a : GridWorldMDP.Actions) : GridWorldMDP.Actions :=
  match a with
  | GridWorldMDP.UP => GridWorldMDP.DOWN
  | GridWorldMDP.DOWN => GridWorldMDP.UP
  | GridWorldMDP.LEFT => GridWorldMDP.RIGHT
  | GridWorldMDP.RIGHT => GridWorldMDP.LEFT
  | GridWorldMDP.UP_LEFT => GridWorldMDP.DOWN_RIGHT
  | GridWorldMDP.UP_RIGHT => GridWorldMDP.DOWN_LEFT
  | GridWorldMDP.DOWN_LEFT => GridWorldMDP.UP_RIGHT
  | GridWorldMDP.DOWN_RIGHT => GridWorldMDP.UP_LEFT
  | GridWorldMDP.ABSORB => GridWorldMDP.ABSORB
  end.

(** The legal moves of a state, one [(action, next state)] pair per legal
    action, in the order of the enumeration. *)
Definition legal_moves (rows cols : Z) (dd : bool) (s : Z) : list (Z * Z) :=
  omap (λ a, if legal rows cols dd s a
             then Some (GridWorldMDP.value a, target cols s a) else None)
       GridWorldMDP.members.

(** The legal moves into a state, one [(action, origin)] pair per legal
    move, by origin and then by action. *)
Definition predecessors (rows cols : Z) (dd : bool) (s' : Z) : list (Z * Z) :=
  xrange (rows * cols) ≫= λ s,
    omap (λ a, if legal rows cols dd s a && bool_decide (target cols s a = s')
               then Some (GridWorldMDP.value a, s) else None)
         GridWorldMDP.members.

(** What the loop body appends to the forward list of [s], and to the
    reverse list of [s'], when it processes the pair [p]. *)
Definition fwd_entry (rows cols : Z) (dd : bool) (s : Z) (p : Z * Z)
  : option (Z * Z) :=
  if bool_decide (p.1 = s) && negb (step_of rows cols dd p.1 p.2).2
  then Some (p.2, (step_of rows cols dd p.1 p.2).1) else None.

Definition rev_entry (rows cols : Z) (dd : bool) (s' : Z) (p : Z * Z)
  : option (Z * Z) :=
  if negb (step_of rows cols dd p.1 p.2).2
     && bool_decide ((step_of rows cols dd p.1 p.2).1 = s')
  then Some (p.2, p.1) else None.

(** A second invariant of the construction loop: the exact content of the
    two adjacency lists and of the flat transition cache after the pairs
    [vis] have been processed. *)
Definition flat_inv (rows cols : Z) (dd : bool) (vis : list (Z * Z))
    (tb : GridWorldMDP.tables) : Prop :=
  let n := Z.to_nat (rows * cols) in
  length (GridWorldMDP.t_neighbors tb) = n ∧
  length (GridWorldMDP.t_reverse_neighbors tb) = n ∧
  length (GridWorldMDP.t_transition_cached_l tb)
    = Z.to_nat (rows * cols * GridWorldMDP.len_Actions) ∧
  (∀ s a, (s, a) ∈ vis →
     GridWorldMDP.t_transition_cached_l tb
       !! Z.to_nat (a + s * GridWorldMDP.len_Actions)
     = Some (step_of rows cols dd s a).1) ∧
  (∀ s, 0 ≤ s →
     row (GridWorldMDP.t_neighbors tb) s = omap (fwd_entry rows cols dd s) vis) ∧
  (∀ s', 0 ≤ s' →
     row (GridWorldMDP.t_reverse_neighbors tb) s'
     = omap (rev_entry rows cols dd s') vis).

(** The loop of [__init__] that writes the overrides into
    [state_rewards]. *)
Definition state_rewards_loop (rows cols : Z) (sr : list float)
    (l : list (Z * Z * float)) : result (list float) :=
  foldR (λ sr '((r, c), reward),
           let? k := GridWorldMDP.coor_to_state rows cols r c in
           list_setitem sr k reward) sr l.

(** * Properties *)

(** ** Fallible computations *)

Lemma bindR_Ok {A B} (m : result A) (f : A → result B) (b : B) :
  bindR m f = Ok b ↔ ∃ a, m = Ok a ∧ f a = Ok b.
Proof.
  destruct m as [a|e]; simpl; split.
  - intros H. exists a. done.
  - intros (a' & [= ->] & H). done.
  - done.
  - intros (a' & [=] & _).
Qed.

Lemma py_index_nonneg (n : nat) (i : Z) :
  0 ≤ i < Z.of_nat n → py_index n i = Ok (Z.to_nat i).
Proof. intros H. unfold py_index. by rewrite bool_decide_eq_true_2. Qed.

Lemma py_index_negative (n : nat) (i : Z) :
  - Z.of_nat n ≤ i < 0 → py_index n i = Ok (Z.to_nat (i + Z.of_nat n)).
Proof.
  intros H. unfold py_index.
  rewrite bool_decide_eq_false_2 by lia. by rewrite bool_decide_eq_true_2.
Qed.

Lemma py_index_Ok (n : nat) (i : Z) (k : nat) :
  py_index n i = Ok k → (k < n)%nat ∧ - Z.of_nat n ≤ i < Z.of_nat n.
Proof.
  unfold py_index. repeat case_bool_decide; intros [= <-]; lia.
Qed.

(** ** Arrays: cells, well-formedness and the effect of the updates *)

Section Arrays.
Context {T : Type}.
Implicit Types (arr : ndarray T) (i j : Z) (x : T).

Lemma cell_is_Some n m arr i j :
  nd_wf n m arr → in_range n m i j → is_Some (cell arr i j).
Proof.
  intros (_ & Hlen & Hrows) [Hi Hj]. unfold cell.
  destruct (lookup_lt_is_Some_2 (data arr) (Z.to_nat i)) as [row Hrow]; [lia|].
  rewrite Hrow. simpl. apply lookup_lt_is_Some_2.
  rewrite Forall_lookup in Hrows. rewrite (Hrows _ _ Hrow). lia.
Qed.

Lemma nd_getitem_cell n m arr i j :
  nd_wf n m arr → in_range n m i j →
  nd_getitem arr i j =
    match cell arr i j with Some x => Ok x | None => Raise IndexError end.
Proof.
  intros (Hs & _) [Hi Hj]. unfold nd_getitem, cell. rewrite Hs. simpl.
  rewrite !py_index_nonneg by done. done.
Qed.

Lemma nd_getitem_Ok n m arr i j x :
  nd_wf n m arr → in_range n m i j →
  nd_getitem arr i j = Ok x ↔ cell arr i j = Some x.
Proof.
  intros Hwf Hr. rewrite (nd_getitem_cell n m) by done.
  destruct (cell arr i j); split; intros; simplify_eq; done.
Qed.

Lemma np_full_spec (n m : Z) x :
  0 ≤ n → 0 ≤ m →
  ∃ arr, np_full n m x = Ok arr ∧ nd_wf (Z.to_nat n) (Z.to_nat m) arr ∧
    ∀ i j, in_range (Z.to_nat n) (Z.to_nat m) i j → cell arr i j = Some x.
Proof.
  intros Hn Hm. unfold np_full. rewrite bool_decide_eq_true_2 by done.
  eexists. split; [done|]. split.
  - split; [done|]. simpl. rewrite length_replicate. split; [done|].
    apply Forall_replicate. by rewrite length_replicate.
  - intros i j [Hi Hj]. unfold cell. simpl.
    rewrite lookup_replicate_2 by lia. simpl.
    by rewrite lookup_replicate_2 by lia.
Qed.

Lemma nd_setitem_spec n m arr i j x :
  nd_wf n m arr → in_range n m i j →
  ∃ arr', nd_setitem arr i j x = Ok arr' ∧ nd_wf n m arr' ∧
    ∀ i' j', 0 ≤ i' → 0 ≤ j' →
      cell arr' i' j' =
        if decide (i' = i ∧ j' = j) then Some x else cell arr i' j'.
Proof.
  intros (Hs & Hlen & Hrows) [Hi Hj]. unfold nd_setitem. rewrite Hs. simpl.
  rewrite !py_index_nonneg by done. simpl.
  eexists. split; [done|]. split.
  - split; [done|]. simpl. rewrite length_alter. split; [done|].
    apply Forall_alter; [done|]. intros row _ Hrow.
    rewrite Forall_lookup in Hrows. rewrite length_insert. eauto.
  - intros i' j' Hi' Hj'. unfold cell. simpl.
    destruct (decide (i' = i)) as [->|Hne].
    + rewrite list_lookup_alter_eq.
      destruct (lookup_lt_is_Some_2 (data arr) (Z.to_nat i)) as [row Hrow]; [lia|].
      rewrite Hrow. simpl.
      assert (length row = m) as Hrl
        by (rewrite Forall_lookup in Hrows; eauto).
      destruct (decide (j' = j)) as [->|Hnej].
      * rewrite decide_True by done.
        apply list_lookup_insert_eq. lia.
      * rewrite decide_False by (intros [? ?]; done).
        apply list_lookup_insert_ne. lia.
    + rewrite decide_False by (intros [? ?]; done).
      rewrite list_lookup_alter_ne by lia. done.
Qed.

Lemma nd_col_map_spec n m (f : T → T) arr j :
  nd_wf n m arr → 0 ≤ j < Z.of_nat m →
  ∃ arr', nd_col_map f arr j = Ok arr' ∧ nd_wf n m arr' ∧
    ∀ i' j', 0 ≤ j' →
      cell arr' i' j' =
        if decide (j' = j) then f <$> cell arr i' j' else cell arr i' j'.
Proof.
  intros (Hs & Hlen & Hrows) Hj. unfold nd_col_map. rewrite Hs. simpl.
  rewrite !py_index_nonneg by done. simpl.
  eexists. split; [done|]. split.
  - split; [done|]. simpl. rewrite length_fmap. split; [done|].
    apply Forall_fmap. eapply Forall_impl; [exact Hrows|].
    intros row Hrow. simpl. by rewrite length_alter.
  - intros i' j' Hj'. unfold cell. simpl.
    rewrite list_lookup_fmap.
    destruct (data arr !! Z.to_nat i') as [row|]; simpl; [|by case_decide].
    destruct (decide (j' = j)) as [->|Hne].
    + apply list_lookup_alter_eq.
    + apply list_lookup_alter_ne. lia.
Qed.

Lemma nd_fill_spec n m arr x :
  nd_wf n m arr →
  nd_wf n m (nd_fill arr x) ∧
  ∀ i j, in_range n m i j → cell (nd_fill arr x) i j = Some x.
Proof.
  intros Hwf. pose proof Hwf as (Hs & Hlen & Hrows). split.
  - split; [done|]. simpl. rewrite length_fmap. split; [done|].
    apply Forall_fmap. eapply Forall_impl; [exact Hrows|].
    intros row Hrow. simpl. by rewrite length_fmap.
  - intros i j Hr. destruct (cell_is_Some n m arr i j Hwf Hr) as [y Hy].
    unfold cell in *. simpl. rewrite list_lookup_fmap.
    destruct (data arr !! Z.to_nat i) as [row|]; simpl in *; [|done].
    rewrite list_lookup_fmap, Hy. done.
Qed.
End Arrays.

(** Rows of a list of lists, and appending to one of them. *)

Lemma list_append_at_spec {T} (l : list (list T)) (i : Z) (x : T) :
  0 ≤ i < Z.of_nat (length l) →
  ∃ l', list_append_at l i x = Ok l' ∧ length l' = length l ∧
    ∀ i', 0 ≤ i' → row l' i' = if decide (i' = i) then row l i ++ [x] else row l i'.
Proof.
  intros Hi. unfold list_append_at. rewrite py_index_nonneg by done. simpl.
  eexists. split; [done|]. split; [apply length_alter|].
  intros i' Hi'. unfold row. destruct (decide (i' = i)) as [->|Hne].
  - rewrite list_lookup_alter_eq.
    destruct (lookup_lt_is_Some_2 l (Z.to_nat i)) as [r Hr]; [lia|].
    by rewrite Hr.
  - rewrite list_lookup_alter_ne by lia. done.
Qed.

Lemma list_setitem_spec {T} (l : list T) (i : Z) (x : T) :
  0 ≤ i < Z.of_nat (length l) →
  ∃ l', list_setitem l i x = Ok l' ∧ length l' = length l.
Proof.
  intros Hi. unfold list_setitem. rewrite py_index_nonneg by done. simpl.
  eexists. split; [done|]. apply length_insert.
Qed.

(** ** The store monad *)

Lemma bind_Ok {A B} (m : M A) (f : A → M B) (h h' : heap) (b : B) :
  bind m f h = Ok (b, h') ↔ ∃ a h1, m h = Ok (a, h1) ∧ f a h1 = Ok (b, h').
Proof.
  unfold bind. destruct (m h) as [[a h1]|e]; split.
  - intros H. by exists a, h1.
  - by intros (a' & h1' & [= -> ->] & H).
  - done.
  - by intros (a' & h1' & [=] & _).
Qed.

Lemma bind_eq {A B} (m : M A) (f : A → M B) (h h1 : heap) (a : A) :
  m h = Ok (a, h1) → bind m f h = f a h1.
Proof. intros H. unfold bind. by rewrite H. Qed.

Lemma lift_eq {A B} (r : result A) (f : A → M B) (h : heap) (a : A) :
  r = Ok a → bind (lift r) f h = f a h.
Proof. intros ->. done. Qed.

Lemma bind_lift_Ok {A B} (a : A) (f : A → M B) (h : heap) :
  bind (lift (Ok a)) f h = f a h.
Proof. done. Qed.

Lemma heap_update_eq (l : loc) f (h : heap) (arr arr' : ndarray float) :
  h !! l = Some arr → f arr = Ok arr' →
  heap_update l f h = Ok (tt, <[l := arr']> h).
Proof.
  intros Hl Hf. unfold heap_update, heap_read, bind, lift. by rewrite Hl, Hf.
Qed.

Lemma elem_of_snoc {A} (l : list A) (x y : A) : x ∈ l ++ [y] ↔ x ∈ l ∨ x = y.
Proof. by rewrite elem_of_app, list_elem_of_singleton. Qed.

Lemma foldM_app {A B} (f : B → A → M B) (b : B) (l1 l2 : list A) (h : heap) :
  foldM f b (l1 ++ l2) h = bind (foldM f b l1) (λ b', foldM f b' l2) h.
Proof.
  revert b h. induction l1 as [|x l1 IH]; intros b h; simpl; [done|].
  unfold bind at 1 3.
  destruct (f b x h) as [[b1 h1]|e] eqn:Hf.
  - rewrite IH. unfold bind. by rewrite Hf.
  - unfold bind. by rewrite Hf.
Qed.

Lemma foldM_nested {B} (g : Z → Z → B → M B) (ls la : list Z) (b : B) (h : heap) :
  foldM (λ b s, foldM (λ b a, g s a b) b la) b ls h =
  foldM (λ b p, g p.1 p.2 b) b (index_pairs ls la) h.
Proof.
  revert b h. induction ls as [|s ls IH]; intros b h; [done|].
  unfold index_pairs. simpl. rewrite foldM_app.
  assert (∀ b h, foldM (λ b a, g s a b) b la h =
                 foldM (λ b p, g p.1 p.2 b) b (pair s <$> la) h) as Hin.
  { clear. induction la as [|a la IH]; intros b h; simpl; [done|].
    unfold bind. destruct (g s a b h) as [[b1 h1]|e]; [|done]. apply IH. }
  unfold bind. rewrite Hin.
  destruct (foldM _ b (pair s <$> la) h) as [[b1 h1]|e]; [|done]. apply IH.
Qed.

(** A loop whose body maintains an invariant indexed by the elements
    processed so far runs to completion and establishes the invariant for
    the whole list. *)
Lemma foldM_invariant {A B} (f : B → A → M B) (P : A → Prop)
    (Inv : list A → B → heap → Prop) :
  (∀ vis x b h, P x → Inv vis b h →
     ∃ b' h', f b x h = Ok (b', h') ∧ Inv (vis ++ [x]) b' h') →
  ∀ l vis b h, Forall P l → Inv vis b h →
     ∃ b' h', foldM f b l h = Ok (b', h') ∧ Inv (vis ++ l) b' h'.
Proof.
  intros Hstep l. induction l as [|x l IH]; intros vis b h HP HI; simpl.
  - exists b, h. rewrite app_nil_r. done.
  - inversion HP as [|? ? Hx Hl]; subst.
    destruct (Hstep vis x b h Hx HI) as (b1 & h1 & Hf & HI1).
    destruct (IH _ _ _ Hl HI1) as (b' & h' & Hfold & HI').
    exists b', h'. rewrite (bind_eq _ _ _ _ _ Hf).
    split; [done|]. by rewrite <- app_assoc in HI'.
Qed.

(** ** Coordinates *)

Lemma coor_to_state_Ok (rows cols r c : Z) :
  0 ≤ r < rows → 0 ≤ c < cols →
  GridWorldMDP.coor_to_state rows cols r c = Ok (r * cols + c).
Proof.
  intros Hr Hc. unfold GridWorldMDP.coor_to_state.
  by rewrite !bool_decide_eq_true_2 by done.
Qed.

Lemma state_to_coor_Ok (rows cols s : Z) :
  s < rows * cols →
  GridWorldMDP.state_to_coor rows cols s = Ok (s `div` cols, s `mod` cols).
Proof.
  intros Hs. unfold GridWorldMDP.state_to_coor.
  by rewrite bool_decide_eq_true_2 by done.
Qed.

Lemma coor_bounds (rows cols s : Z) :
  0 < cols → 0 ≤ s < rows * cols →
  0 ≤ s `div` cols < rows ∧ 0 ≤ s `mod` cols < cols.
Proof.
  intros Hc [Hs0 Hs]. split; [|by apply Z.mod_pos_bound]. split.
  - by apply Z.div_pos.
  - apply Z.div_lt_upper_bound; lia.
Qed.

Lemma div_mod_encode (cols r c : Z) :
  0 ≤ c < cols →
  (r * cols + c) `div` cols = r ∧ (r * cols + c) `mod` cols = c.
Proof.
  intros Hc. split.
  - rewrite Z.add_comm, Z.div_add by lia. rewrite Z.div_small by done. lia.
  - rewrite Z.add_comm, Z.mod_add by lia. by apply Z.mod_small.
Qed.

Lemma encode_div_mod (cols s : Z) :
  0 < cols → s `div` cols * cols + s `mod` cols = s.
Proof. intros Hc. pose proof (Z.div_mod s cols). lia. Qed.

Lemma encode_bounds (rows cols r c : Z) :
  0 ≤ r < rows → 0 ≤ c < cols → 0 ≤ r * cols + c < rows * cols.
Proof. intros Hr Hc. nia. Qed.

(** What the two range assertions reject: [coor_to_state] raises exactly
    on the coordinates outside the grid; [state_to_coor] raises exactly on
    the states [s >= rows * cols]. *)
Lemma coor_to_state_raises_iff (rows cols r c : Z) :
  (∃ e, GridWorldMDP.coor_to_state rows cols r c = Raise e) ↔
  ¬ (0 ≤ r < rows ∧ 0 ≤ c < cols).
Proof.
  unfold GridWorldMDP.coor_to_state.
  destruct (decide (0 ≤ r < rows)) as [Hr|Hr].
  - rewrite (bool_decide_eq_true_2 _ Hr). simpl.
    destruct (decide (0 ≤ c < cols)) as [Hc|Hc].
    + rewrite (bool_decide_eq_true_2 _ Hc). simpl. split.
      * intros [e [=]].
      * intros H. destruct H. done.
    + rewrite (bool_decide_eq_false_2 _ Hc). simpl. split; [|eauto].
      intros _ [_ ?]. done.
  - rewrite (bool_decide_eq_false_2 _ Hr). simpl. split; [|eauto].
    intros _ [? _]. done.
Qed.

Lemma state_to_coor_raises_iff (rows cols s : Z) :
  (∃ e, GridWorldMDP.state_to_coor rows cols s = Raise e) ↔ rows * cols ≤ s.
Proof.
  unfold GridWorldMDP.state_to_coor. case_bool_decide; simpl; split.
  - intros [e [=]].
  - lia.
  - lia.
  - eauto.
Qed.

(** ** The transition helper *)

Lemma value_range (a : GridWorldMDP.Actions) :
  0 ≤ GridWorldMDP.value a < GridWorldMDP.len_Actions.
Proof. destruct a; vm_compute; split; congruence. Qed.

Lemma value_inj (a b : GridWorldMDP.Actions) :
  GridWorldMDP.value a = GridWorldMDP.value b → a = b.
Proof. destruct a, b; simpl; intros H; try done. Qed.

Lemma value_surj (z : Z) :
  0 ≤ z < GridWorldMDP.len_Actions → ∃ a, z = GridWorldMDP.value a.
Proof.
  intros Hz. change GridWorldMDP.len_Actions with 9 in Hz.
  assert (z = 0 ∨ z = 1 ∨ z = 2 ∨ z = 3 ∨ z = 4 ∨ z = 5 ∨ z = 6 ∨ z = 7 ∨ z = 8)
    as Hcases by lia.
  destruct Hcases as [->|[->|[->|[->|[->|[->|[->|[->| ->]]]]]]]].
  - by exists GridWorldMDP.UP.
  - by exists GridWorldMDP.DOWN.
  - by exists GridWorldMDP.LEFT.
  - by exists GridWorldMDP.RIGHT.
  - by exists GridWorldMDP.UP_LEFT.
  - by exists GridWorldMDP.UP_RIGHT.
  - by exists GridWorldMDP.DOWN_LEFT.
  - by exists GridWorldMDP.DOWN_RIGHT.
  - by exists GridWorldMDP.ABSORB.
Qed.

Lemma diagonal_actions_spec (a : GridWorldMDP.Actions) :
  bool_decide (GridWorldMDP.value a ∈ GridWorldMDP.diagonal_actions) = is_diagonal a.
Proof. destruct a; vm_compute; reflexivity. Qed.

(** On a state of the grid the helper does not raise; it returns the
    encoded candidate and [False] for a legal move, the origin and [True]
    for an illegal one. *)
Lemma _transition_helper_spec (rows cols : Z) (dd : bool) (s : Z)
    (a : GridWorldMDP.Actions) :
  0 < cols → 0 ≤ s < rows * cols →
  GridWorldMDP._transition_helper rows cols dd s (GridWorldMDP.value a) =
    Ok (if legal rows cols dd s a
        then (candidate cols s a).1 * cols + (candidate cols s a).2
        else s,
        negb (legal rows cols dd s a)).
Proof.
  intros Hc Hs. unfold GridWorldMDP._transition_helper.
  rewrite state_to_coor_Ok by lia. simpl.
  pose proof (value_range a) as Hv.
  rewrite !bool_decide_eq_true_2 by lia. simpl.
  destruct (coor_bounds rows cols s Hc Hs) as [Hr Hcc].
  set (r := s `div` cols) in *. set (c := s `mod` cols) in *.
  match goal with
  | |- bindR ?chain _ = _ =>
      assert (chain = Ok (r + (offset a).1, c + (offset a).2)) as ->
        by (destruct a; simpl; f_equal; f_equal; lia)
  end.
  simpl. rewrite diagonal_actions_spec.
  unfold legal, candidate. fold r c.
  set (r' := r + (offset a).1). set (c' := c + (offset a).2). simpl.
  destruct (bool_decide (0 ≤ r' < rows ∧ 0 ≤ c' < cols)) eqn:Hg.
  - apply bool_decide_eq_true_1 in Hg.
    rewrite !(bool_decide_eq_false_2 (_ < 0)) by lia.
    rewrite !(bool_decide_eq_false_2 (_ >= _)) by lia. simpl.
    destruct (dd && is_diagonal a); simpl.
    + rewrite coor_to_state_Ok by done. simpl. f_equal. f_equal.
      apply encode_div_mod. done.
    + rewrite coor_to_state_Ok by lia. done.
  - apply bool_decide_eq_false_1 in Hg. simpl.
    assert (bool_decide (r' < 0) || bool_decide (r' >= rows) ||
            bool_decide (c' < 0) || bool_decide (c' >= cols) = true) as Hor.
    { repeat case_bool_decide; simpl; try done. lia. }
    rewrite Hor. simpl. rewrite coor_to_state_Ok by done. simpl. f_equal. f_equal.
    apply encode_div_mod. done.
Qed.

Lemma _transition_helper_total (rows cols : Z) (dd : bool) (s a : Z) :
  0 < cols → 0 ≤ s < rows * cols → 0 ≤ a < GridWorldMDP.len_Actions →
  ∃ s' ill, GridWorldMDP._transition_helper rows cols dd s a = Ok (s', ill) ∧
            0 ≤ s' < rows * cols.
Proof.
  intros Hc Hs Ha. destruct (value_surj a Ha) as [act ->].
  rewrite _transition_helper_spec by done.
  eexists _, _. split; [done|].
  destruct (legal rows cols dd s act) eqn:Hl; [|lia].
  unfold legal in Hl. apply andb_true_iff in Hl as [Hg%bool_decide_eq_true_1 _].
  apply encode_bounds; lia.
Qed.

(** ** The construction loop *)

Lemma heap_setitem_spec (rw : loc) (h0 : heap) (n m : nat)
    (arr : ndarray float) (s a : Z) (v : float) :
  nd_wf n m arr → in_range n m s a →
  ∃ arr', GridWorldMDP.heap_setitem rw s a v (<[rw := arr]> h0)
            = Ok (tt, <[rw := arr']> h0) ∧
    nd_wf n m arr' ∧
    ∀ i' j', 0 ≤ i' → 0 ≤ j' →
      cell arr' i' j' = if decide (i' = s ∧ j' = a) then Some v else cell arr i' j'.
Proof.
  intros Hwf Hr.
  destruct (nd_setitem_spec n m arr s a v Hwf Hr) as (arr' & Hset & Hwf' & Hcell).
  exists arr'. split; [|done]. unfold GridWorldMDP.heap_setitem.
  erewrite heap_update_eq; [|apply lookup_insert_eq|exact Hset].
  by rewrite insert_insert_eq.
Qed.

Section Loop.
Variables (rows cols : Z) (dd : bool) (rd : gmap (Z * Z) float) (dr : float).
Variables (rw : loc) (h0 : heap).
Hypothesis Hrows : 0 < rows.
Hypothesis Hcols : 0 < cols.

Local Abbreviation n := (Z.to_nat (rows * cols)).
Local Abbreviation Inv := (loop_inv rows cols dd rd dr rw h0).

Lemma loop_body_invariant vis (p : Z * Z) tb h :
  in_range n 9 p.1 p.2 → Inv vis tb h →
  ∃ tb' h', GridWorldMDP.loop_body rows cols dd rd rw p.1 p.2 tb h = Ok (tb', h') ∧
            Inv (vis ++ [p]) tb' h'.
Proof.
  destruct p as [s a]. simpl.
  intros [Hs Ha] (Hvis & Hnb & Hrnb & Htc & Htcl & (arr & -> & Hwf & Harr)
                  & Htcv & Hnbv & Hrnbv).
  assert (0 ≤ s < rows * cols) as Hs' by lia.
  assert (0 ≤ a < GridWorldMDP.len_Actions) as Ha' by (vm_compute in Ha |- *; done).
  destruct (_transition_helper_total rows cols dd s a Hcols Hs' Ha')
    as (s' & ill & Hh & Hs'r).
  assert (step_of rows cols dd s a = (s', ill)) as Hstep
    by (unfold step_of; by rewrite Hh).
  unfold GridWorldMDP.loop_body.
  rewrite (lift_eq _ _ _ _ Hh).
  destruct (nd_setitem_spec n 9 (GridWorldMDP.t_transition_cached tb) s a s')
    as (tc' & Hset & Htc' & Htcc); [done|split; lia|].
  rewrite (lift_eq _ _ _ _ Hset).
  destruct (list_setitem_spec (GridWorldMDP.t_transition_cached_l tb)
              (a + s * GridWorldMDP.len_Actions) s')
    as (tcl' & Hsetl & Htcl').
  { rewrite Htcl. change GridWorldMDP.len_Actions with 9 in *. nia. }
  rewrite (lift_eq _ _ _ _ Hsetl).
  rewrite (lift_eq _ _ _ _ (state_to_coor_Ok rows cols s' (proj2 Hs'r))).
  assert (∀ q, q ∈ vis ++ [(s, a)] → in_range n 9 q.1 q.2) as Hvis'.
  { intros q [Hq|Hq%list_elem_of_singleton]%elem_of_app; [by apply Hvis|].
    subst q. simpl. split; lia. }
  assert (∀ s0 a0, (s0, a0) ∈ vis ++ [(s, a)] →
            cell tc' s0 a0 = Some (step_of rows cols dd s0 a0).1) as Htcv'.
  { intros s0 a0 Hin. pose proof (Hvis' _ Hin) as [H1 H2]. simpl in *.
    rewrite Htcc by lia. case_decide as Heq.
    - destruct Heq as [-> ->]. by rewrite Hstep.
    - apply elem_of_app in Hin as [Hin|Hin%list_elem_of_singleton].
      + by apply Htcv.
      + simplify_eq. by destruct Heq. }
  destruct ill; simpl.
  - (* illegal move *)
    destruct (heap_setitem_spec rw h0 n 9 arr s a neg_infinity Hwf)
      as (arr' & Hw & Hwf' & Hcell'); [split; lia|].
    rewrite (bind_eq _ _ _ _ _ Hw).
    eexists _, _. split; [done|].
    split; [done|]. simpl. do 3 (split; [done|]). split; [congruence|].
    split; [|split; [done|split]].
    + exists arr'. split; [done|]. split; [done|].
      intros s0 a0 [H1 H2]. rewrite Hcell' by lia.
      case_decide as Heq.
      * destruct Heq as [-> ->]. rewrite decide_True by (apply elem_of_snoc; eauto).
        by rewrite Hstep.
      * rewrite Harr by (split; lia). f_equal.
        destruct (decide ((s0, a0) ∈ vis)) as [Hin|Hin].
        -- rewrite decide_True by (apply elem_of_snoc; eauto). done.
        -- rewrite decide_False; [done|].
           intros [?|?%list_elem_of_singleton]%elem_of_app; [done|].
           simplify_eq. by destruct Heq.
    + intros s0 x Hs0. rewrite Hnbv by done. split.
      * intros (a0 & Hin & Hl & ->). exists a0. split; [apply elem_of_snoc; eauto|done].
      * intros (a0 & [Hin|Hin%list_elem_of_singleton]%elem_of_app & Hl & ->).
        -- by exists a0.
        -- simplify_eq. rewrite Hstep in Hl. done.
    + intros s0 x Hs0. rewrite Hrnbv by done. split.
      * intros (s1 & a0 & Hin & Hl & Heq & ->). exists s1, a0.
        split; [apply elem_of_snoc; eauto|done].
      * intros (s1 & a0 & [Hin|Hin%list_elem_of_singleton]%elem_of_app
                & Hl & Heq & ->).
        -- by exists s1, a0.
        -- simplify_eq. rewrite Hstep in Hl. done.
  - (* legal move *)
    assert (∃ arr', (match rd !! (s' `div` cols, s' `mod` cols) with
                     | Some v => GridWorldMDP.heap_setitem rw s a v
                     | None => ret tt
                     end) (<[rw := arr]> h0) = Ok (tt, <[rw := arr']> h0) ∧
              nd_wf n 9 arr' ∧
              ∀ i' j', 0 ≤ i' → 0 ≤ j' →
                cell arr' i' j' =
                  if decide (i' = s ∧ j' = a)
                  then Some (default dr (rd !! (s' `div` cols, s' `mod` cols)))
                  else cell arr i' j') as (arr' & Hw & Hwf' & Hcell').
    { destruct (rd !! (s' `div` cols, s' `mod` cols)) as [v|] eqn:Hrd.
      - apply (heap_setitem_spec rw h0 n 9 arr s a v Hwf). split; lia.
      - exists arr. split; [done|]. split; [done|].
        intros i' j' Hi' Hj'. case_decide as Heq; [|done].
        destruct Heq as [-> ->]. rewrite Harr by (split; lia).
        simpl. f_equal. case_decide as Hin; [|done].
        rewrite Hstep. unfold reward_of. simpl. by rewrite Hrd. }
    rewrite (bind_eq _ _ _ _ _ Hw).
    destruct (list_append_at_spec (GridWorldMDP.t_neighbors tb) s (a, s'))
      as (nb' & Hnb' & Hnbl & Hnbr); [rewrite Hnb; lia|].
    rewrite (lift_eq _ _ _ _ Hnb').
    destruct (list_append_at_spec (GridWorldMDP.t_reverse_neighbors tb) s' (a, s))
      as (rnb' & Hrnb' & Hrnbl & Hrnbr); [rewrite Hrnb; lia|].
    rewrite (lift_eq _ _ _ _ Hrnb').
    eexists _, _. split; [done|].
    split; [done|]. simpl.
    split; [congruence|]. split; [congruence|]. split; [done|].
    split; [congruence|].
    split; [|split; [done|split]].
    + exists arr'. split; [done|]. split; [done|].
      intros s0 a0 [H1 H2]. rewrite Hcell' by lia.
      case_decide as Heq.
      * destruct Heq as [-> ->]. rewrite decide_True by (apply elem_of_snoc; eauto).
        by rewrite Hstep.
      * rewrite Harr by (split; lia). f_equal.
        destruct (decide ((s0, a0) ∈ vis)) as [Hin|Hin].
        -- rewrite decide_True by (apply elem_of_snoc; eauto). done.
        -- rewrite decide_False; [done|].
           intros [?|?%list_elem_of_singleton]%elem_of_app; [done|].
           simplify_eq. by destruct Heq.
    + intros s0 x Hs0. rewrite Hnbr by done. case_decide as Heq.
      * subst s0. rewrite elem_of_app, list_elem_of_singleton, Hnbv by done.
        split.
        -- intros [(a0 & Hin & Hl & ->)| ->].
           ++ exists a0. split; [apply elem_of_snoc; eauto|done].
           ++ exists a. rewrite Hstep. split; [apply elem_of_snoc; eauto|done].
        -- intros (a0 & [Hin|Hin%list_elem_of_singleton]%elem_of_app & Hl & ->).
           ++ left. by exists a0.
           ++ right. simplify_eq. by rewrite Hstep.
      * rewrite Hnbv by done. split.
        -- intros (a0 & Hin & Hl & ->). exists a0. split; [apply elem_of_snoc; eauto|done].
        -- intros (a0 & [Hin|Hin%list_elem_of_singleton]%elem_of_app & Hl & ->).
           ++ by exists a0.
           ++ simplify_eq.
    + intros s0 x Hs0. rewrite Hrnbr by done. case_decide as Heq.
      * subst s0. rewrite elem_of_app, list_elem_of_singleton, Hrnbv by done.
        split.
        -- intros [(s1 & a0 & Hin & Hl & Heq & ->)| ->].
           ++ exists s1, a0. split; [apply elem_of_snoc; eauto|done].
           ++ exists s, a. rewrite Hstep. split; [apply elem_of_snoc; eauto|done].
        -- intros (s1 & a0 & [Hin|Hin%list_elem_of_singleton]%elem_of_app
                   & Hl & Heq & ->).
           ++ left. by exists s1, a0.
           ++ right. by simplify_eq.
      * rewrite Hrnbv by done. split.
        -- intros (s1 & a0 & Hin & Hl & Heq' & ->). exists s1, a0.
           split; [apply elem_of_snoc; eauto|done].
        -- intros (s1 & a0 & [Hin|Hin%list_elem_of_singleton]%elem_of_app
                   & Hl & Heq' & ->).
           ++ by exists s1, a0.
           ++ simplify_eq. rewrite Hstep in Heq. done.
Qed.
End Loop.

Lemma elem_of_index_pairs (n m s a : Z) :
  (s, a) ∈ index_pairs (xrange n) (xrange m) ↔ 0 ≤ s < n ∧ 0 ≤ a < m.
Proof.
  unfold index_pairs, xrange. rewrite list_elem_of_bind. split.
  - intros (s0 & Hin & Hs0). apply list_elem_of_fmap in Hin as (a0 & [= -> ->] & Ha0).
    rewrite !elem_of_seqZ in *. lia.
  - intros [Hs Ha]. exists s. rewrite list_elem_of_fmap, !elem_of_seqZ.
    split; [|lia]. exists a. split; [done|]. rewrite elem_of_seqZ. lia.
Qed.

Lemma loops_spec (rows cols : Z) (dd : bool) (rd : gmap (Z * Z) float) (dr : float)
    (rw : loc) (h0 h : heap) (tb : GridWorldMDP.tables) :
  0 < rows → 0 < cols →
  loop_inv rows cols dd rd dr rw h0 [] tb h →
  ∃ tb' h',
    GridWorldMDP.loops rows cols dd rd rw (rows * cols) GridWorldMDP.len_Actions tb h
      = Ok (tb', h') ∧
    loop_inv rows cols dd rd dr rw h0
      (index_pairs (xrange (rows * cols)) (xrange GridWorldMDP.len_Actions)) tb' h'.
Proof.
  intros Hrows Hcols HI. unfold GridWorldMDP.loops.
  rewrite (foldM_nested (λ s a tb, GridWorldMDP.loop_body rows cols dd rd rw s a tb)).
  apply (foldM_invariant
           (λ tb p, GridWorldMDP.loop_body rows cols dd rd rw p.1 p.2 tb)
           (λ p, in_range (Z.to_nat (rows * cols)) 9 p.1 p.2)
           (loop_inv rows cols dd rd dr rw h0)
           (λ vis p tb h, loop_body_invariant rows cols dd rd dr rw h0 Hrows Hcols vis p tb h)
           _ [] tb h); [|done].
  apply Forall_forall. intros [s a] Hin%elem_of_index_pairs. simpl.
  change GridWorldMDP.len_Actions with 9 in Hin. split; lia.
Qed.

Lemma init_tables_spec (rows cols : Z) (rd : gmap (Z * Z) float) (dr : float)
    (dd : bool) (h : heap) :
  0 < rows → 0 < cols →
  ∃ tb h',
    GridWorldMDP.init_tables rows cols rd dr dd h = Ok ((fresh (dom h), tb), h') ∧
    loop_inv rows cols dd rd dr (fresh (dom h)) h
      (index_pairs (xrange (rows * cols)) (xrange GridWorldMDP.len_Actions)) tb h'.
Proof.
  intros Hrows Hcols. unfold GridWorldMDP.init_tables.
  rewrite !bool_decide_eq_true_2 by lia. simpl. rewrite !bind_lift_Ok.
  assert (0 ≤ rows * cols) as HS by nia.
  assert (0 ≤ GridWorldMDP.len_Actions) as HA by done.
  destruct (np_full_spec (rows * cols) GridWorldMDP.len_Actions 0%float HS HA)
    as (zeros & Hz & Hzwf & _).
  destruct (np_full_spec (rows * cols) GridWorldMDP.len_Actions 0 HS HA)
    as (tc & Htc & Htcwf & _).
  change (Z.to_nat GridWorldMDP.len_Actions) with 9%nat in *.
  rewrite (lift_eq _ _ _ _ Hz).
  set (rw := fresh (dom h)).
  assert (heap_alloc zeros h = Ok (rw, <[rw := zeros]> h)) as Halloc by done.
  rewrite (bind_eq _ _ _ _ _ Halloc).
  rewrite (bind_eq (heap_update rw _) _ _ _ _
             (heap_update_eq rw _ _ zeros (nd_fill zeros dr)
                (lookup_insert_eq _ _ _) eq_refl)).
  rewrite insert_insert_eq. rewrite (lift_eq _ _ _ _ Htc).
  destruct (nd_fill_spec _ _ zeros dr Hzwf) as [Hfwf Hfill].
  edestruct (loops_spec rows cols dd rd dr rw h) as (tb' & h' & Hl & HI);
    [done|done| |].
  2: { rewrite (bind_eq _ _ _ _ _ Hl). eexists _, _. split; [done|]. exact HI. }
  split; [by intros p ?%elem_of_nil|]. simpl.
  rewrite !length_replicate. do 3 (split; [done|]). split; [done|].
  split; [|split; [by intros s a ?%elem_of_nil|split]].
  - eexists. split; [done|]. split; [done|]. intros s a Hr.
    by apply Hfill.
  - intros s x Hs. unfold row. simpl. split.
    + destruct (replicate _ _ !! _) as [l|] eqn:Hl;
        [apply lookup_replicate in Hl as [-> _]|]; by intros ?%elem_of_nil.
    + by intros (a & ?%elem_of_nil & _).
  - intros s x Hs. unfold row. simpl. split.
    + destruct (replicate _ _ !! _) as [l|] eqn:Hl;
        [apply lookup_replicate in Hl as [-> _]|]; by intros ?%elem_of_nil.
    + by intros (s0 & a & ?%elem_of_nil & _).
Qed.

(** ** Scaling of the diagonal columns *)

Lemma foldM_invariant_NoDup {A B} (f : B → A → M B) (P : A → Prop)
    (Inv : list A → B → heap → Prop) :
  (∀ vis x b h, P x → x ∉ vis → Inv vis b h →
     ∃ b' h', f b x h = Ok (b', h') ∧ Inv (vis ++ [x]) b' h') →
  ∀ l vis b h, Forall P l → NoDup (vis ++ l) → Inv vis b h →
     ∃ b' h', foldM f b l h = Ok (b', h') ∧ Inv (vis ++ l) b' h'.
Proof.
  intros Hstep l. induction l as [|x l IH]; intros vis b h HP Hnd HI; simpl.
  - exists b, h. rewrite app_nil_r. done.
  - inversion HP as [|? ? Hx Hl]; subst.
    assert (x ∉ vis) as Hnin.
    { apply NoDup_app in Hnd as (_ & Hd & _). intros Hin.
      apply (Hd x Hin). by left. }
    destruct (Hstep vis x b h Hx Hnin HI) as (b1 & h1 & Hf & HI1).
    assert (NoDup ((vis ++ [x]) ++ l)) as Hnd' by (by rewrite <- app_assoc).
    destruct (IH _ _ _ Hl Hnd' HI1) as (b' & h' & Hfold & HI').
    exists b', h'. rewrite (bind_eq _ _ _ _ _ Hf).
    split; [done|]. by rewrite <- app_assoc in HI'.
Qed.

Lemma elem_of_diagonal_actions (a : Z) :
  a ∈ GridWorldMDP.diagonal_actions ↔ a = 4 ∨ a = 5 ∨ a = 6 ∨ a = 7.
Proof.
  unfold GridWorldMDP.diagonal_actions. simpl.
  rewrite !elem_of_union, !elem_of_singleton. tauto.
Qed.

Lemma scale_diagonals_spec (eu : bool) (rw : loc) (h0 : heap) (n : nat)
    (arr : ndarray float) :
  nd_wf n 9 arr →
  ∃ arr', GridWorldMDP.scale_diagonals eu rw (<[rw := arr]> h0)
            = Ok (tt, <[rw := arr']> h0) ∧
    nd_wf n 9 arr' ∧
    ∀ s a, 0 ≤ a →
      cell arr' s a =
        if eu && bool_decide (a ∈ GridWorldMDP.diagonal_actions)
        then scaled <$> cell arr s a else cell arr s a.
Proof.
  intros Hwf. unfold GridWorldMDP.scale_diagonals. destruct eu; simpl.
  2: { exists arr. done. }
  pose (Inv := λ (vis : list Z) (_ : unit) (h : heap),
          ∃ arr', h = <[rw := arr']> h0 ∧ nd_wf n 9 arr' ∧
            ∀ s a, 0 ≤ a →
              cell arr' s a =
                if decide (a ∈ vis) then scaled <$> cell arr s a else cell arr s a).
  destruct (foldM_invariant_NoDup
              (λ (_ : unit) a, heap_update rw
                 (λ arr, nd_col_map (λ x, PrimFloat.mul x GridWorldMDP.sqrt2) arr a))
              (λ a, 0 ≤ a < 9) Inv) with
    (l := elements GridWorldMDP.diagonal_actions) (vis := @nil Z) (b := tt)
    (h := <[rw := arr]> h0) as ([] & h' & Hf & (arr' & -> & Hwf' & Hc)).
  - intros vis a [] h Ha Hnin (arr1 & -> & Hwf1 & Hc1).
    destruct (nd_col_map_spec n 9 scaled arr1 a Hwf1) as (arr2 & Hm & Hwf2 & Hc2);
      [lia|].
    exists tt, (<[rw := arr2]> h0). split.
    + erewrite heap_update_eq; [|apply lookup_insert_eq|exact Hm].
      by rewrite insert_insert_eq.
    + exists arr2. split; [done|]. split; [done|]. intros s a' Ha'.
      rewrite Hc2 by done. rewrite Hc1 by done.
      destruct (decide (a' = a)) as [->|Hne].
      * rewrite decide_False by done. rewrite decide_True by (apply elem_of_snoc; eauto). done.
      * destruct (decide (a' ∈ vis)).
        -- rewrite decide_True by (apply elem_of_snoc; eauto). done.
        -- rewrite decide_False by (intros [?|?]%elem_of_snoc; done). done.
  - apply Forall_forall. intros a Ha%elem_of_elements%elem_of_diagonal_actions. lia.
  - simpl. apply NoDup_elements.
  - exists arr. split; [done|]. split; [done|]. intros s a Ha.
    rewrite decide_False by apply not_elem_of_nil. done.
  - exists arr'. split; [done|]. split; [done|]. intros s a Ha.
    rewrite Hc by done. simpl.
    destruct (decide (a ∈ GridWorldMDP.diagonal_actions)) as [Hin|Hin].
    + rewrite bool_decide_eq_true_2 by done. rewrite decide_True; [done|].
      by apply elem_of_elements.
    + rewrite bool_decide_eq_false_2 by done. rewrite decide_False; [done|].
      by rewrite elem_of_elements.
Qed.

(** ** The base class constructor *)

Lemma MDP_init_Ok (n m : nat) (rw : loc) (f : Z → Z → result Z) (h : heap)
    (arr : ndarray float) :
  h !! rw = Some arr → shape arr = (n, m) →
  MDP.__init__ (PyInt (Z.of_nat n)) (PyInt (Z.of_nat m)) rw (PyFunction f) h =
    Ok (MDP.mk (PyInt (Z.of_nat n)) (PyInt (Z.of_nat m)) rw (PyFunction f), h).
Proof.
  intros Hh Hs. unfold MDP.__init__. simpl. rewrite !bind_lift_Ok.
  unfold heap_read, bind at 1. rewrite Hh. unfold shape_eq. rewrite Hs. simpl.
  rewrite bool_decide_eq_true_2 by done. done.
Qed.

(** ** The per-cell reward vector *)

Lemma state_rewards_Ok (rows cols : Z) (l : list (Z * Z * float)) (sr : list float) :
  Forall (λ kv, 0 ≤ kv.1.1 < rows ∧ 0 ≤ kv.1.2 < cols) l →
  length sr = Z.to_nat (rows * cols) →
  ∃ sr',
    foldR (λ sr '((r, c), reward),
             let? k := GridWorldMDP.coor_to_state rows cols r c in
             list_setitem sr k reward) sr l = Ok sr' ∧
    length sr' = Z.to_nat (rows * cols).
Proof.
  intros Hl. revert sr. induction Hl as [|[[r c] v] l [Hr Hc] Hl IH]; intros sr Hsr.
  - by exists sr.
  - simpl in *. rewrite coor_to_state_Ok by done. simpl.
    destruct (list_setitem_spec sr (r * cols + c) v) as (sr1 & Hset & Hlen).
    { rewrite Hsr. pose proof (encode_bounds rows cols r c Hr Hc). lia. }
    rewrite Hset. simpl. apply IH. congruence.
Qed.

Lemma state_rewards_Ok_inv (rows cols : Z) (l : list (Z * Z * float))
    (sr sr' : list float) :
  foldR (λ sr '((r, c), reward),
           let? k := GridWorldMDP.coor_to_state rows cols r c in
           list_setitem sr k reward) sr l = Ok sr' →
  Forall (λ kv, 0 ≤ kv.1.1 < rows ∧ 0 ≤ kv.1.2 < cols) l.
Proof.
  revert sr. induction l as [|[[r c] v] l IH]; intros sr; simpl; [by constructor|].
  intros (sr1 & (k & Hk & _)%bindR_Ok & Hl)%bindR_Ok.
  constructor; [|by apply (IH sr1)]. simpl.
  destruct (decide (0 ≤ r < rows ∧ 0 ≤ c < cols)) as [|Hn]; [done|].
  apply coor_to_state_raises_iff in Hn as [e He]. congruence.
Qed.

(** ** Goal reconfiguration *)

Lemma wrap_nonneg (n i : Z) : 0 ≤ i → wrap n i = i.
Proof. intros Hi. unfold wrap. by rewrite bool_decide_eq_false_2 by lia. Qed.

Lemma nd_setitem_wrap {T} (n m : nat) (arr : ndarray T) (i j : Z) (x : T) :
  shape arr = (n, m) → - Z.of_nat n ≤ i < Z.of_nat n →
  nd_setitem arr i j x = nd_setitem arr (wrap (Z.of_nat n) i) j x ∧
  0 ≤ wrap (Z.of_nat n) i < Z.of_nat n.
Proof.
  intros Hs Hi. unfold wrap, nd_setitem. rewrite Hs. simpl.
  destruct (decide (i < 0)) as [Hneg|Hpos].
  - rewrite (bool_decide_eq_true_2 _ Hneg).
    rewrite (py_index_negative n i), (py_index_nonneg n (i + Z.of_nat n)) by lia.
    split; [done|lia].
  - rewrite (bool_decide_eq_false_2 _ Hpos). split; [done|lia].
Qed.

(** [set_goal] refills the ABSORB column and then, for a goal [g0], runs
    the assignment [rewards[g0, ABSORB] = 0] on the refilled matrix. *)
Lemma set_goal_unfold (self : GridWorldMDP.t) (g : option Z) (h : heap) (n : nat)
    (arr : ndarray float) :
  h !! GridWorldMDP.rewards self = Some arr → nd_wf n 9 arr →
  ∃ arr1,
    nd_wf n 9 arr1 ∧
    (∀ s a, in_range n 9 s a →
       cell arr1 s a =
         if decide (a = 8)
         then Some (if GridWorldMDP.allow_wait self
                    then GridWorldMDP.default_reward self else neg_infinity)
         else cell arr s a) ∧
    GridWorldMDP.set_goal self g h =
      match g with
      | Some g0 =>
          match nd_setitem arr1 g0 8 0%float with
          | Ok arr2 => Ok (GridWorldMDP.with_goal self g,
                           <[GridWorldMDP.rewards self := arr2]> h)
          | Raise e => Raise e
          end
      | None => Ok (GridWorldMDP.with_goal self g,
                    <[GridWorldMDP.rewards self := arr1]> h)
      end.
Proof.
  intros Hh Hwf. unfold GridWorldMDP.set_goal. simpl.
  set (v := if GridWorldMDP.allow_wait self
            then GridWorldMDP.default_reward self else neg_infinity).
  destruct (nd_col_map_spec n 9 (λ _, v) arr 8 Hwf) as (arr1 & Hm & Hwf1 & Hc1);
    [lia|].
  assert ((if GridWorldMDP.allow_wait self
           then heap_update (GridWorldMDP.rewards self)
                  (λ arr, nd_col_map (λ _, GridWorldMDP.default_reward self) arr
                            (GridWorldMDP.value GridWorldMDP.ABSORB))
           else heap_update (GridWorldMDP.rewards self)
                  (λ arr, nd_col_map (λ _, neg_infinity) arr
                            (GridWorldMDP.value GridWorldMDP.ABSORB))) h
          = Ok (tt, <[GridWorldMDP.rewards self := arr1]> h)) as Hfill.
  { subst v. destruct (GridWorldMDP.allow_wait self);
      by apply (heap_update_eq _ _ _ arr). }
  rewrite (bind_eq _ _ _ _ _ Hfill).
  exists arr1. split; [done|]. split.
  { intros s a Hr. rewrite Hc1 by (destruct Hr; lia). case_decide; [|done].
    subst a. destruct (cell_is_Some n 9 arr s 8 Hwf Hr) as [x ->]. done. }
  destruct g as [g0|]; [|done].
  unfold GridWorldMDP.heap_setitem, heap_update, heap_read, bind, lift, ret.
  rewrite lookup_insert_eq. simpl.
  destruct (nd_setitem arr1 g0 8 0%float); [|done].
  by rewrite insert_insert_eq.
Qed.

Lemma set_goal_spec (self : GridWorldMDP.t) (g : option Z) (h : heap) (n : nat)
    (arr : ndarray float) :
  h !! GridWorldMDP.rewards self = Some arr → nd_wf n 9 arr →
  match g with Some g => - Z.of_nat n ≤ g < Z.of_nat n | None => True end →
  ∃ arr',
    GridWorldMDP.set_goal self g h =
      Ok (GridWorldMDP.with_goal self g, <[GridWorldMDP.rewards self := arr']> h) ∧
    nd_wf n 9 arr' ∧
    ∀ s a, in_range n 9 s a →
      cell arr' s a =
        if decide (a = 8)
        then Some (absorb_reward (GridWorldMDP.allow_wait self)
                                 (GridWorldMDP.default_reward self)
                                 (wrap (Z.of_nat n) <$> g) s)
        else cell arr s a.
Proof.
  intros Hh Hwf Hg.
  destruct (set_goal_unfold self g h n arr Hh Hwf) as (arr1 & Hwf1 & Hc1 & ->).
  destruct g as [g0|].
  - destruct (nd_setitem_wrap n 9 arr1 g0 8 0%float (proj1 Hwf1) Hg) as [Hwrap Hg'].
    set (g := wrap (Z.of_nat n) g0) in *.
    destruct (nd_setitem_spec n 9 arr1 g 8 0%float Hwf1) as (arr2 & Hs & Hwf2 & Hc2);
      [split; lia|].
    rewrite <- Hwrap in Hs. rewrite Hs.
    exists arr2. split; [done|]. split; [done|].
    intros s a Hr. pose proof Hr as [Hs0 Ha0].
    rewrite Hc2, Hc1 by (done || lia). unfold absorb_reward. simpl. fold g.
    destruct (decide (a = 8)) as [->|Hne].
    + destruct (decide (s = g)) as [->|Hne].
      * rewrite decide_True by done. case_decide; done.
      * rewrite decide_False by (intros [? ?]; done).
        case_decide; [congruence|done].
    + rewrite decide_False by (intros [? ?]; done). done.
  - exists arr1. split; [done|]. split; [done|]. intros s a Hr.
    rewrite Hc1 by done. unfold absorb_reward. repeat case_decide; done.
Qed.

(** [set_goal] returns only for [None] or a goal that indexes a state. *)
Lemma set_goal_Ok_inv (self self' : GridWorldMDP.t) (g : option Z) (h h' : heap)
    (n : nat) (arr : ndarray float) :
  h !! GridWorldMDP.rewards self = Some arr → nd_wf n 9 arr →
  GridWorldMDP.set_goal self g h = Ok (self', h') →
  match g with Some g => - Z.of_nat n ≤ g < Z.of_nat n | None => True end.
Proof.
  intros Hh Hwf.
  destruct (set_goal_unfold self g h n arr Hh Hwf) as (arr1 & Hwf1 & _ & ->).
  destruct g as [g0|]; [|done].
  destruct (nd_setitem arr1 g0 8 0%float) as [arr2|e] eqn:Hs; [|done].
  intros _. unfold nd_setitem in Hs. rewrite (proj1 Hwf1) in Hs. simpl in Hs.
  apply bindR_Ok in Hs as (k & Hk%py_index_Ok & _). lia.
Qed.

Lemma set_all_goals_spec (self : GridWorldMDP.t) (h : heap) (n : nat)
    (arr : ndarray float) :
  h !! GridWorldMDP.rewards self = Some arr → nd_wf n 9 arr →
  ∃ arr',
    GridWorldMDP.set_all_goals self h =
      Ok (tt, <[GridWorldMDP.rewards self := arr']> h) ∧
    nd_wf n 9 arr' ∧
    ∀ s a, in_range n 9 s a →
      cell arr' s a = if decide (a = 8) then Some 0%float else cell arr s a.
Proof.
  intros Hh Hwf. unfold GridWorldMDP.set_all_goals.
  destruct (nd_col_map_spec n 9 (λ _, 0%float) arr 8 Hwf) as (arr1 & Hm & Hwf1 & Hc1);
    [lia|].
  exists arr1. split; [by apply (heap_update_eq _ _ _ arr)|]. split; [done|].
  intros s a Hr. rewrite Hc1 by (destruct Hr; lia). case_decide; [|done].
  subst a. destruct (cell_is_Some n 9 arr s 8 Hwf Hr) as [x ->]. done.
Qed.

(** ** The constructor, stage by stage *)

(** Up to the final [set_goal], [__init__] does not depend on the goal:
    it builds the tables, scales, calls the base constructor and fills the
    per-cell vector; none of these steps raises when the dimensions are
    positive and the override keys are in the grid. *)
Lemma init_before_goal (rows cols : Z) (rd : gmap (Z * Z) float)
    (dr : float) (eu aw dd : bool) (h : heap) :
  0 < rows → 0 < cols → keys_in_grid rows cols rd →
  let n := Z.to_nat (rows * cols) in
  let rw := fresh (dom h) in
  ∃ tb pre post self0,
    GridWorldMDP.init_tables rows cols rd dr dd h = Ok ((rw, tb), <[rw := pre]> h) ∧
    GridWorldMDP.scale_diagonals eu rw (<[rw := pre]> h) = Ok (tt, <[rw := post]> h) ∧
    (∀ goal, GridWorldMDP.__init__ rows cols rd goal dr eu aw dd h
             = GridWorldMDP.set_goal self0 goal (<[rw := post]> h)) ∧
    nd_wf n 9 pre ∧ nd_wf n 9 post ∧
    (∀ s a, in_range n 9 s a →
       cell pre s a = Some (loop_reward rows cols dd rd dr s a) ∧
       cell post s a = Some (scaled_reward rows cols dd rd dr eu s a)) ∧
    GridWorldMDP.rewards self0 = rw ∧
    GridWorldMDP.rows self0 = rows ∧ GridWorldMDP.cols self0 = cols ∧
    GridWorldMDP.default_reward self0 = dr ∧ GridWorldMDP.allow_wait self0 = aw ∧
    GridWorldMDP.disallow_diag self0 = dd ∧
    GridWorldMDP.S self0 = PyInt (rows * cols) ∧
    GridWorldMDP.A self0 = PyInt GridWorldMDP.len_Actions ∧
    tables_ok rows cols dd self0.
Proof.
  intros Hrows Hcols Hkeys n rw.
  destruct (init_tables_spec rows cols rd dr dd h Hrows Hcols)
    as (tb & h1 & Hinit & HI).
  destruct HI as (_ & Hnb & Hrnb & Htc & _ & (pre & -> & Hpre & Hprec)
                  & Htcv & Hnbv & Hrnbv).
  fold n rw in Hinit, Hnb, Hrnb, Htc, Hpre, Hprec.
  destruct (scale_diagonals_spec eu rw h n pre Hpre) as (post & Hscale & Hpost & Hpostc).
  assert (Z.of_nat n = rows * cols) as Hn by (subst n; nia).
  pose (self0 := GridWorldMDP.mk (PyInt (rows * cols)) (PyInt GridWorldMDP.len_Actions)
          rw (PyFunction (λ s a, nd_getitem (GridWorldMDP.t_transition_cached tb) s a))
          rows cols dr (GridWorldMDP.t_neighbors tb)
          (GridWorldMDP.t_reverse_neighbors tb) (GridWorldMDP.t_transition_cached tb)
          (replicate (Z.to_nat (rows * cols * GridWorldMDP.len_Actions)) 0)
          (GridWorldMDP.t_transition_cached_l tb)
          (GridWorldMDP.t_transition_cached_l tb) aw dd).
  destruct (state_rewards_Ok rows cols (map_to_list rd)
              (replicate (Z.to_nat (rows * cols)) dr)) as (sr & Hsr & Hsrl).
  { apply map_Forall_to_list in Hkeys. eapply Forall_impl; [exact Hkeys|].
    intros [[r c] v]. done. }
  { apply length_replicate. }
  exists tb, pre, post, (self0 sr None).
  split; [done|]. split; [done|]. split.
  { intros goal. unfold GridWorldMDP.__init__.
    rewrite (bind_eq _ _ _ _ _ Hinit). rewrite (bind_eq _ _ _ _ _ Hscale).
    pose proof (MDP_init_Ok n 9 rw
                  (λ s a, nd_getitem (GridWorldMDP.t_transition_cached tb) s a)
                  (<[rw := post]> h) post (lookup_insert_eq _ _ _) (proj1 Hpost))
      as Hbase.
    rewrite Hn in Hbase. change (Z.of_nat 9) with GridWorldMDP.len_Actions in Hbase.
    rewrite (bind_eq _ _ _ _ _ Hbase). rewrite (lift_eq _ _ _ _ Hsr). done. }
  do 2 (split; [done|]). split.
  { intros s a Hr. pose proof Hr as [Hs Ha].
    assert (cell pre s a = Some (loop_reward rows cols dd rd dr s a)) as Hp.
    { rewrite Hprec by done. rewrite decide_True; [done|].
      apply elem_of_index_pairs. change GridWorldMDP.len_Actions with 9. lia. }
    split; [done|].
    rewrite Hpostc by lia. rewrite Hp. unfold scaled_reward.
    by destruct (eu && _). }
  do 8 (split; [done|]).
  split; [done|]. split; [done|]. split; [done|]. split; [done|]. simpl.
  split; [|split].
  - intros s a Hr. apply Htcv. apply elem_of_index_pairs.
    destruct Hr. change GridWorldMDP.len_Actions with 9. lia.
  - intros s x Hs. rewrite Hnbv by done. split.
    + intros (a & Hin%elem_of_index_pairs & Hl & ->). exists a. split; [|done].
      change GridWorldMDP.len_Actions with 9 in Hin. split; lia.
    + intros (a & [H1 H2] & Hl & ->). exists a. split; [|done].
      apply elem_of_index_pairs. change GridWorldMDP.len_Actions with 9. lia.
  - intros s' x Hs. rewrite Hrnbv by done. split.
    + intros (s & a & Hin%elem_of_index_pairs & Hl). exists s, a. split; [|done].
      change GridWorldMDP.len_Actions with 9 in Hin. split; lia.
    + intros (s & a & [H1 H2] & Hl). exists s, a. split; [|done].
      apply elem_of_index_pairs. change GridWorldMDP.len_Actions with 9. lia.
Qed.

Lemma init_stages (rows cols : Z) (rd : gmap (Z * Z) float) (goal : option Z)
    (dr : float) (eu aw dd : bool) (h : heap) :
  0 < rows → 0 < cols → keys_in_grid rows cols rd → goal_in_grid rows cols goal →
  let n := Z.to_nat (rows * cols) in
  let rw := fresh (dom h) in
  ∃ tb pre post final m,
    GridWorldMDP.init_tables rows cols rd dr dd h = Ok ((rw, tb), <[rw := pre]> h) ∧
    GridWorldMDP.scale_diagonals eu rw (<[rw := pre]> h) = Ok (tt, <[rw := post]> h) ∧
    GridWorldMDP.__init__ rows cols rd goal dr eu aw dd h
      = Ok (m, <[rw := final]> h) ∧
    nd_wf n 9 pre ∧ nd_wf n 9 post ∧ nd_wf n 9 final ∧
    (∀ s a, in_range n 9 s a →
       cell pre s a = Some (loop_reward rows cols dd rd dr s a) ∧
       cell post s a = Some (scaled_reward rows cols dd rd dr eu s a) ∧
       cell final s a = Some (final_reward rows cols dd rd dr eu aw goal s a)) ∧
    GridWorldMDP.rewards m = rw ∧
    GridWorldMDP.rows m = rows ∧ GridWorldMDP.cols m = cols ∧
    GridWorldMDP.default_reward m = dr ∧ GridWorldMDP.allow_wait m = aw ∧
    GridWorldMDP.disallow_diag m = dd ∧ GridWorldMDP.goal m = goal ∧
    GridWorldMDP.S m = PyInt (rows * cols) ∧
    GridWorldMDP.A m = PyInt GridWorldMDP.len_Actions ∧
    tables_ok rows cols dd m.
Proof.
  intros Hrows Hcols Hkeys Hgoal n rw.
  destruct (init_before_goal rows cols rd dr eu aw dd h Hrows Hcols Hkeys)
    as (tb & pre & post & self0 & Htab & Hscale & Hinit & Hpre & Hpost & Hcells
        & Hrw & Hr & Hc & Hdr & Haw & Hdd & HS & HA & Hok).
  fold n rw in Htab, Hscale, Hinit, Hpre, Hpost, Hcells, Hrw.
  assert (Z.of_nat n = rows * cols) as Hn by (subst n; nia).
  destruct (set_goal_spec self0 goal (<[rw := post]> h) n post)
    as (final & Hset & Hfinal & Hfinalc).
  { rewrite Hrw. apply lookup_insert_eq. }
  { done. }
  { destruct goal; [|done]. simpl in Hgoal. lia. }
  rewrite Hrw, insert_insert_eq in Hset.
  exists tb, pre, post, final, (GridWorldMDP.with_goal self0 goal).
  split; [done|]. split; [done|]. split; [by rewrite Hinit|].
  do 3 (split; [done|]). split.
  { intros s a Hra. destruct (Hcells s a Hra) as [Hp Hq].
    split; [done|]. split; [done|].
    rewrite Hfinalc by done. unfold final_reward, goal_index.
    rewrite Haw, Hdr, Hn. case_decide; [done|]. done. }
  do 9 (split; [done|]). exact Hok.
Qed.

(** ** From the tables to the statements *)

Lemma step_of_spec (rows cols : Z) (dd : bool) (s : Z) (a : GridWorldMDP.Actions) :
  0 < cols → 0 ≤ s < rows * cols →
  step_of rows cols dd s (GridWorldMDP.value a) =
    (if legal rows cols dd s a
     then (candidate cols s a).1 * cols + (candidate cols s a).2
     else s,
     negb (legal rows cols dd s a)).
Proof.
  intros Hc Hs. unfold step_of. by rewrite _transition_helper_spec.
Qed.

Lemma legal_candidate (rows cols : Z) (dd : bool) (s : Z) (a : GridWorldMDP.Actions) :
  legal rows cols dd s a = true →
  0 ≤ (candidate cols s a).1 < rows ∧ 0 ≤ (candidate cols s a).2 < cols.
Proof.
  unfold legal. intros [H%bool_decide_eq_true_1 _]%andb_true_iff. done.
Qed.

Lemma loop_reward_assigned (rows cols : Z) (dd : bool) (rd : gmap (Z * Z) float)
    (dr : float) (s : Z) (a : GridWorldMDP.Actions) :
  0 < cols → 0 ≤ s < rows * cols →
  loop_reward rows cols dd rd dr s (GridWorldMDP.value a)
    = assigned_reward rows cols dd rd dr s a.
Proof.
  intros Hc Hs. unfold loop_reward, assigned_reward, reward_of.
  rewrite step_of_spec by done.
  destruct (legal rows cols dd s a) eqn:Hl; [|done].
  destruct (legal_candidate _ _ _ _ _ Hl) as [_ Hcc].
  cbn [fst snd negb].
  destruct (div_mod_encode cols (candidate cols s a).1 (candidate cols s a).2 Hcc)
    as [-> ->].
  by destruct (candidate cols s a).
Qed.

Lemma reward_at_cell (h : heap) (l : loc) (n : nat) (arr : ndarray float)
    (s a : Z) (v : float) :
  h !! l = Some arr → nd_wf n 9 arr → in_range n 9 s a → cell arr s a = Some v →
  reward_at h l s a = Ok v.
Proof.
  intros Hh Hwf Hr Hc. unfold reward_at, heap_read. rewrite Hh.
  by apply (nd_getitem_Ok n 9).
Qed.

Lemma list_getitem_row {T} (l : list (list T)) (i : Z) :
  0 ≤ i < Z.of_nat (length l) → list_getitem l i = Ok (row l i).
Proof.
  intros Hi. unfold list_getitem, row. rewrite py_index_nonneg by done. simpl.
  destruct (lookup_lt_is_Some_2 l (Z.to_nat i)) as [r Hr]; [lia|]. by rewrite Hr.
Qed.

Lemma action_in_range (n : nat) (s : Z) (a : GridWorldMDP.Actions) :
  0 ≤ s < Z.of_nat n → in_range n 9 s (GridWorldMDP.value a).
Proof. intros Hs. split; [done|]. destruct a; simpl; lia. Qed.

Lemma value_diagonal (a : GridWorldMDP.Actions) :
  bool_decide (GridWorldMDP.value a ∈ GridWorldMDP.diagonal_actions) = is_diagonal a.
Proof. apply diagonal_actions_spec. Qed.

(** What a constructed engine answers for a state and an action of the
    grid, read off [tables_ok]. *)
Lemma tables_ok_transition (rows cols : Z) (dd : bool) (m : GridWorldMDP.t)
    (s : Z) (a : GridWorldMDP.Actions) :
  0 < cols → tables_ok rows cols dd m → 0 ≤ s < rows * cols →
  let s' := if legal rows cols dd s a
            then (candidate cols s a).1 * cols + (candidate cols s a).2 else s in
  GridWorldMDP._transition m s (GridWorldMDP.value a) = Ok s' ∧
  call (GridWorldMDP.transition m) s (GridWorldMDP.value a) = Ok s' ∧
  0 ≤ s' < rows * cols.
Proof.
  intros Hc (Htr & Hwf & _ & _ & Htc & _) Hs s'.
  assert (in_range (Z.to_nat (rows * cols)) 9 s (GridWorldMDP.value a)) as Hr
    by (apply action_in_range; lia).
  specialize (Htc _ _ Hr). rewrite step_of_spec in Htc by done. simpl in Htc.
  assert (GridWorldMDP._transition m s (GridWorldMDP.value a) = Ok s') as Ht.
  { unfold GridWorldMDP._transition.
    by apply (nd_getitem_Ok (Z.to_nat (rows * cols)) 9). }
  split; [done|]. split; [by rewrite Htr|].
  subst s'. destruct (legal rows cols dd s a) eqn:Hl; [|done].
  destruct (legal_candidate _ _ _ _ _ Hl). by apply encode_bounds.
Qed.

Lemma tables_ok_neighbors (rows cols : Z) (dd : bool) (m : GridWorldMDP.t)
    (s : Z) (a : GridWorldMDP.Actions) :
  0 < cols → tables_ok rows cols dd m → 0 ≤ s < rows * cols →
  let s' := if legal rows cols dd s a
            then (candidate cols s a).1 * cols + (candidate cols s a).2 else s in
  ∃ fwd rev,
    list_getitem (GridWorldMDP.neighbors m) s = Ok fwd ∧
    list_getitem (GridWorldMDP.reverse_neighbors m) s' = Ok rev ∧
    ((GridWorldMDP.value a, s') ∈ fwd ↔ legal rows cols dd s a = true) ∧
    ((GridWorldMDP.value a, s) ∈ rev ↔ legal rows cols dd s a = true).
Proof.
  intros Hc Hok Hs s'.
  destruct (tables_ok_transition rows cols dd m s a Hc Hok Hs) as (_ & _ & Hs').
  fold s' in Hs'.
  destruct Hok as (_ & _ & Hnbl & Hrnbl & _ & Hnb & Hrnb).
  exists (row (GridWorldMDP.neighbors m) s), (row (GridWorldMDP.reverse_neighbors m) s').
  split; [apply list_getitem_row; lia|]. split; [apply list_getitem_row; lia|].
  assert (step_of rows cols dd s (GridWorldMDP.value a)
          = (s', negb (legal rows cols dd s a))) as Hstep
    by (by apply step_of_spec).
  split.
  - rewrite Hnb by lia. split.
    + intros (a0 & [_ Ha0] & Hl & [= Ha Hs'']).
      destruct (value_surj a0) as [b ->]; [done|].
      apply value_inj in Ha as ->. rewrite Hstep in Hl. simpl in Hl.
      by destruct (legal rows cols dd s b).
    + intros Hl. exists (GridWorldMDP.value a).
      split; [apply action_in_range; lia|]. rewrite Hstep, Hl. done.
  - rewrite Hrnb by lia. split.
    + intros (s0 & a0 & [_ Ha0] & Hl & Heq & [= Ha Hs'']). subst s0.
      destruct (value_surj a0) as [b ->]; [done|].
      apply value_inj in Ha as ->. rewrite Hstep in Hl. simpl in Hl.
      by destruct (legal rows cols dd s b).
    + intros Hl. exists s, (GridWorldMDP.value a).
      split; [apply action_in_range; lia|]. rewrite Hstep, Hl. done.
Qed.

Lemma valid_args_spec (rows cols : Z) (rd : gmap (Z * Z) float) (goal : option Z) :
  valid_args rows cols rd goal = true →
  0 < rows ∧ 0 < cols ∧ keys_in_grid rows cols rd ∧ goal_in_grid rows cols goal.
Proof.
  unfold valid_args. rewrite !andb_true_iff, !bool_decide_eq_true.
  intros [[[? ?] ?] Hg]. do 3 (split; [done|]).
  destruct goal; [|done]. by apply bool_decide_eq_true_1 in Hg.
Qed.

(** ** The constructor on valid arguments *)

Lemma init_stages_valid (rows cols : Z) (rd : gmap (Z * Z) float) (goal : option Z)
    (dr : float) (eu aw dd : bool) (h : heap) :
  valid_args rows cols rd goal = true →
  let n := Z.to_nat (rows * cols) in
  let rw := fresh (dom h) in
  0 < rows ∧ 0 < cols ∧ Z.of_nat n = rows * cols ∧
  ∃ tb pre post final m,
    GridWorldMDP.init_tables rows cols rd dr dd h = Ok ((rw, tb), <[rw := pre]> h) ∧
    GridWorldMDP.scale_diagonals eu rw (<[rw := pre]> h) = Ok (tt, <[rw := post]> h) ∧
    GridWorldMDP.__init__ rows cols rd goal dr eu aw dd h
      = Ok (m, <[rw := final]> h) ∧
    nd_wf n 9 pre ∧ nd_wf n 9 post ∧ nd_wf n 9 final ∧
    (∀ s a, in_range n 9 s a →
       cell pre s a = Some (loop_reward rows cols dd rd dr s a) ∧
       cell post s a = Some (scaled_reward rows cols dd rd dr eu s a) ∧
       cell final s a = Some (final_reward rows cols dd rd dr eu aw goal s a)) ∧
    GridWorldMDP.rewards m = rw ∧
    GridWorldMDP.rows m = rows ∧ GridWorldMDP.cols m = cols ∧
    GridWorldMDP.default_reward m = dr ∧ GridWorldMDP.allow_wait m = aw ∧
    GridWorldMDP.disallow_diag m = dd ∧ GridWorldMDP.goal m = goal ∧
    GridWorldMDP.S m = PyInt (rows * cols) ∧
    GridWorldMDP.A m = PyInt GridWorldMDP.len_Actions ∧
    tables_ok rows cols dd m.
Proof.
  intros (Hrows & Hcols & Hkeys & Hgoal)%valid_args_spec n rw.
  split; [done|]. split; [done|]. split; [subst n; nia|].
  by apply init_stages.
Qed.

Lemma legal_ABSORB (rows cols : Z) (dd : bool) (s : Z) :
  0 < cols → 0 ≤ s < rows * cols → legal rows cols dd s GridWorldMDP.ABSORB = true.
Proof.
  intros Hc Hs. unfold legal, candidate. simpl. rewrite !Z.add_0_r.
  rewrite andb_false_r. simpl. rewrite andb_true_r.
  apply bool_decide_eq_true_2. by apply coor_bounds.
Qed.

Lemma state_to_coor_candidate (rows cols : Z) (dd : bool) (s : Z)
    (a : GridWorldMDP.Actions) :
  legal rows cols dd s a = true →
  GridWorldMDP.state_to_coor rows cols
    ((candidate cols s a).1 * cols + (candidate cols s a).2)
  = Ok (candidate cols s a).
Proof.
  intros Hl. destruct (legal_candidate _ _ _ _ _ Hl) as [Hr Hcc].
  rewrite state_to_coor_Ok
    by (pose proof (encode_bounds rows cols _ _ Hr Hcc); lia).
  destruct (div_mod_encode cols (candidate cols s a).1 (candidate cols s a).2 Hcc)
    as [-> ->].
  by destruct (candidate cols s a).
Qed.

Lemma candidate_ABSORB (cols s : Z) :
  0 < cols →
  (candidate cols s GridWorldMDP.ABSORB).1 * cols
    + (candidate cols s GridWorldMDP.ABSORB).2 = s.
Proof.
  intros Hc. unfold candidate. simpl. rewrite !Z.add_0_r. by apply encode_div_mod.
Qed.

(** ** Sequences of mutations *)

Lemma mutate_spec (rows cols : Z) (mu : mutation) (self : GridWorldMDP.t)
    (h : heap) (n : nat) (arr : ndarray float) :
  Z.of_nat n = rows * cols →
  h !! GridWorldMDP.rewards self = Some arr → nd_wf n 9 arr →
  mutation_ok rows cols mu = true →
  ∃ self' arr',
    mutate mu self h = Ok (self', <[GridWorldMDP.rewards self := arr']> h) ∧
    GridWorldMDP.rewards self' = GridWorldMDP.rewards self ∧ nd_wf n 9 arr'.
Proof.
  intros Hn Hh Hwf Hok. destruct mu as [g|]; simpl.
  - destruct (set_goal_spec self g h n arr Hh Hwf) as (arr' & Hset & Hwf' & _).
    { destruct g as [g|]; [|done]. simpl in Hok.
      apply bool_decide_eq_true_1 in Hok. lia. }
    by exists (GridWorldMDP.with_goal self g), arr'.
  - destruct (set_all_goals_spec self h n arr Hh Hwf) as (arr' & Hset & Hwf' & _).
    exists self, arr'. by rewrite (bind_eq _ _ _ _ _ Hset).
Qed.

Lemma mutations_spec (rows cols : Z) (mus : list mutation) (self : GridWorldMDP.t)
    (h : heap) (n : nat) (arr : ndarray float) :
  Z.of_nat n = rows * cols →
  h !! GridWorldMDP.rewards self = Some arr → nd_wf n 9 arr →
  forallb (mutation_ok rows cols) mus = true →
  ∃ self' arr',
    mutations mus self h = Ok (self', <[GridWorldMDP.rewards self := arr']> h) ∧
    GridWorldMDP.rewards self' = GridWorldMDP.rewards self ∧ nd_wf n 9 arr'.
Proof.
  intros Hn. revert self h arr.
  induction mus as [|mu mus IH]; intros self h arr Hh Hwf Hok.
  - exists self, arr. split; [|done]. unfold mutations. simpl. unfold ret.
    by rewrite insert_id.
  - simpl in Hok. apply andb_true_iff in Hok as [Hmu Hmus].
    destruct (mutate_spec rows cols mu self h n arr Hn Hh Hwf Hmu)
      as (self1 & arr1 & Hm & Hrw1 & Hwf1).
    destruct (IH self1 (<[GridWorldMDP.rewards self := arr1]> h) arr1)
      as (self' & arr' & Hms & Hrw' & Hwf'); [|done|done|].
    { rewrite Hrw1. apply lookup_insert_eq. }
    exists self', arr'. unfold mutations in *. simpl.
    rewrite (bind_eq _ _ _ _ _ Hm), Hms, Hrw1, insert_insert_eq.
    split; [done|]. split; [congruence|done].
Qed.

Lemma mutate_dims (mu : mutation) (self self' : GridWorldMDP.t) (h h' : heap) :
  mutate mu self h = Ok (self', h') →
  GridWorldMDP.rows self' = GridWorldMDP.rows self ∧
  GridWorldMDP.cols self' = GridWorldMDP.cols self ∧
  GridWorldMDP.allow_wait self' = GridWorldMDP.allow_wait self ∧
  GridWorldMDP.default_reward self' = GridWorldMDP.default_reward self.
Proof.
  destruct mu as [g|]; simpl.
  - unfold GridWorldMDP.set_goal.
    intros (? & ? & _ & (? & ? & _ & [= <- _])%bind_Ok)%bind_Ok. done.
  - intros (? & ? & _ & [= <- _])%bind_Ok. done.
Qed.

Lemma mutations_dims (mus : list mutation) (self self' : GridWorldMDP.t)
    (h h' : heap) :
  mutations mus self h = Ok (self', h') →
  GridWorldMDP.rows self' = GridWorldMDP.rows self ∧
  GridWorldMDP.cols self' = GridWorldMDP.cols self ∧
  GridWorldMDP.allow_wait self' = GridWorldMDP.allow_wait self ∧
  GridWorldMDP.default_reward self' = GridWorldMDP.default_reward self.
Proof.
  unfold mutations. revert self h.
  induction mus as [|mu mus IH]; intros self h; simpl.
  - by intros [= <- _].
  - intros (self1 & h1 & Hm & Hms)%bind_Ok.
    destruct (mutate_dims _ _ _ _ _ Hm) as (<- & <- & <- & <-). by apply (IH self1 h1).
Qed.

Lemma mutations_Ok_iff (rows cols : Z) (mus : list mutation) (self : GridWorldMDP.t)
    (h : heap) (n : nat) (arr : ndarray float) :
  Z.of_nat n = rows * cols →
  h !! GridWorldMDP.rewards self = Some arr → nd_wf n 9 arr →
  (∃ self' h', mutations mus self h = Ok (self', h')) ↔
  forallb (mutation_ok rows cols) mus = true.
Proof.
  intros Hn Hh Hwf. split.
  - revert self h arr Hh Hwf.
    induction mus as [|mu mus IH]; intros self h arr Hh Hwf; [done|].
    intros (self' & h' & (self1 & h1 & Hm & Hms)%bind_Ok). simpl.
    assert (mutation_ok rows cols mu = true) as Hmu.
    { destruct mu as [[g|]|]; try done. simpl in Hm |- *.
      apply (set_goal_Ok_inv _ _ _ _ _ n arr Hh Hwf) in Hm. simpl in Hm.
      apply bool_decide_eq_true_2. rewrite <- Hn. lia. }
    rewrite Hmu. simpl.
    destruct (mutate_spec rows cols mu self h n arr Hn Hh Hwf Hmu)
      as (self1' & arr1 & Hm' & Hrw1 & Hwf1).
    rewrite Hm in Hm'. injection Hm' as -> ->.
    apply (IH self1' (<[GridWorldMDP.rewards self := arr1]> h) arr1);
      [rewrite Hrw1; apply lookup_insert_eq|done|by eauto].
  - intros Hok.
    destruct (mutations_spec rows cols mus self h n arr Hn Hh Hwf Hok)
      as (self' & arr' & Hm & _). eauto.
Qed.

(** Two arrays of the same extent with the same cells are equal. *)
Lemma nd_ext {T} (n m : nat) (a1 a2 : ndarray T) :
  nd_wf n m a1 → nd_wf n m a2 →
  (∀ i j, in_range n m i j → cell a1 i j = cell a2 i j) →
  a1 = a2.
Proof.
  destruct a1 as [sh1 d1], a2 as [sh2 d2]. unfold nd_wf, cell. simpl.
  intros (-> & Hl1 & Hr1) (-> & Hl2 & Hr2) Hc. f_equal.
  apply list_eq. intros k.
  destruct (decide (k < n)%nat) as [Hk|Hk].
  2: { rewrite !lookup_ge_None_2 by lia. done. }
  destruct (lookup_lt_is_Some_2 d1 k) as [r1 Hk1]; [lia|].
  destruct (lookup_lt_is_Some_2 d2 k) as [r2 Hk2]; [lia|].
  rewrite Hk1, Hk2. f_equal.
  rewrite Forall_lookup in Hr1, Hr2.
  pose proof (Hr1 _ _ Hk1) as Hlen1. pose proof (Hr2 _ _ Hk2) as Hlen2.
  apply list_eq. intros l.
  destruct (decide (l < m)%nat) as [Hlt|Hlt].
  2: { rewrite !lookup_ge_None_2 by lia. done. }
  specialize (Hc (Z.of_nat k) (Z.of_nat l)).
  rewrite !Nat2Z.id, Hk1, Hk2 in Hc. simpl in Hc. apply Hc. split; lia.
Qed.

(** ** Which arguments construct an engine *)

(** Construction returns an engine exactly for the valid arguments. *)
Lemma init_Ok_valid_args (rows cols : Z) (rd : gmap (Z * Z) float)
    (goal : option Z) (dr : float) (eu aw dd : bool) (h h' : heap)
    (m : GridWorldMDP.t) :
  GridWorldMDP.__init__ rows cols rd goal dr eu aw dd h = Ok (m, h') →
  valid_args rows cols rd goal = true.
Proof.
  intros Hinit. pose proof Hinit as H.
  unfold GridWorldMDP.__init__ in H.
  apply bind_Ok in H as ([rw tb] & h1 & Htab & H).
  assert (0 < rows ∧ 0 < cols) as [Hrows Hcols].
  { unfold GridWorldMDP.init_tables in Htab.
    destruct (bool_decide (rows > 0)) eqn:Hr; [|done].
    destruct (bool_decide (cols > 0)) eqn:Hc; [|done].
    apply bool_decide_eq_true_1 in Hr, Hc. lia. }
  apply bind_Ok in H as (? & h2 & _ & H).
  apply bind_Ok in H as (base & h3 & _ & H).
  apply bind_Ok in H as (sr & h4 & Hsr & _).
  assert (keys_in_grid rows cols rd) as Hkeys.
  { unfold lift in Hsr.
    destruct (foldR _ _ (map_to_list rd)) as [sr0|] eqn:Hf; [|done].
    apply state_rewards_Ok_inv in Hf. apply map_Forall_to_list.
    eapply Forall_impl; [exact Hf|]. by intros [[r c] v]. }
  destruct (init_before_goal rows cols rd dr eu aw dd h Hrows Hcols Hkeys)
    as (_ & _ & post & self0 & _ & _ & Heq & _ & Hpost & _ & Hrw0 & _).
  rewrite Heq in Hinit.
  apply (set_goal_Ok_inv _ _ _ _ _ (Z.to_nat (rows * cols)) post) in Hinit;
    [|rewrite Hrw0; apply lookup_insert_eq|done].
  unfold valid_args.
  rewrite !bool_decide_eq_true_2 by done. simpl.
  destruct goal as [g|]; [|done]. apply bool_decide_eq_true_2. nia.
Qed.


(** * The claims

    The theorems on constructed engines are stated for the arguments
    accepted by [valid_args], which are exactly the arguments with which
    [__init__] returns an engine ([init_Ok_iff_valid_args]); the states
    reached afterwards are those reached by the sequences of [set_goal] and
    [set_all_goals] accepted by [mutation_ok], which are exactly the
    sequences that run without raising ([mutations_Ok_iff]). *)

(** ** Coordinate conversion *)

(** C6.  Encoding is [row * cols + column].  Decoding an encoded
    coordinate of the grid gives the coordinate back, and encoding the
    decoding of a state of the grid gives the state back; neither call
    raises.  The grid of an engine has [cols > 0]. *)
Theorem encode_decode_roundtrip (rows cols : Z) :
  (∀ r c, 0 ≤ r < rows → 0 ≤ c < cols →
     GridWorldMDP.coor_to_state rows cols r c = Ok (r * cols + c) ∧
     GridWorldMDP.state_to_coor rows cols (r * cols + c) = Ok (r, c)) ∧
  (∀ s, 0 < cols → 0 ≤ s < rows * cols →
     ∃ r c, GridWorldMDP.state_to_coor rows cols s = Ok (r, c) ∧
            GridWorldMDP.coor_to_state rows cols r c = Ok s).
Proof.
  split.
  - intros r c Hr Hc. split; [by apply coor_to_state_Ok|].
    rewrite state_to_coor_Ok by (pose proof (encode_bounds rows cols r c); lia).
    by destruct (div_mod_encode cols r c Hc) as [-> ->].
  - intros s Hc Hs. exists (s `div` cols), (s `mod` cols).
    split; [apply state_to_coor_Ok; lia|].
    destruct (coor_bounds rows cols s Hc Hs) as [Hr Hcc].
    rewrite coor_to_state_Ok by done. f_equal. by apply encode_div_mod.
Qed.

Lemma encode_decode_roundtrip_witness :
  (GridWorldMDP.coor_to_state 2 3 1 2 = Ok 5 ∧
   GridWorldMDP.state_to_coor 2 3 5 = Ok (1, 2)) ∧
  (∃ r c, GridWorldMDP.state_to_coor 2 3 4 = Ok (r, c) ∧
          GridWorldMDP.coor_to_state 2 3 r c = Ok 4).
Proof.
  destruct (encode_decode_roundtrip 2 3) as [Henc Hdec]. split.
  - apply (Henc 1 2); lia.
  - apply (Hdec 4); lia.
Defined.

(** C7.  On a 2 x 2 grid [state_to_coor(-1)] does not raise: it returns
    the pair [(-1, 1)], which is not a coordinate of the grid, while the
    sibling [coor_to_state] rejects that pair with its two-sided
    assertion [0 <= r < self.rows]. *)
Theorem state_to_coor_negative_state_not_rejected :
  GridWorldMDP.state_to_coor 2 2 (-1) = Ok (-1, 1) ∧
  GridWorldMDP.coor_to_state 2 2 (-1) 1 = Raise (AssertionError "0 <= r < self.rows").
Proof. split; reflexivity. Qed.

(** ** Transitions, rewards and adjacency of a constructed engine *)

(** C1.  Construction with valid arguments succeeds, and for every state
    [s] of the grid and every action [a] the transition function of the
    engine returns a state [s'] such that: if the move is legal, [s']
    decodes to the coordinate of [s] plus the offset of [a]; if the move
    is illegal, [s' = s].  The illegality flag computed by
    [_transition_helper] is the negation of [legal]. *)
Theorem transition_offset_or_stay (rows cols : Z) (rd : gmap (Z * Z) float)
    (goal : option Z) (dr : float) (eu aw dd : bool) (h : heap) :
  valid_args rows cols rd goal = true →
  ∃ m h',
    GridWorldMDP.__init__ rows cols rd goal dr eu aw dd h = Ok (m, h') ∧
    ∀ s a, 0 ≤ s < rows * cols →
      ∃ s' r c,
        call (GridWorldMDP.transition m) s (GridWorldMDP.value a) = Ok s' ∧
        GridWorldMDP._transition m s (GridWorldMDP.value a) = Ok s' ∧
        GridWorldMDP._transition_helper rows cols dd s (GridWorldMDP.value a)
          = Ok (s', negb (legal rows cols dd s a)) ∧
        GridWorldMDP.state_to_coor rows cols s = Ok (r, c) ∧
        (legal rows cols dd s a = true →
           GridWorldMDP.state_to_coor rows cols s'
             = Ok (r + (offset a).1, c + (offset a).2)) ∧
        (legal rows cols dd s a = false → s' = s).
Proof.
  intros Hv.
  destruct (init_stages_valid rows cols rd goal dr eu aw dd h Hv)
    as (Hrows & Hcols & Hn & tb & pre & post & final & m & _ & _ & Hinit & _ & _ & _
        & _ & _ & _ & _ & _ & _ & _ & _ & _ & _ & Hok).
  eexists m, _. split; [exact Hinit|]. intros s a Hs.
  destruct (tables_ok_transition rows cols dd m s a Hcols Hok Hs) as (Ht & Hc & Hs').
  eexists _, (s `div` cols), (s `mod` cols).
  split; [exact Hc|]. split; [exact Ht|].
  split; [by apply _transition_helper_spec|].
  split; [apply state_to_coor_Ok; lia|]. split.
  - intros Hl. rewrite Hl. by rewrite (state_to_coor_candidate rows cols dd).
  - intros Hl. by rewrite Hl.
Qed.

Lemma transition_offset_or_stay_witness :
  ∃ m h',
    GridWorldMDP.__init__ 2 2 ∅ (Some 0) (-1)%float true false true ∅ = Ok (m, h') ∧
    GridWorldMDP._transition m 0 (GridWorldMDP.value GridWorldMDP.RIGHT) = Ok 2 ∧
    GridWorldMDP._transition m 0 (GridWorldMDP.value GridWorldMDP.LEFT) = Ok 0.
Proof.
  destruct (transition_offset_or_stay 2 2 ∅ (Some 0) (-1)%float true false true ∅)
    as (m & h' & Hinit & Hall); [reflexivity|].
  exists m, h'. split; [exact Hinit|]. split.
  - destruct (Hall 0 GridWorldMDP.RIGHT) as (s' & r & c & _ & Ht & Hh & _); [lia|].
    rewrite Ht. vm_compute in Hh. congruence.
  - destruct (Hall 0 GridWorldMDP.LEFT) as (s' & r & c & _ & Ht & Hh & _); [lia|].
    rewrite Ht. vm_compute in Hh. congruence.
Defined.

(** C2.  After the construction loop, before the scaling and before
    [set_goal], the reward stored for a state [s] of the grid and an action
    [a] is negative infinity if the move is illegal, and otherwise the
    override at the coordinate of the resulting state when the override map
    has one, else the default reward.  In the table of the finished engine
    an illegal move still carries negative infinity. *)
Theorem construction_reward_assignment (rows cols : Z) (rd : gmap (Z * Z) float)
    (goal : option Z) (dr : float) (eu aw dd : bool) (h : heap) :
  valid_args rows cols rd goal = true →
  ∃ rw tb h1 m h',
    GridWorldMDP.init_tables rows cols rd dr dd h = Ok ((rw, tb), h1) ∧
    GridWorldMDP.__init__ rows cols rd goal dr eu aw dd h = Ok (m, h') ∧
    ∀ s a, 0 ≤ s < rows * cols →
      ∃ s' coor,
        GridWorldMDP._transition m s (GridWorldMDP.value a) = Ok s' ∧
        GridWorldMDP.state_to_coor rows cols s' = Ok coor ∧
        reward_at h1 rw s (GridWorldMDP.value a)
          = Ok (if legal rows cols dd s a
                then default dr (rd !! coor)
                else neg_infinity) ∧
        (legal rows cols dd s a = false →
           reward_at h' (GridWorldMDP.rewards m) s (GridWorldMDP.value a)
             = Ok neg_infinity).
Proof.
  intros Hv.
  destruct (init_stages_valid rows cols rd goal dr eu aw dd h Hv)
    as (Hrows & Hcols & Hn & tb & pre & post & final & m & Htab & _ & Hinit
        & Hpre & _ & Hfinal & Hcells & Hrw & _ & _ & _ & _ & _ & _ & _ & _ & Hok).
  eexists _, tb, _, m, _. split; [exact Htab|]. split; [exact Hinit|].
  intros s a Hs.
  destruct (tables_ok_transition rows cols dd m s a Hcols Hok Hs) as (Ht & _ & Hs').
  assert (in_range (Z.to_nat (rows * cols)) 9 s (GridWorldMDP.value a)) as Hr
    by (apply action_in_range; lia).
  destruct (Hcells _ _ Hr) as (Hc1 & _ & Hc3).
  rewrite loop_reward_assigned in Hc1 by done.
  exists (if legal rows cols dd s a
          then (candidate cols s a).1 * cols + (candidate cols s a).2 else s),
         (if legal rows cols dd s a
          then candidate cols s a else (s `div` cols, s `mod` cols)).
  split; [exact Ht|]. split.
  { destruct (legal rows cols dd s a) eqn:Hl.
    - by apply (state_to_coor_candidate rows cols dd).
    - apply state_to_coor_Ok. lia. }
  split.
  - apply (reward_at_cell _ _ (Z.to_nat (rows * cols)) pre);
      [apply lookup_insert_eq|done|done|].
    rewrite Hc1. unfold assigned_reward. by destruct (legal rows cols dd s a).
  - intros Hl. rewrite Hrw.
    apply (reward_at_cell _ _ (Z.to_nat (rows * cols)) final);
      [apply lookup_insert_eq|done|done|].
    rewrite Hc3. f_equal. unfold final_reward, scaled_reward.
    rewrite loop_reward_assigned by done. unfold assigned_reward. rewrite Hl.
    case_decide as H8.
    + change 8 with (GridWorldMDP.value GridWorldMDP.ABSORB) in H8.
      apply value_inj in H8 as ->. by rewrite legal_ABSORB in Hl.
    + by destruct (eu && _).
Qed.

Lemma construction_reward_assignment_witness :
  ∃ rw tb h1 m h',
    GridWorldMDP.init_tables 1 5 {[ (0, 3) := 10%float ]} (-1)%float false ∅
      = Ok ((rw, tb), h1) ∧
    GridWorldMDP.__init__ 1 5 {[ (0, 3) := 10%float ]} None (-1)%float true false false ∅
      = Ok (m, h') ∧
    reward_at h1 rw 2 (GridWorldMDP.value GridWorldMDP.UP) = Ok 10%float ∧
    reward_at h' (GridWorldMDP.rewards m) 4 (GridWorldMDP.value GridWorldMDP.UP)
      = Ok neg_infinity.
Proof.
  destruct (construction_reward_assignment 1 5 {[ (0, 3) := 10%float ]} None
              (-1)%float true false false ∅)
    as (rw & tb & h1 & m & h' & Htab & Hinit & Hall); [reflexivity|].
  exists rw, tb, h1, m, h'. split; [exact Htab|]. split; [exact Hinit|]. split.
  - destruct (Hall 2 GridWorldMDP.UP) as (s' & coor & Ht & Hc & Hr & _); [lia|].
    vm_compute in Hinit. injection Hinit as <- <-.
    vm_compute in Ht. injection Ht as <-.
    vm_compute in Hc. injection Hc as <-.
    rewrite Hr. reflexivity.
  - destruct (Hall 4 GridWorldMDP.UP) as (s' & coor & _ & _ & _ & Hr); [lia|].
    apply Hr. reflexivity.
Defined.

(** C3.  For every state [s] of the grid and every action [a] of a
    constructed engine, with [s'] the state the transition function
    returns: the pair [(a, s')] is in the forward adjacency list of [s] if
    and only if the move is legal, and the pair [(a, s)] is in the reverse
    adjacency list of [s'] if and only if the move is legal.  The reward
    table has an entry for the pair in both cases. *)
Theorem adjacency_iff_legal (rows cols : Z) (rd : gmap (Z * Z) float)
    (goal : option Z) (dr : float) (eu aw dd : bool) (h : heap) :
  valid_args rows cols rd goal = true →
  ∃ m h',
    GridWorldMDP.__init__ rows cols rd goal dr eu aw dd h = Ok (m, h') ∧
    ∀ s a, 0 ≤ s < rows * cols →
      ∃ s' fwd rev v,
        GridWorldMDP._transition m s (GridWorldMDP.value a) = Ok s' ∧
        list_getitem (GridWorldMDP.neighbors m) s = Ok fwd ∧
        list_getitem (GridWorldMDP.reverse_neighbors m) s' = Ok rev ∧
        ((GridWorldMDP.value a, s') ∈ fwd ↔ legal rows cols dd s a = true) ∧
        ((GridWorldMDP.value a, s) ∈ rev ↔ legal rows cols dd s a = true) ∧
        reward_at h' (GridWorldMDP.rewards m) s (GridWorldMDP.value a) = Ok v.
Proof.
  intros Hv.
  destruct (init_stages_valid rows cols rd goal dr eu aw dd h Hv)
    as (Hrows & Hcols & Hn & tb & pre & post & final & m & _ & _ & Hinit
        & _ & _ & Hfinal & Hcells & Hrw & _ & _ & _ & _ & _ & _ & _ & _ & Hok).
  eexists m, _. split; [exact Hinit|]. intros s a Hs.
  destruct (tables_ok_transition rows cols dd m s a Hcols Hok Hs) as (Ht & _ & _).
  destruct (tables_ok_neighbors rows cols dd m s a Hcols Hok Hs)
    as (fwd & rev & Hf & Hr & Hfi & Hri).
  assert (in_range (Z.to_nat (rows * cols)) 9 s (GridWorldMDP.value a)) as Hra
    by (apply action_in_range; lia).
  destruct (Hcells _ _ Hra) as (_ & _ & Hc3).
  eexists _, fwd, rev, _. split; [exact Ht|]. split; [exact Hf|].
  split; [exact Hr|]. split; [exact Hfi|]. split; [exact Hri|].
  rewrite Hrw.
  by apply (reward_at_cell _ _ (Z.to_nat (rows * cols)) final);
    [apply lookup_insert_eq|..].
Qed.

Lemma adjacency_iff_legal_witness :
  ∃ m h',
    GridWorldMDP.__init__ 2 2 ∅ (Some 0) (-1)%float true false true ∅ = Ok (m, h') ∧
    (GridWorldMDP.value GridWorldMDP.RIGHT, 2) ∈ row (GridWorldMDP.neighbors m) 0 ∧
    (GridWorldMDP.value GridWorldMDP.UP_RIGHT, 0) ∉ row (GridWorldMDP.reverse_neighbors m) 0.
Proof.
  destruct (adjacency_iff_legal 2 2 ∅ (Some 0) (-1)%float true false true ∅)
    as (m & h' & Hinit & Hall); [reflexivity|].
  exists m, h'. split; [exact Hinit|].
  vm_compute in Hinit. injection Hinit as <- <-. split.
  - destruct (Hall 0 GridWorldMDP.RIGHT) as (s' & fwd & rev & v & Ht & Hf & _ & Hi & _);
      [lia|].
    vm_compute in Ht. injection Ht as <-.
    vm_compute in Hf. injection Hf as <-.
    apply Hi. reflexivity.
  - destruct (Hall 0 GridWorldMDP.UP_RIGHT)
      as (s' & fwd & rev & v & Ht & _ & Hr & _ & Hi & _); [lia|].
    vm_compute in Ht. injection Ht as <-.
    vm_compute in Hr. injection Hr as <-.
    intros Hin. apply Hi in Hin. discriminate Hin.
Defined.

(** C10.  The ABSORB action is never flagged illegal: for every state [s]
    of every constructed engine the helper returns [s] with the flag
    [False], the transition function returns [s], and the pair
    [(ABSORB, s)] is in both the forward and the reverse adjacency list of
    [s], whatever the goal, [allow_wait] and [disallow_diag] are, and in
    particular when the ABSORB reward at [s] is negative infinity
    ([allow_wait] unset and [s] not the state the goal designates).  A later
    [set_goal] leaves the adjacency lists and the cached transitions as
    they are. *)
Theorem absorb_in_both_adjacency_lists (rows cols : Z) (rd : gmap (Z * Z) float)
    (goal : option Z) (dr : float) (eu aw dd : bool) (h : heap) :
  valid_args rows cols rd goal = true →
  ∃ m h',
    GridWorldMDP.__init__ rows cols rd goal dr eu aw dd h = Ok (m, h') ∧
    (∀ s, 0 ≤ s < rows * cols →
       GridWorldMDP._transition_helper rows cols dd s
         (GridWorldMDP.value GridWorldMDP.ABSORB) = Ok (s, false) ∧
       GridWorldMDP._transition m s (GridWorldMDP.value GridWorldMDP.ABSORB) = Ok s ∧
       ∃ fwd rev,
         list_getitem (GridWorldMDP.neighbors m) s = Ok fwd ∧
         list_getitem (GridWorldMDP.reverse_neighbors m) s = Ok rev ∧
         (GridWorldMDP.value GridWorldMDP.ABSORB, s) ∈ fwd ∧
         (GridWorldMDP.value GridWorldMDP.ABSORB, s) ∈ rev ∧
         (aw = false → goal_index rows cols goal ≠ Some s →
            reward_at h' (GridWorldMDP.rewards m) s
              (GridWorldMDP.value GridWorldMDP.ABSORB) = Ok neg_infinity)) ∧
    (∀ g, goal_in_grid rows cols g →
       ∃ m2 h2,
         GridWorldMDP.set_goal m g h' = Ok (m2, h2) ∧
         GridWorldMDP.neighbors m2 = GridWorldMDP.neighbors m ∧
         GridWorldMDP.reverse_neighbors m2 = GridWorldMDP.reverse_neighbors m ∧
         GridWorldMDP.transition_cached m2 = GridWorldMDP.transition_cached m).
Proof.
  intros Hv.
  destruct (init_stages_valid rows cols rd goal dr eu aw dd h Hv)
    as (Hrows & Hcols & Hn & tb & pre & post & final & m & _ & _ & Hinit
        & _ & _ & Hfinal & Hcells & Hrw & _ & _ & _ & _ & _ & _ & _ & _ & Hok).
  eexists m, _. split; [exact Hinit|]. split.
  - intros s Hs.
    pose proof (legal_ABSORB rows cols dd s Hcols Hs) as Hl.
    pose proof (_transition_helper_spec rows cols dd s GridWorldMDP.ABSORB Hcols Hs)
      as Hh.
    destruct (tables_ok_transition rows cols dd m s GridWorldMDP.ABSORB Hcols Hok Hs)
      as (Ht & _ & _).
    destruct (tables_ok_neighbors rows cols dd m s GridWorldMDP.ABSORB Hcols Hok Hs)
      as (fwd & rev & Hf & Hr & Hfi & Hri).
    rewrite Hl in *. rewrite candidate_ABSORB in * by done. simpl negb in Hh.
    split; [exact Hh|]. split; [exact Ht|].
    exists fwd, rev. split; [exact Hf|]. split; [exact Hr|].
    split; [by apply Hfi|]. split; [by apply Hri|].
    intros -> Hg. rewrite Hrw.
    apply (reward_at_cell _ _ (Z.to_nat (rows * cols)) final);
      [apply lookup_insert_eq|done|split; simpl; lia|].
    destruct (Hcells s 8) as (_ & _ & Hc8); [split; lia|].
    change (GridWorldMDP.value GridWorldMDP.ABSORB) with 8. rewrite Hc8.
    unfold final_reward, absorb_reward. simpl. by rewrite decide_False.
  - intros g Hg.
    destruct (set_goal_spec m g (<[fresh (dom h) := final]> h)
                (Z.to_nat (rows * cols)) final)
      as (arr' & Hset & _); [rewrite Hrw; apply lookup_insert_eq|done| |].
    { destruct g; [|done]. simpl in Hg. lia. }
    eexists _, _. split; [exact Hset|]. done.
Qed.

Lemma absorb_in_both_adjacency_lists_witness :
  ∃ m h',
    GridWorldMDP.__init__ 2 2 ∅ (Some 0) (-1)%float true false true ∅ = Ok (m, h') ∧
    (8, 3) ∈ row (GridWorldMDP.neighbors m) 3 ∧
    (8, 3) ∈ row (GridWorldMDP.reverse_neighbors m) 3 ∧
    reward_at h' (GridWorldMDP.rewards m) 3 8 = Ok neg_infinity.
Proof.
  destruct (absorb_in_both_adjacency_lists 2 2 ∅ (Some 0) (-1)%float true false true ∅)
    as (m & h' & Hinit & Hall & _); [reflexivity|].
  exists m, h'. split; [exact Hinit|].
  destruct (Hall 3) as (_ & _ & fwd & rev & Hf & Hr & Hfi & Hri & Hinf); [lia|].
  vm_compute in Hinit. injection Hinit as <- <-.
  vm_compute in Hf. injection Hf as <-.
  vm_compute in Hr. injection Hr as <-.
  split; [exact Hfi|]. split; [exact Hri|]. by apply Hinf.
Defined.

(** ** Euclidean scaling *)

(** C5.  With [euclidean_rewards] set, every entry of the four diagonal
    columns of the finished table is the value assigned by the loop
    multiplied by [sqrt 2] (negative infinity stays negative infinity), and
    the scaling leaves every entry of the other columns as the loop
    assigned it; outside the ABSORB column, which [set_goal] rewrites, that
    is also the entry of the finished table. *)
Theorem euclidean_scaling_of_diagonals (rows cols : Z) (rd : gmap (Z * Z) float)
    (goal : option Z) (dr : float) (aw dd : bool) (h : heap) :
  valid_args rows cols rd goal = true →
  ∃ rw tb h1 h2 m h',
    GridWorldMDP.init_tables rows cols rd dr dd h = Ok ((rw, tb), h1) ∧
    GridWorldMDP.scale_diagonals true rw h1 = Ok (tt, h2) ∧
    GridWorldMDP.__init__ rows cols rd goal dr true aw dd h = Ok (m, h') ∧
    GridWorldMDP.rewards m = rw ∧
    ∀ s a, 0 ≤ s < rows * cols →
      let v := assigned_reward rows cols dd rd dr s a in
      reward_at h1 rw s (GridWorldMDP.value a) = Ok v ∧
      (is_diagonal a = true →
         reward_at h2 rw s (GridWorldMDP.value a)
           = Ok (PrimFloat.mul v GridWorldMDP.sqrt2) ∧
         reward_at h' rw s (GridWorldMDP.value a)
           = Ok (PrimFloat.mul v GridWorldMDP.sqrt2) ∧
         (v = neg_infinity → PrimFloat.mul v GridWorldMDP.sqrt2 = neg_infinity)) ∧
      (is_diagonal a = false →
         reward_at h2 rw s (GridWorldMDP.value a) = Ok v ∧
         (a ≠ GridWorldMDP.ABSORB →
            reward_at h' rw s (GridWorldMDP.value a) = Ok v)).
Proof.
  intros Hv.
  destruct (init_stages_valid rows cols rd goal dr true aw dd h Hv)
    as (Hrows & Hcols & Hn & tb & pre & post & final & m & Htab & Hscale & Hinit
        & Hpre & Hpost & Hfinal & Hcells & Hrw & _ & _ & _ & _ & _ & _ & _ & _ & Hok).
  eexists _, tb, _, _, m, _.
  split; [exact Htab|]. split; [exact Hscale|]. split; [exact Hinit|].
  split; [exact Hrw|]. intros s a Hs v.
  assert (in_range (Z.to_nat (rows * cols)) 9 s (GridWorldMDP.value a)) as Hr
    by (apply action_in_range; lia).
  destruct (Hcells _ _ Hr) as (Hc1 & Hc2 & Hc3).
  unfold final_reward, scaled_reward in Hc2, Hc3.
  rewrite value_diagonal in Hc2, Hc3.
  rewrite loop_reward_assigned in Hc1, Hc2, Hc3 by done. fold v in Hc1, Hc2, Hc3.
  simpl in Hc2, Hc3.
  assert (∀ arr x, nd_wf (Z.to_nat (rows * cols)) 9 arr →
            cell arr s (GridWorldMDP.value a) = Some x →
            reward_at (<[fresh (dom h) := arr]> h) (fresh (dom h)) s
              (GridWorldMDP.value a) = Ok x) as Hread.
  { intros arr x Hwf Hc.
    by apply (reward_at_cell _ _ (Z.to_nat (rows * cols)) arr);
      [apply lookup_insert_eq|..]. }
  split; [by apply Hread|]. split.
  - intros Hd. rewrite Hd in Hc2, Hc3.
    split; [by apply Hread|]. split.
    + apply Hread; [done|]. rewrite Hc3. rewrite decide_False; [done|].
      destruct a; done.
    + intros ->. reflexivity.
  - intros Hd. rewrite Hd in Hc2, Hc3.
    split; [by apply Hread|]. intros Ha.
    apply Hread; [done|]. rewrite Hc3. rewrite decide_False; [done|].
    intros H8. apply Ha. apply value_inj. done.
Qed.

Lemma euclidean_scaling_of_diagonals_witness :
  ∃ m h',
    GridWorldMDP.__init__ 2 2 ∅ None (-1)%float true false false ∅ = Ok (m, h') ∧
    reward_at h' (GridWorldMDP.rewards m) 0
      (GridWorldMDP.value GridWorldMDP.UP_RIGHT)
      = Ok (PrimFloat.mul (-1)%float GridWorldMDP.sqrt2) ∧
    reward_at h' (GridWorldMDP.rewards m) 0 (GridWorldMDP.value GridWorldMDP.RIGHT)
      = Ok (-1)%float.
Proof.
  destruct (euclidean_scaling_of_diagonals 2 2 ∅ None (-1)%float false false ∅)
    as (rw & tb & h1 & h2 & m & h' & _ & _ & Hinit & Hrw & Hall); [reflexivity|].
  exists m, h'. split; [exact Hinit|]. rewrite Hrw. split.
  - destruct (Hall 0 GridWorldMDP.UP_RIGHT) as (_ & Hd & _); [lia|].
    destruct Hd as (_ & Hf & _); [reflexivity|]. exact Hf.
  - destruct (Hall 0 GridWorldMDP.RIGHT) as (_ & _ & Hd); [lia|].
    destruct Hd as (_ & Hf); [reflexivity|]. apply Hf. discriminate.
Defined.

(** ** Goal reconfiguration on an engine *)

(** C4.  On an engine in any state reached from construction by
    [set_goal] and [set_all_goals], [set_goal(g)] for a state [g] of the
    grid succeeds and leaves the ABSORB reward 0 at [g] and, at every other
    state, the default reward if [allow_wait] is set and negative infinity
    otherwise.  Calling it again with the same goal changes nothing.
    Calling it with another goal [g'] gives the same description for [g']:
    the reward at the former goal [g] is the one of a non-goal state. *)
Theorem set_goal_rewrites_absorb_column (rows cols : Z) (rd : gmap (Z * Z) float)
    (goal : option Z) (dr : float) (eu aw dd : bool) (mus0 : list mutation)
    (h : heap) :
  valid_args rows cols rd goal = true →
  forallb (mutation_ok rows cols) mus0 = true →
  ∃ m0 h0 m h1,
    GridWorldMDP.__init__ rows cols rd goal dr eu aw dd h = Ok (m0, h0) ∧
    mutations mus0 m0 h0 = Ok (m, h1) ∧
    ∀ g, 0 ≤ g < rows * cols →
      ∃ m2 h2,
        GridWorldMDP.set_goal m (Some g) h1 = Ok (m2, h2) ∧
        GridWorldMDP.goal m2 = Some g ∧
        (∀ s, 0 ≤ s < rows * cols →
           reward_at h2 (GridWorldMDP.rewards m2) s
             (GridWorldMDP.value GridWorldMDP.ABSORB)
           = Ok (if decide (s = g) then 0%float
                 else if aw then dr else neg_infinity)) ∧
        GridWorldMDP.set_goal m2 (Some g) h2 = Ok (m2, h2) ∧
        ∀ g', 0 ≤ g' < rows * cols → g' ≠ g →
          ∃ m3 h3,
            GridWorldMDP.set_goal m2 (Some g') h2 = Ok (m3, h3) ∧
            GridWorldMDP.goal m3 = Some g' ∧
            reward_at h3 (GridWorldMDP.rewards m3) g
              (GridWorldMDP.value GridWorldMDP.ABSORB)
            = Ok (if aw then dr else neg_infinity) ∧
            ∀ s, 0 ≤ s < rows * cols →
              reward_at h3 (GridWorldMDP.rewards m3) s
                (GridWorldMDP.value GridWorldMDP.ABSORB)
              = Ok (if decide (s = g') then 0%float
                    else if aw then dr else neg_infinity).
Proof.
  intros Hv Hmus0.
  destruct (init_stages_valid rows cols rd goal dr eu aw dd h Hv)
    as (Hrows & Hcols & Hn & tb & pre & post & final0 & m0 & _ & _ & Hinit
        & _ & _ & Hfinal0 & _ & Hrw0 & _ & _ & Hdr0 & Haw0 & _).
  set (n := Z.to_nat (rows * cols)) in *. set (rw := fresh (dom h)) in *.
  destruct (mutations_spec rows cols mus0 m0 (<[rw := final0]> h) n final0)
    as (m & final & Hmut & Hrwm & Hfinal); [done| |done|done|].
  { rewrite Hrw0. apply lookup_insert_eq. }
  rewrite Hrw0, insert_insert_eq in Hmut.
  destruct (mutations_dims _ _ _ _ _ Hmut) as (_ & _ & Haw & Hdr).
  rewrite Haw0 in Haw. rewrite Hdr0 in Hdr.
  assert (GridWorldMDP.rewards m = rw) as Hrw by congruence.
  eexists m0, _, m, _. split; [exact Hinit|]. split; [exact Hmut|]. intros g Hg.
  assert (∀ (self : GridWorldMDP.t) arr g0 arr',
            GridWorldMDP.allow_wait self = aw →
            GridWorldMDP.default_reward self = dr →
            nd_wf n 9 arr' →
            (∀ s a, in_range n 9 s a →
               cell arr' s a =
                 if decide (a = 8)
                 then Some (absorb_reward (GridWorldMDP.allow_wait self)
                              (GridWorldMDP.default_reward self) (Some g0) s)
                 else cell arr s a) →
            ∀ s, 0 ≤ s < rows * cols →
              reward_at (<[rw := arr']> h) rw s
                (GridWorldMDP.value GridWorldMDP.ABSORB)
              = Ok (if decide (s = g0) then 0%float
                    else if aw then dr else neg_infinity)) as Hread.
  { intros self arr g0 arr' Ha Hd Hwf Hc s Hs.
    apply (reward_at_cell _ _ n arr'); [apply lookup_insert_eq|done| |].
    { split; simpl; lia. }
    change (GridWorldMDP.value GridWorldMDP.ABSORB) with 8.
    rewrite Hc by (split; lia). simpl. f_equal. unfold absorb_reward.
    rewrite Ha, Hd. repeat case_decide; congruence. }
  destruct (set_goal_spec m (Some g) (<[rw := final]> h) n final)
    as (arr2 & Hset2 & Hwf2 & Hc2);
    [rewrite Hrw; apply lookup_insert_eq|done|lia|].
  simpl in Hc2. rewrite wrap_nonneg in Hc2 by lia.
  rewrite Hrw, insert_insert_eq in Hset2.
  eexists _, _. split; [exact Hset2|]. split; [done|]. split.
  { simpl. rewrite Hrw. by apply (Hread m final g arr2). }
  destruct (set_goal_spec (GridWorldMDP.with_goal m (Some g)) (Some g)
              (<[rw := arr2]> h) n arr2)
    as (arr3 & Hset3 & Hwf3 & Hc3);
    [simpl; rewrite Hrw; apply lookup_insert_eq|done|lia|].
  simpl in Hset3, Hc3. rewrite wrap_nonneg in Hc3 by lia.
  rewrite Hrw, insert_insert_eq in Hset3.
  split.
  { rewrite Hset3. f_equal. f_equal. f_equal.
    apply (nd_ext n 9); [done|done|]. intros s a Hr.
    rewrite Hc3, Hc2 by done. by case_decide. }
  intros g' Hg' Hne.
  destruct (set_goal_spec (GridWorldMDP.with_goal m (Some g)) (Some g')
              (<[rw := arr2]> h) n arr2)
    as (arr4 & Hset4 & Hwf4 & Hc4);
    [simpl; rewrite Hrw; apply lookup_insert_eq|done|lia|].
  simpl in Hset4, Hc4. rewrite wrap_nonneg in Hc4 by lia.
  rewrite Hrw, insert_insert_eq in Hset4.
  eexists _, _. split; [exact Hset4|]. split; [done|].
  simpl. rewrite Hrw.
  pose proof (Hread (GridWorldMDP.with_goal m (Some g)) arr2 g' arr4 Haw Hdr Hwf4 Hc4)
    as Hall.
  split; [|exact Hall].
  pose proof (Hall g Hg) as Hgg. rewrite decide_False in Hgg by done. exact Hgg.
Qed.

Lemma set_goal_rewrites_absorb_column_witness :
  ∃ m0 h0 m h1 m2 h2 m3 h3,
    GridWorldMDP.__init__ 2 2 ∅ (Some 0) (-1)%float true false false ∅ = Ok (m0, h0) ∧
    mutations [Set_all_goals] m0 h0 = Ok (m, h1) ∧
    GridWorldMDP.set_goal m (Some 1) h1 = Ok (m2, h2) ∧
    reward_at h2 (GridWorldMDP.rewards m2) 1 8 = Ok 0%float ∧
    reward_at h2 (GridWorldMDP.rewards m2) 0 8 = Ok neg_infinity ∧
    GridWorldMDP.set_goal m2 (Some 3) h2 = Ok (m3, h3) ∧
    reward_at h3 (GridWorldMDP.rewards m3) 1 8 = Ok neg_infinity.
Proof.
  destruct (set_goal_rewrites_absorb_column 2 2 ∅ (Some 0) (-1)%float
              true false false [Set_all_goals] ∅)
    as (m0 & h0 & m & h1 & Hinit & Hmut & Hall); [reflexivity|reflexivity|].
  destruct (Hall 1) as (m2 & h2 & Hset & _ & Hcol & _ & Hnext); [lia|].
  destruct (Hnext 3) as (m3 & h3 & Hset3 & _ & Hold & _); [lia|lia|].
  exists m0, h0, m, h1, m2, h2, m3, h3.
  split; [exact Hinit|]. split; [exact Hmut|]. split; [exact Hset|].
  split; [apply (Hcol 1); lia|]. split; [apply (Hcol 0); lia|].
  split; [exact Hset3|]. exact Hold.
Defined.

(** ** Copies *)

(** C8.  For an engine in any state reached from construction by
    [set_goal] and [set_all_goals], [copy()] succeeds and returns an engine
    whose reward matrix is stored at another address and has, cell by cell,
    the rewards of the source at that time.  Whatever is then done to the
    rewards of the source leaves the matrix of the copy as it is, and
    whatever is done to the rewards of the copy leaves the matrix of the
    source as it is. *)
Theorem copy_rewards_equal_and_independent (rows cols : Z)
    (rd : gmap (Z * Z) float) (goal : option Z) (dr : float) (eu aw dd : bool)
    (mus0 : list mutation) (h : heap) :
  valid_args rows cols rd goal = true →
  forallb (mutation_ok rows cols) mus0 = true →
  ∃ m0 h0 m h1 cp h2 arr,
    GridWorldMDP.__init__ rows cols rd goal dr eu aw dd h = Ok (m0, h0) ∧
    mutations mus0 m0 h0 = Ok (m, h1) ∧
    GridWorldMDP.copy m h1 = Ok (cp, h2) ∧
    GridWorldMDP.rewards cp ≠ GridWorldMDP.rewards m ∧
    h1 !! GridWorldMDP.rewards m = Some arr ∧
    h2 !! GridWorldMDP.rewards m = Some arr ∧
    h2 !! GridWorldMDP.rewards cp = Some arr ∧
    (∀ s a, reward_at h2 (GridWorldMDP.rewards cp) s a
            = reward_at h1 (GridWorldMDP.rewards m) s a) ∧
    (∀ mus, forallb (mutation_ok rows cols) mus = true →
       ∃ m' h3, mutations mus m h2 = Ok (m', h3) ∧
                h3 !! GridWorldMDP.rewards cp = Some arr) ∧
    (∀ mus, forallb (mutation_ok rows cols) mus = true →
       ∃ cp' h3, mutations mus cp h2 = Ok (cp', h3) ∧
                 h3 !! GridWorldMDP.rewards m = Some arr).
Proof.
  intros Hv Hmus0.
  destruct (init_stages_valid rows cols rd goal dr eu aw dd h Hv)
    as (Hrows & Hcols & Hn & tb & pre & post & final & m0 & _ & _ & Hinit
        & _ & _ & Hfinal & _ & Hrw & Hr0 & Hc0 & _).
  set (n := Z.to_nat (rows * cols)) in *.
  destruct (mutations_spec rows cols mus0 m0 (<[fresh (dom h) := final]> h) n final)
    as (m & arr & Hmut & Hrwm & Hwf); [done| |done|done|].
  { rewrite Hrw. apply lookup_insert_eq. }
  rewrite Hrw, insert_insert_eq in Hmut.
  set (rw := fresh (dom h)) in *. set (h1 := <[rw := arr]> h) in *.
  assert (h1 !! GridWorldMDP.rewards m = Some arr) as Hh1
    by (rewrite Hrwm, Hrw; apply lookup_insert_eq).
  destruct (mutations_dims _ _ _ _ _ Hmut) as (Hrm & Hcm & _).
  rewrite Hr0 in Hrm. rewrite Hc0 in Hcm.
  (* the copy *)
  destruct (init_stages rows cols ∅ None (-1)%float true false false h1
              Hrows Hcols (map_Forall_empty _) I)
    as (tbc & _ & _ & finalc & cp0 & _ & _ & Hinitc & _ & _ & _ & _ & Hrwc & Hrc & Hcc & _).
  set (l1 := fresh (dom h1)) in *.
  set (h1' := <[l1 := finalc]> h1) in *.
  set (l2 := fresh (dom h1')).
  assert (l1 ≠ GridWorldMDP.rewards m) as Hl1.
  { intros Heq. pose proof (is_fresh (dom h1)) as Hf.
    change (l1 ∉ dom h1) in Hf. rewrite Heq in Hf.
    apply Hf, elem_of_dom. eauto. }
  assert (h1' !! GridWorldMDP.rewards m = Some arr) as Hh1'
    by (subst h1'; by rewrite lookup_insert_ne).
  assert (l2 ≠ GridWorldMDP.rewards m) as Hl2.
  { intros Heq. pose proof (is_fresh (dom h1')) as Hf.
    change (l2 ∉ dom h1') in Hf. rewrite Heq in Hf.
    apply Hf, elem_of_dom. eauto. }
  assert (mk_ndarray (shape arr) (data arr) = arr) as Heta by (by destruct arr).
  assert (GridWorldMDP.copy m h1
          = Ok (GridWorldMDP.with_rewards cp0 l2, <[l2 := arr]> h1')) as Hcopy.
  { unfold GridWorldMDP.copy. rewrite Hrm, Hcm.
    rewrite (bind_eq _ _ _ _ _ Hinitc).
    assert (heap_read (GridWorldMDP.rewards m) h1' = Ok (arr, h1')) as Hread
      by (unfold heap_read; by rewrite Hh1').
    rewrite (bind_eq _ _ _ _ _ Hread).
    unfold heap_alloc, bind, ret. fold l2. by rewrite Heta. }
  set (h2 := <[l2 := arr]> h1') in *.
  assert (h2 !! GridWorldMDP.rewards m = Some arr) as Hh2m
    by (subst h2; by rewrite lookup_insert_ne).
  assert (h2 !! l2 = Some arr) as Hh2c by apply lookup_insert_eq.
  exists m0, (<[rw := final]> h), m, h1, (GridWorldMDP.with_rewards cp0 l2), h2, arr.
  split; [exact Hinit|]. split; [exact Hmut|]. split; [exact Hcopy|].
  simpl. split; [done|]. split; [done|]. split; [done|]. split; [done|].
  split.
  { intros s a. unfold reward_at, heap_read.
    change (h2 !! l2) with (h2 !! GridWorldMDP.rewards (GridWorldMDP.with_rewards cp0 l2))
      in Hh2c.
    simpl in Hh2c |- *. by rewrite Hh2c, Hh1. }
  split.
  - intros mus Hmus.
    destruct (mutations_spec rows cols mus m h2 n arr Hn Hh2m Hwf Hmus)
      as (m' & arr' & Hm & _ & _).
    eexists _, _. split; [exact Hm|]. by rewrite lookup_insert_ne.
  - intros mus Hmus.
    destruct (mutations_spec rows cols mus (GridWorldMDP.with_rewards cp0 l2) h2 n arr
                Hn Hh2c Hwf Hmus) as (cp' & arr' & Hm & _ & _).
    eexists _, _. split; [exact Hm|]. simpl. by rewrite lookup_insert_ne.
Qed.

Lemma copy_rewards_equal_and_independent_witness :
  ∃ m0 h0 m h1 cp h2 arr,
    GridWorldMDP.__init__ 2 2 ∅ (Some 0) (-1)%float true false false ∅ = Ok (m0, h0) ∧
    mutations [Set_goal (Some 1); Set_all_goals] m0 h0 = Ok (m, h1) ∧
    GridWorldMDP.copy m h1 = Ok (cp, h2) ∧
    GridWorldMDP.rewards cp ≠ GridWorldMDP.rewards m ∧
    h2 !! GridWorldMDP.rewards m = Some arr ∧
    h2 !! GridWorldMDP.rewards cp = Some arr ∧
    (∃ m' h3, mutations [Set_goal (Some 2)] m h2 = Ok (m', h3) ∧
              h3 !! GridWorldMDP.rewards cp = Some arr).
Proof.
  destruct (copy_rewards_equal_and_independent 2 2 ∅ (Some 0) (-1)%float
              true false false [Set_goal (Some 1); Set_all_goals] ∅)
    as (m0 & h0 & m & h1 & cp & h2 & arr & Hinit & Hmut & Hcopy & Hne & _ & Hm & Hc
        & _ & Hsrc & _); [reflexivity|reflexivity|].
  exists m0, h0, m, h1, cp, h2, arr.
  split; [exact Hinit|]. split; [exact Hmut|]. split; [exact Hcopy|].
  split; [exact Hne|]. split; [exact Hm|]. split; [exact Hc|].
  apply Hsrc. reflexivity.
Defined.

(** ** The abstract MDP *)

(** C9, as the code has it.  [MDP.__init__] runs four assertions in
    order: [S] is an [int], [A] is an [int], the shape of the reward matrix
    is [(S, A)], and [transition] is callable; the first that fails raises
    [AssertionError].  Construction succeeds exactly when all four hold,
    and then stores [S], [A], [rewards] and [transition] as given and
    leaves the store as it was.  Whether [S] and [A] are positive is not
    checked. *)
Theorem MDP_init_assertions (S A : pyval) (rw : loc) (tr : pyobj) (h : heap)
    (arr : ndarray float) :
  h !! rw = Some arr →
  (isinstance_int S = false →
     MDP.__init__ S A rw tr h = Raise (AssertionError "isinstance(S, int)")) ∧
  (isinstance_int S = true → isinstance_int A = false →
     MDP.__init__ S A rw tr h = Raise (AssertionError "isinstance(A, int)")) ∧
  (isinstance_int S = true → isinstance_int A = true →
   shape_eq (shape arr) S A = false →
     MDP.__init__ S A rw tr h = Raise (AssertionError "rewards.shape == (S, A)")) ∧
  (isinstance_int S = true → isinstance_int A = true →
   shape_eq (shape arr) S A = true → callable tr = false →
     MDP.__init__ S A rw tr h = Raise (AssertionError "callable(transition)")) ∧
  (isinstance_int S = true → isinstance_int A = true →
   shape_eq (shape arr) S A = true → callable tr = true →
     MDP.__init__ S A rw tr h = Ok (MDP.mk S A rw tr, h)) ∧
  (∀ s a, shape_eq (shape arr) (PyInt s) (PyInt a) = true ↔
          Z.of_nat (shape arr).1 = s ∧ Z.of_nat (shape arr).2 = a).
Proof.
  intros Hh. unfold MDP.__init__.
  assert (∀ {B} (f : ndarray float → M B), bind (heap_read rw) f h = f arr h) as Hread.
  { intros B f. unfold bind, heap_read. by rewrite Hh. }
  split; [by intros ->|]. split; [by intros -> ->|].
  split; [intros -> ->; simpl; rewrite !bind_lift_Ok, Hread; by intros ->|].
  split; [intros -> ->; simpl; rewrite !bind_lift_Ok, Hread; by intros -> ->|].
  split; [intros -> ->; simpl; rewrite !bind_lift_Ok, Hread; by intros -> ->|].
  intros s a. unfold shape_eq. apply bool_decide_eq_true.
Qed.

Lemma MDP_init_assertions_witness :
  MDP.__init__ (PyInt 4) (PyInt 9) 0%nat (PyFunction (λ s _, Ok s))
    {[ 0%nat := mk_ndarray (4%nat, 9%nat) (replicate 4 (replicate 9 0%float)) ]}
  = Ok (MDP.mk (PyInt 4) (PyInt 9) 0%nat (PyFunction (λ s _, Ok s)),
        {[ 0%nat := mk_ndarray (4%nat, 9%nat) (replicate 4 (replicate 9 0%float)) ]}) ∧
  MDP.__init__ (PyInt 4) (PyInt 9) 0%nat (PyData PyNone)
    {[ 0%nat := mk_ndarray (4%nat, 9%nat) (replicate 4 (replicate 9 0%float)) ]}
  = Raise (AssertionError "callable(transition)").
Proof.
  split.
  - destruct (MDP_init_assertions (PyInt 4) (PyInt 9) 0%nat (PyFunction (λ s _, Ok s))
                {[ 0%nat := mk_ndarray (4%nat, 9%nat) (replicate 4 (replicate 9 0%float)) ]}
                (mk_ndarray (4%nat, 9%nat) (replicate 4 (replicate 9 0%float))))
      as (_ & _ & _ & _ & Hok & _); [reflexivity|].
    apply Hok; reflexivity.
  - destruct (MDP_init_assertions (PyInt 4) (PyInt 9) 0%nat (PyData PyNone)
                {[ 0%nat := mk_ndarray (4%nat, 9%nat) (replicate 4 (replicate 9 0%float)) ]}
                (mk_ndarray (4%nat, 9%nat) (replicate 4 (replicate 9 0%float))))
      as (_ & _ & _ & Hc & _); [reflexivity|].
    apply Hc; reflexivity.
Defined.

(** C9, as stated, fails: [S = 0] is not a positive integer, yet
    [MDP.__init__] accepts it together with a reward matrix of shape
    [(0, 9)]. *)
Lemma MDP_init_accepts_zero_states :
  ¬ positive_int (PyInt 0) ∧
  MDP.__init__ (PyInt 0) (PyInt 9) 0%nat (PyFunction (λ s _, Ok s))
    {[ 0%nat := mk_ndarray (0%nat, 9%nat) [] ]}
  = Ok (MDP.mk (PyInt 0) (PyInt 9) 0%nat (PyFunction (λ s _, Ok s)),
        {[ 0%nat := mk_ndarray (0%nat, 9%nat) [] ]}).
Proof.
  split.
  - intros (z & [= <-] & Hz). lia.
  - reflexivity.
Qed.

(** * Further properties of the code *)

(** ** What a returning computation has done *)

Lemma lift_Ok {A} (r : result A) (h h' : heap) (a : A) :
  lift r h = Ok (a, h') ↔ r = Ok a ∧ h' = h.
Proof.
  unfold lift. destruct r as [a0|e]; split.
  - by intros [= -> ->].
  - by intros [[= ->] ->].
  - done.
  - by intros [[=] _].
Qed.

Lemma bind_lift_Ok_inv {A B} (r : result A) (f : A → M B) (h h' : heap) (b : B) :
  bind (lift r) f h = Ok (b, h') → ∃ a, r = Ok a ∧ f a h = Ok (b, h').
Proof.
  intros (a & h1 & [-> ->]%lift_Ok & Hf)%bind_Ok. eauto.
Qed.

(** The effect of one run of the loop body on the tables. *)
Lemma loop_body_tables (rows cols : Z) (dd : bool) (rd : gmap (Z * Z) float)
    (rw : loc) (s a : Z) (tb tb' : GridWorldMDP.tables) (h h' : heap) :
  GridWorldMDP.loop_body rows cols dd rd rw s a tb h = Ok (tb', h') →
  ∃ s' ill,
    GridWorldMDP._transition_helper rows cols dd s a = Ok (s', ill) ∧
    list_setitem (GridWorldMDP.t_transition_cached_l tb)
      (a + s * GridWorldMDP.len_Actions) s'
      = Ok (GridWorldMDP.t_transition_cached_l tb') ∧
    if ill
    then GridWorldMDP.t_neighbors tb' = GridWorldMDP.t_neighbors tb ∧
         GridWorldMDP.t_reverse_neighbors tb' = GridWorldMDP.t_reverse_neighbors tb
    else list_append_at (GridWorldMDP.t_neighbors tb) s (a, s')
           = Ok (GridWorldMDP.t_neighbors tb') ∧
         list_append_at (GridWorldMDP.t_reverse_neighbors tb) s' (a, s)
           = Ok (GridWorldMDP.t_reverse_neighbors tb').
Proof.
  unfold GridWorldMDP.loop_body.
  intros ([s' ill] & Hh & H)%bind_lift_Ok_inv.
  apply bind_lift_Ok_inv in H as (tc & _ & H).
  apply bind_lift_Ok_inv in H as (tcl & Htcl & H).
  apply bind_lift_Ok_inv in H as (coor & _ & H).
  exists s', ill. split; [done|]. destruct ill; simpl in H.
  - apply bind_Ok in H as ([] & h1 & _ & [= <- _]). done.
  - apply bind_Ok in H as ([] & h1 & _ & H).
    apply bind_lift_Ok_inv in H as (nb & Hnb & H).
    apply bind_lift_Ok_inv in H as (rnb & Hrnb & [= <- _]). done.
Qed.

Lemma omap_snoc {A B} (f : A → option B) (l : list A) (x : A) :
  omap f (l ++ [x]) = omap f l ++ match f x with Some y => [y] | None => [] end.
Proof. rewrite omap_app. simpl. by destruct (f x). Qed.

Lemma loop_body_flat_inv (rows cols : Z) (dd : bool) (rd : gmap (Z * Z) float)
    (rw : loc) (vis : list (Z * Z)) (p : Z * Z)
    (tb tb' : GridWorldMDP.tables) (h h' : heap) :
  0 < cols →
  in_range (Z.to_nat (rows * cols)) 9 p.1 p.2 →
  (∀ q, q ∈ vis → in_range (Z.to_nat (rows * cols)) 9 q.1 q.2) →
  flat_inv rows cols dd vis tb →
  GridWorldMDP.loop_body rows cols dd rd rw p.1 p.2 tb h = Ok (tb', h') →
  flat_inv rows cols dd (vis ++ [p]) tb'.
Proof.
  destruct p as [s a]. simpl.
  intros Hcols [Hs Ha] Hvis (Hnb & Hrnb & Htcl & Hflat & Hfwd & Hrev) Hbody.
  apply loop_body_tables in Hbody as (s' & ill & Hh & Hset & Hadj).
  assert (step_of rows cols dd s a = (s', ill)) as Hstep
    by (unfold step_of; by rewrite Hh).
  assert (0 ≤ s' < rows * cols) as Hs'.
  { destruct (_transition_helper_total rows cols dd s a) as (s1 & i1 & Hh1 & Hr1);
      [done|lia|done|]. congruence. }
  change GridWorldMDP.len_Actions with 9 in *.
  unfold list_setitem in Hset. rewrite py_index_nonneg in Hset by (rewrite Htcl; nia).
  simpl in Hset. injection Hset as Hset.
  assert (length (GridWorldMDP.t_transition_cached_l tb')
          = Z.to_nat (rows * cols * 9)) as Htcl'
    by (rewrite <- Hset, length_insert; done).
  assert (∀ s0 a0, (s0, a0) ∈ vis ++ [(s, a)] →
            GridWorldMDP.t_transition_cached_l tb' !! Z.to_nat (a0 + s0 * 9)
            = Some (step_of rows cols dd s0 a0).1) as Hflat'.
  { intros s0 a0 [Hin|[= -> ->]]%elem_of_snoc; rewrite <- Hset.
    - destruct (Hvis _ Hin) as [H1 H2]. simpl in H1, H2.
      destruct (decide (s0 = s ∧ a0 = a)) as [[-> ->]|Hne].
      + rewrite list_lookup_insert_eq by (rewrite Htcl; nia). by rewrite Hstep.
      + rewrite list_lookup_insert_ne by lia. by apply Hflat.
    - rewrite list_lookup_insert_eq by (rewrite Htcl; nia). by rewrite Hstep. }
  assert (∀ s0, fwd_entry rows cols dd s0 (s, a)
                = if bool_decide (s = s0) && negb ill then Some (a, s') else None)
    as Hfe by (intros s0; unfold fwd_entry; simpl; by rewrite Hstep).
  assert (∀ s0, rev_entry rows cols dd s0 (s, a)
                = if negb ill && bool_decide (s' = s0) then Some (a, s) else None)
    as Hre by (intros s0; unfold rev_entry; simpl; by rewrite Hstep).
  unfold flat_inv. cbv zeta. change GridWorldMDP.len_Actions with 9.
  destruct ill.
  - destruct Hadj as [Hnb' Hrnb']. rewrite Hnb', Hrnb'.
    split; [done|]. split; [done|]. split; [done|]. split; [done|]. split.
    + intros s0 Hs0. rewrite omap_snoc, Hfwd, Hfe by done. simpl.
      by rewrite andb_false_r, app_nil_r.
    + intros s0 Hs0. rewrite omap_snoc, Hrev, Hre by done. simpl.
      by rewrite app_nil_r.
  - destruct Hadj as [Hnb' Hrnb'].
    destruct (list_append_at_spec (GridWorldMDP.t_neighbors tb) s (a, s'))
      as (nb1 & Hnb1 & Hnbl & Hnbr); [rewrite Hnb; lia|].
    destruct (list_append_at_spec (GridWorldMDP.t_reverse_neighbors tb) s' (a, s))
      as (rnb1 & Hrnb1 & Hrnbl & Hrnbr); [rewrite Hrnb; lia|].
    rewrite Hnb' in Hnb1. injection Hnb1 as <-.
    rewrite Hrnb' in Hrnb1. injection Hrnb1 as <-.
    split; [congruence|]. split; [congruence|]. split; [done|]. split; [done|].
    split.
    + intros s0 Hs0. rewrite omap_snoc, Hnbr, Hfe by done. simpl.
      rewrite andb_true_r. case_decide as Heq.
      * subst s0. rewrite bool_decide_eq_true_2 by done. by rewrite Hfwd.
      * rewrite bool_decide_eq_false_2 by done. by rewrite app_nil_r, Hfwd.
    + intros s0 Hs0. rewrite omap_snoc, Hrnbr, Hre by done. simpl.
      case_decide as Heq.
      * subst s0. rewrite bool_decide_eq_true_2 by done. by rewrite Hrev.
      * rewrite bool_decide_eq_false_2 by done. by rewrite app_nil_r, Hrev.
Qed.

(** The start of [init_tables]: up to the loop nothing raises, and the
    tables the loop starts from satisfy both invariants. *)
Lemma init_tables_unfold (rows cols : Z) (rd : gmap (Z * Z) float) (dr : float)
    (dd : bool) (h : heap) :
  0 < rows → 0 < cols →
  let rw := fresh (dom h) in
  ∃ arr0 tb0,
    GridWorldMDP.init_tables rows cols rd dr dd h =
      bind (GridWorldMDP.loops rows cols dd rd rw (rows * cols)
              GridWorldMDP.len_Actions tb0)
           (λ tb, ret (rw, tb)) (<[rw := arr0]> h) ∧
    loop_inv rows cols dd rd dr rw h [] tb0 (<[rw := arr0]> h) ∧
    flat_inv rows cols dd [] tb0.
Proof.
  intros Hrows Hcols rw. unfold GridWorldMDP.init_tables.
  rewrite !bool_decide_eq_true_2 by lia. simpl. rewrite !bind_lift_Ok.
  assert (0 ≤ rows * cols) as HS by nia.
  assert (0 ≤ GridWorldMDP.len_Actions) as HA by done.
  destruct (np_full_spec (rows * cols) GridWorldMDP.len_Actions 0%float HS HA)
    as (zeros & Hz & Hzwf & _).
  destruct (np_full_spec (rows * cols) GridWorldMDP.len_Actions 0 HS HA)
    as (tc & Htc & Htcwf & _).
  change (Z.to_nat GridWorldMDP.len_Actions) with 9%nat in *.
  rewrite (lift_eq _ _ _ _ Hz).
  assert (heap_alloc zeros h = Ok (rw, <[rw := zeros]> h)) as Halloc by done.
  rewrite (bind_eq _ _ _ _ _ Halloc).
  rewrite (bind_eq (heap_update rw _) _ _ _ _
             (heap_update_eq rw _ _ zeros (nd_fill zeros dr)
                (lookup_insert_eq _ _ _) eq_refl)).
  rewrite insert_insert_eq. rewrite (lift_eq _ _ _ _ Htc).
  destruct (nd_fill_spec _ _ zeros dr Hzwf) as [Hfwf Hfill].
  eexists _, _. split; [done|].
  assert (∀ s : Z, row (replicate (Z.to_nat (rows * cols)) (@nil (Z * Z))) s = [])
    as Hrow.
  { intros s. unfold row.
    destruct (replicate _ _ !! _) as [l|] eqn:Hl; [|done].
    by apply lookup_replicate in Hl as [-> _]. }
  split.
  - split; [by intros p ?%elem_of_nil|]. simpl.
    rewrite !length_replicate. do 3 (split; [done|]). split; [done|].
    split; [|split; [by intros s a ?%elem_of_nil|split]].
    + eexists. split; [done|]. split; [done|]. intros s a Hr. by apply Hfill.
    + intros s x Hs. rewrite Hrow. split; [by intros ?%elem_of_nil|].
      by intros (a & ?%elem_of_nil & _).
    + intros s x Hs. rewrite Hrow. split; [by intros ?%elem_of_nil|].
      by intros (s0 & a & ?%elem_of_nil & _).
  - unfold flat_inv. simpl. rewrite !length_replicate.
    do 3 (split; [done|]). split; [by intros s a ?%elem_of_nil|].
    split; intros s Hs; apply Hrow.
Qed.

(** The tables that [init_tables] returns satisfy the second invariant for
    all pairs of the grid. *)
Lemma init_tables_flat (rows cols : Z) (rd : gmap (Z * Z) float) (dr : float)
    (dd : bool) (h h1 : heap) (rw : loc) (tb : GridWorldMDP.tables) :
  0 < rows → 0 < cols →
  GridWorldMDP.init_tables rows cols rd dr dd h = Ok ((rw, tb), h1) →
  flat_inv rows cols dd
    (index_pairs (xrange (rows * cols)) (xrange GridWorldMDP.len_Actions)) tb.
Proof.
  intros Hrows Hcols Hinit.
  destruct (init_tables_unfold rows cols rd dr dd h Hrows Hcols)
    as (arr0 & tb0 & Heq & HI & HF).
  rewrite Heq in Hinit. clear Heq.
  apply bind_Ok in Hinit as (tb1 & h2 & Hloops & [= _ <- _]).
  unfold GridWorldMDP.loops in Hloops.
  rewrite (foldM_nested
             (λ s a tb, GridWorldMDP.loop_body rows cols dd rd (fresh (dom h)) s a tb))
    in Hloops.
  destruct (foldM_invariant
              (λ tb p, GridWorldMDP.loop_body rows cols dd rd (fresh (dom h)) p.1 p.2 tb)
              (λ p, in_range (Z.to_nat (rows * cols)) 9 p.1 p.2)
              (λ vis tb h', loop_inv rows cols dd rd dr (fresh (dom h)) h vis tb h' ∧
                            flat_inv rows cols dd vis tb))
    with (l := index_pairs (xrange (rows * cols)) (xrange GridWorldMDP.len_Actions))
         (vis := @nil (Z * Z)) (b := tb0) (h := <[fresh (dom h) := arr0]> h)
    as (tb2 & h3 & Hrun & _ & HF2).
  - intros vis p b h0 Hp [HI0 HF0].
    destruct (loop_body_invariant rows cols dd rd dr (fresh (dom h)) h Hrows Hcols
                vis p b h0 Hp HI0) as (b' & h0' & Hb & HI').
    exists b', h0'. split; [done|]. split; [done|].
    apply (loop_body_flat_inv rows cols dd rd (fresh (dom h)) vis p b b' h0 h0');
      try done.
    by destruct HI0 as [Hvis _].
  - apply Forall_forall. intros [s a] Hin%elem_of_index_pairs. simpl.
    change GridWorldMDP.len_Actions with 9 in Hin. split; lia.
  - done.
  - pose proof (eq_trans (eq_sym Hloops) Hrun) as [= -> _]. exact HF2.
Qed.

(** ** [_transition_helper] on arbitrary arguments *)

Lemma _transition_helper_state_too_large (rows cols : Z) (dd : bool) (s a : Z) :
  rows * cols ≤ s →
  GridWorldMDP._transition_helper rows cols dd s a
    = Raise (AssertionError "s < self.rows * self.cols").
Proof.
  intros Hs. unfold GridWorldMDP._transition_helper, GridWorldMDP.state_to_coor.
  by rewrite bool_decide_eq_false_2 by lia.
Qed.

Lemma _transition_helper_bad_action (rows cols : Z) (dd : bool) (s a : Z) :
  s < rows * cols → ¬ (0 ≤ a < GridWorldMDP.len_Actions) →
  GridWorldMDP._transition_helper rows cols dd s a
    = Raise (AssertionError "a >= 0 and a < len(self.Actions)").
Proof.
  intros Hs Ha. unfold GridWorldMDP._transition_helper, GridWorldMDP.state_to_coor.
  rewrite bool_decide_eq_true_2 by lia. simpl.
  assert (bool_decide (a >= 0) && bool_decide (a < GridWorldMDP.len_Actions) = false)
    as ->; [|done].
  apply andb_false_iff. destruct (decide (a >= 0)).
  - right. apply bool_decide_eq_false_2. lia.
  - left. by apply bool_decide_eq_false_2.
Qed.

(** Below the upper bound of the states, negative states included, the
    helper returns the encoded candidate of a legal move; for an illegal
    one it encodes the decoded origin again, which [coor_to_state] checks. *)
Lemma _transition_helper_unfold (rows cols : Z) (dd : bool) (s : Z)
    (a : GridWorldMDP.Actions) :
  s < rows * cols →
  GridWorldMDP._transition_helper rows cols dd s (GridWorldMDP.value a) =
    if legal rows cols dd s a then Ok (target cols s a, false)
    else let? k := GridWorldMDP.coor_to_state rows cols (s `div` cols) (s `mod` cols) in
         Ok (k, true).
Proof.
  intros Hs. unfold GridWorldMDP._transition_helper, GridWorldMDP.state_to_coor.
  rewrite bool_decide_eq_true_2 by lia. simpl.
  pose proof (value_range a) as Hv.
  rewrite !bool_decide_eq_true_2 by lia. simpl.
  set (r := s `div` cols) in *. set (c := s `mod` cols) in *.
  match goal with
  | |- bindR ?chain _ = _ =>
      assert (chain = Ok (r + (offset a).1, c + (offset a).2)) as ->
        by (destruct a; simpl; f_equal; f_equal; lia)
  end.
  simpl. rewrite diagonal_actions_spec.
  unfold legal, target, candidate. fold r c.
  set (r' := r + (offset a).1). set (c' := c + (offset a).2). simpl.
  destruct (bool_decide (0 ≤ r' < rows ∧ 0 ≤ c' < cols)) eqn:Hg.
  - apply bool_decide_eq_true_1 in Hg.
    rewrite !(bool_decide_eq_false_2 (_ < 0)) by lia.
    rewrite !(bool_decide_eq_false_2 (_ >= _)) by lia. simpl.
    destruct (dd && is_diagonal a); simpl; [done|].
    by rewrite coor_to_state_Ok by lia.
  - apply bool_decide_eq_false_1 in Hg. simpl.
    assert (bool_decide (r' < 0) || bool_decide (r' >= rows) ||
            bool_decide (c' < 0) || bool_decide (c' >= cols) = true) as Hor.
    { repeat case_bool_decide; simpl; try done. lia. }
    rewrite Hor. done.
Qed.

Lemma coor_to_state_cases (rows cols r c : Z) :
  GridWorldMDP.coor_to_state rows cols r c =
    if bool_decide (0 ≤ r < rows) then
      if bool_decide (0 ≤ c < cols) then Ok (r * cols + c)
      else Raise (AssertionError "0 <= c < self.cols")
    else Raise (AssertionError "0 <= r < self.rows").
Proof.
  unfold GridWorldMDP.coor_to_state. by repeat case_bool_decide.
Qed.

Lemma negative_div (cols s : Z) : 0 < cols → s `div` cols < 0 ↔ s < 0.
Proof.
  intros Hc. split.
  - intros Hd. destruct (decide (s < 0)); [done|].
    pose proof (Z.div_pos s cols). lia.
  - intros Hs. by apply Z.div_lt_upper_bound; lia.
Qed.

Lemma _transition_helper_Ok_inv (rows cols : Z) (dd : bool) (s a s' : Z)
    (ill : bool) :
  0 < cols →
  GridWorldMDP._transition_helper rows cols dd s a = Ok (s', ill) →
  ∃ act, a = GridWorldMDP.value act ∧
         ill = negb (legal rows cols dd s act) ∧
         s' = (if legal rows cols dd s act then target cols s act else s) ∧
         0 ≤ s' < rows * cols.
Proof.
  intros Hc H.
  destruct (decide (s < rows * cols)) as [Hs|Hs].
  2: { rewrite _transition_helper_state_too_large in H by lia. done. }
  destruct (decide (0 ≤ a < GridWorldMDP.len_Actions)) as [Ha|Ha].
  2: { rewrite _transition_helper_bad_action in H by done. done. }
  destruct (value_surj a Ha) as [act ->]. exists act. split; [done|].
  rewrite _transition_helper_unfold in H by done.
  destruct (legal rows cols dd s act) eqn:Hl.
  - injection H as <- <-. do 2 (split; [done|]).
    apply legal_candidate in Hl. apply encode_bounds; lia.
  - rewrite coor_to_state_cases in H.
    repeat case_bool_decide; try done. injection H as <- <-.
    rewrite encode_div_mod by done. do 2 (split; [done|]).
    pose proof (encode_div_mod cols s Hc). split; [|lia].
    destruct (decide (0 ≤ s)); [done|].
    assert (s `div` cols < 0) by (apply negative_div; lia). lia.
Qed.

Lemma _transition_helper_Ok_iff (rows cols : Z) (dd : bool) (s a : Z) :
  0 < cols →
  (∃ r, GridWorldMDP._transition_helper rows cols dd s a = Ok r) ↔
  s < rows * cols ∧
  ∃ act, a = GridWorldMDP.value act ∧ (0 ≤ s ∨ legal rows cols dd s act = true).
Proof.
  intros Hc. split.
  - intros [[s' ill] H].
    destruct (decide (s < rows * cols)) as [Hs|Hs].
    2: { rewrite _transition_helper_state_too_large in H by lia. done. }
    split; [done|].
    destruct (_transition_helper_Ok_inv rows cols dd s a s' ill Hc H)
      as (act & -> & _ & Hs' & Hb).
    exists act. split; [done|].
    destruct (legal rows cols dd s act); [by right|]. left. lia.
  - intros (Hs & act & -> & Hor).
    rewrite _transition_helper_unfold by done.
    destruct (legal rows cols dd s act) eqn:Hl; [by eexists|].
    destruct Hor as [H0|]; [|done].
    destruct (coor_bounds rows cols s Hc) as [? ?]; [lia|].
    rewrite coor_to_state_Ok by done. by eexists.
Qed.

Lemma _transition_helper_Raise_inv (rows cols : Z) (dd : bool) (s a : Z) (e : exn) :
  GridWorldMDP._transition_helper rows cols dd s a = Raise e →
  ∃ cond, e = AssertionError cond.
Proof.
  intros H.
  destruct (decide (s < rows * cols)) as [Hs|Hs].
  2: { rewrite _transition_helper_state_too_large in H by lia.
       injection H as <-. by eexists. }
  destruct (decide (0 ≤ a < GridWorldMDP.len_Actions)) as [Ha|Ha].
  2: { rewrite _transition_helper_bad_action in H by done.
       injection H as <-. by eexists. }
  destruct (value_surj a Ha) as [act ->].
  rewrite _transition_helper_unfold in H by done.
  destruct (legal rows cols dd s act); [done|].
  rewrite coor_to_state_cases in H.
  repeat case_bool_decide; try done; injection H as <-; by eexists.
Qed.

Lemma opposite_offset (a : GridWorldMDP.Actions) :
  (offset (opposite a)).1 = - (offset a).1 ∧
  (offset (opposite a)).2 = - (offset a).2 ∧
  is_diagonal (opposite a) = is_diagonal a.
Proof. by destruct a. Qed.

Lemma target_candidate (rows cols : Z) (dd : bool) (s : Z)
    (a : GridWorldMDP.Actions) :
  legal rows cols dd s a = true →
  target cols s a `div` cols = (candidate cols s a).1 ∧
  target cols s a `mod` cols = (candidate cols s a).2.
Proof.
  intros Hl%legal_candidate. unfold target. apply div_mod_encode. lia.
Qed.

Lemma legal_opposite (rows cols : Z) (dd : bool) (s : Z) (a : GridWorldMDP.Actions) :
  0 < cols → 0 ≤ s < rows * cols → legal rows cols dd s a = true →
  legal rows cols dd (target cols s a) (opposite a) = true ∧
  target cols (target cols s a) (opposite a) = s.
Proof.
  intros Hc Hs Hl.
  destruct (target_candidate rows cols dd s a Hl) as [Hd Hm].
  destruct (opposite_offset a) as (Ho1 & Ho2 & Hdiag).
  destruct (coor_bounds rows cols s Hc Hs) as [Hr Hcc].
  assert (candidate cols (target cols s a) (opposite a) = (s `div` cols, s `mod` cols))
    as Hcand.
  { unfold candidate at 1. rewrite Hd, Hm, Ho1, Ho2. unfold candidate. simpl.
    f_equal; lia. }
  split.
  - unfold legal. rewrite Hcand, Hdiag. simpl.
    rewrite bool_decide_eq_true_2 by done.
    unfold legal in Hl. by apply andb_true_iff in Hl as [_ ->].
  - unfold target at 1. rewrite Hcand. simpl. by apply encode_div_mod.
Qed.

(** ** The fields of a constructed engine *)

Lemma MDP_init_Ok_inv (S A : pyval) (rw : loc) (tr : pyobj) (h h' : heap)
    (b : MDP.t) :
  MDP.__init__ S A rw tr h = Ok (b, h') → b = MDP.mk S A rw tr ∧ h' = h.
Proof.
  unfold MDP.__init__. intros H.
  apply bind_lift_Ok_inv in H as (_ & _ & H).
  apply bind_lift_Ok_inv in H as (_ & _ & H).
  apply bind_Ok in H as (arr & h1 & Hread & H).
  unfold heap_read in Hread. destruct (h !! rw); [|done].
  injection Hread as <- <-.
  apply bind_lift_Ok_inv in H as (_ & _ & H).
  apply bind_lift_Ok_inv in H as (_ & _ & H).
  by injection H as <- <-.
Qed.

Lemma set_goal_Ok_self (self m : GridWorldMDP.t) (g : option Z) (h h' : heap) :
  GridWorldMDP.set_goal self g h = Ok (m, h') → m = GridWorldMDP.with_goal self g.
Proof.
  unfold GridWorldMDP.set_goal. intros H.
  apply bind_Ok in H as (_ & h1 & _ & H).
  apply bind_Ok in H as (_ & h2 & _ & H).
  by injection H as <- _.
Qed.

(** An engine that [__init__] returns has the tables of the loop in its
    fields, and the settings it was given. *)
Lemma init_fields (rows cols : Z) (rd : gmap (Z * Z) float) (goal : option Z)
    (dr : float) (eu aw dd : bool) (h h' : heap) (m : GridWorldMDP.t) :
  GridWorldMDP.__init__ rows cols rd goal dr eu aw dd h = Ok (m, h') →
  0 < rows ∧ 0 < cols ∧
  ∃ tb sr h1,
    GridWorldMDP.init_tables rows cols rd dr dd h = Ok ((fresh (dom h), tb), h1) ∧
    flat_inv rows cols dd
      (index_pairs (xrange (rows * cols)) (xrange GridWorldMDP.len_Actions)) tb ∧
    state_rewards_loop rows cols (replicate (Z.to_nat (rows * cols)) dr)
      (map_to_list rd) = Ok sr ∧
    m = GridWorldMDP.mk (PyInt (rows * cols)) (PyInt GridWorldMDP.len_Actions)
          (fresh (dom h))
          (PyFunction (λ s a, nd_getitem (GridWorldMDP.t_transition_cached tb) s a))
          rows cols dr (GridWorldMDP.t_neighbors tb)
          (GridWorldMDP.t_reverse_neighbors tb) (GridWorldMDP.t_transition_cached tb)
          (replicate (Z.to_nat (rows * cols * GridWorldMDP.len_Actions)) 0)
          (GridWorldMDP.t_transition_cached_l tb)
          (GridWorldMDP.t_transition_cached_l tb) aw dd sr goal.
Proof.
  intros H.
  pose proof (init_Ok_valid_args _ _ _ _ _ _ _ _ _ _ _ H) as Hv.
  apply valid_args_spec in Hv as (Hrows & Hcols & _ & _).
  do 2 (split; [done|]).
  unfold GridWorldMDP.__init__ in H.
  apply bind_Ok in H as ([rw tb] & h1 & Hinit & H).
  destruct (init_tables_spec rows cols rd dr dd h Hrows Hcols)
    as (tb0 & h0 & Hinit0 & _).
  rewrite Hinit0 in Hinit. injection Hinit as <- <- <-.
  apply bind_Ok in H as (_ & h2 & _ & H).
  apply bind_Ok in H as (base & h3 & Hbase & H).
  apply MDP_init_Ok_inv in Hbase as [-> ->].
  apply bind_lift_Ok_inv in H as (sr & Hsr & H).
  apply set_goal_Ok_self in H. exists tb0, sr, h0.
  split; [done|]. split; [by eapply init_tables_flat|]. split; [exact Hsr|]. exact H.
Qed.

(** ** What the mutators leave alone *)

Lemma with_goal_with_goal (self : GridWorldMDP.t) (g1 g2 : option Z) :
  GridWorldMDP.with_goal (GridWorldMDP.with_goal self g1) g2
    = GridWorldMDP.with_goal self g2.
Proof. done. Qed.

Lemma with_goal_goal (self : GridWorldMDP.t) :
  GridWorldMDP.with_goal self (GridWorldMDP.goal self) = self.
Proof. by destruct self. Qed.

Lemma mutate_frame (rows cols : Z) (mu : mutation) (self : GridWorldMDP.t)
    (h : heap) (n : nat) (arr : ndarray float) :
  Z.of_nat n = rows * cols →
  h !! GridWorldMDP.rewards self = Some arr → nd_wf n 9 arr →
  mutation_ok rows cols mu = true →
  ∃ g' arr',
    mutate mu self h = Ok (GridWorldMDP.with_goal self g',
                           <[GridWorldMDP.rewards self := arr']> h) ∧
    nd_wf n 9 arr' ∧
    ∀ s a, in_range n 9 s a → a ≠ 8 → cell arr' s a = cell arr s a.
Proof.
  intros Hn Hh Hwf Hok. destruct mu as [g|]; simpl.
  - destruct (set_goal_spec self g h n arr Hh Hwf) as (arr' & Hset & Hwf' & Hc).
    { destruct g as [g|]; [|done]. simpl in Hok.
      apply bool_decide_eq_true_1 in Hok. lia. }
    exists g, arr'. split; [done|]. split; [done|].
    intros s a Hr Ha. rewrite Hc by done. by rewrite decide_False.
  - destruct (set_all_goals_spec self h n arr Hh Hwf) as (arr' & Hset & Hwf' & Hc).
    exists (GridWorldMDP.goal self), arr'. rewrite (bind_eq _ _ _ _ _ Hset).
    rewrite with_goal_goal. split; [done|]. split; [done|].
    intros s a Hr Ha. rewrite Hc by done. by rewrite decide_False.
Qed.

Lemma mutations_frame (rows cols : Z) (mus : list mutation) (self : GridWorldMDP.t)
    (h : heap) (n : nat) (arr : ndarray float) :
  Z.of_nat n = rows * cols →
  h !! GridWorldMDP.rewards self = Some arr → nd_wf n 9 arr →
  forallb (mutation_ok rows cols) mus = true →
  ∃ g' arr',
    mutations mus self h = Ok (GridWorldMDP.with_goal self g',
                               <[GridWorldMDP.rewards self := arr']> h) ∧
    nd_wf n 9 arr' ∧
    ∀ s a, in_range n 9 s a → a ≠ 8 → cell arr' s a = cell arr s a.
Proof.
  intros Hn. revert self h arr.
  induction mus as [|mu mus IH]; intros self h arr Hh Hwf Hok.
  - exists (GridWorldMDP.goal self), arr. unfold mutations. simpl.
    rewrite with_goal_goal, insert_id by done. done.
  - simpl in Hok. apply andb_true_iff in Hok as [Hmu Hmus].
    destruct (mutate_frame rows cols mu self h n arr Hn Hh Hwf Hmu)
      as (g1 & arr1 & Hm & Hwf1 & Hc1).
    destruct (IH (GridWorldMDP.with_goal self g1)
                 (<[GridWorldMDP.rewards self := arr1]> h) arr1)
      as (g2 & arr2 & Hms & Hwf2 & Hc2); [apply lookup_insert_eq|done|done|].
    exists g2, arr2. unfold mutations in *. simpl.
    rewrite (bind_eq _ _ _ _ _ Hm). rewrite Hms. simpl.
    rewrite insert_insert_eq. split; [done|]. split; [done|].
    intros s a Hr Ha. rewrite Hc2 by done. by apply Hc1.
Qed.

(** ** The state rewards *)




(** ** Indexing the cached transitions *)

Lemma py_index_IndexError (n : nat) (i : Z) :
  ¬ (- Z.of_nat n ≤ i < Z.of_nat n) → py_index n i = Raise IndexError.
Proof.
  intros Hi. unfold py_index. by rewrite !bool_decide_eq_false_2 by lia.
Qed.

Lemma py_index_wrap (n : nat) (i : Z) :
  - Z.of_nat n ≤ i < Z.of_nat n →
  py_index n i = Ok (Z.to_nat (wrap (Z.of_nat n) i)) ∧
  0 ≤ wrap (Z.of_nat n) i < Z.of_nat n.
Proof.
  intros Hi. unfold wrap. case_bool_decide.
  - rewrite py_index_negative by lia. split; [done|lia].
  - rewrite py_index_nonneg by lia. split; [done|lia].
Qed.

Lemma nd_getitem_wrap {T} (n m : nat) (arr : ndarray T) (i j : Z) :
  shape arr = (n, m) →
  - Z.of_nat n ≤ i < Z.of_nat n → - Z.of_nat m ≤ j < Z.of_nat m →
  nd_getitem arr i j = nd_getitem arr (wrap (Z.of_nat n) i) (wrap (Z.of_nat m) j).
Proof.
  intros Hsh Hi Hj. unfold nd_getitem. rewrite Hsh. simpl.
  destruct (py_index_wrap n i Hi) as [-> Hwi].
  destruct (py_index_wrap m j Hj) as [-> Hwj].
  by rewrite !py_index_nonneg by done.
Qed.

Lemma nd_getitem_IndexError {T} (n m : nat) (arr : ndarray T) (i j : Z) :
  shape arr = (n, m) →
  ¬ (- Z.of_nat n ≤ i < Z.of_nat n ∧ - Z.of_nat m ≤ j < Z.of_nat m) →
  nd_getitem arr i j = Raise IndexError.
Proof.
  intros Hsh Hij. unfold nd_getitem. rewrite Hsh. simpl.
  destruct (decide (- Z.of_nat n ≤ i < Z.of_nat n)) as [Hi|Hi].
  - destruct (py_index_wrap n i Hi) as [-> _]. simpl.
    by rewrite py_index_IndexError by tauto.
  - by rewrite py_index_IndexError.
Qed.

(** ** A constructed engine, all in one *)

Lemma init_engine (rows cols : Z) (rd : gmap (Z * Z) float) (goal : option Z)
    (dr : float) (eu aw dd : bool) (h : heap) :
  valid_args rows cols rd goal = true →
  let n := Z.to_nat (rows * cols) in
  let rw := fresh (dom h) in
  0 < rows ∧ 0 < cols ∧ Z.of_nat n = rows * cols ∧
  ∃ tb sr h1 final m,
    GridWorldMDP.__init__ rows cols rd goal dr eu aw dd h
      = Ok (m, <[rw := final]> h) ∧
    GridWorldMDP.init_tables rows cols rd dr dd h = Ok ((rw, tb), h1) ∧
    nd_wf n 9 final ∧
    (∀ s a, in_range n 9 s a →
       cell final s a = Some (final_reward rows cols dd rd dr eu aw goal s a)) ∧
    flat_inv rows cols dd
      (index_pairs (xrange (rows * cols)) (xrange GridWorldMDP.len_Actions)) tb ∧
    state_rewards_loop rows cols (replicate n dr) (map_to_list rd) = Ok sr ∧
    tables_ok rows cols dd m ∧
    m = GridWorldMDP.mk (PyInt (rows * cols)) (PyInt GridWorldMDP.len_Actions) rw
          (PyFunction (λ s a, nd_getitem (GridWorldMDP.t_transition_cached tb) s a))
          rows cols dr (GridWorldMDP.t_neighbors tb)
          (GridWorldMDP.t_reverse_neighbors tb) (GridWorldMDP.t_transition_cached tb)
          (replicate (Z.to_nat (rows * cols * GridWorldMDP.len_Actions)) 0)
          (GridWorldMDP.t_transition_cached_l tb)
          (GridWorldMDP.t_transition_cached_l tb) aw dd sr goal.
Proof.
  intros Hv n rw.
  destruct (init_stages_valid rows cols rd goal dr eu aw dd h Hv)
    as (Hrows & Hcols & Hn & tb0 & pre & post & final & m & _ & _ & Hinit & _ & _
        & Hwf & Hcells & _ & _ & _ & _ & _ & _ & _ & _ & _ & Htab).
  do 3 (split; [done|]).
  destruct (init_fields _ _ _ _ _ _ _ _ _ _ _ Hinit)
    as (_ & _ & tb & sr & h1 & Htb & Hflat & Hsr & Hm).
  exists tb, sr, h1, final, m. split; [done|]. split; [done|]. split; [done|].
  split; [intros s a Hr; by apply Hcells|]. done.
Qed.

(** ** The adjacency lists as lists *)

Lemma omap_bind_list {A B C} (f : B → option C) (g : A → list B) (l : list A) :
  omap f (l ≫= g) = l ≫= (λ x, omap f (g x)).
Proof.
  induction l as [|x l IH]; [done|].
  rewrite !bind_cons, omap_app. by rewrite IH.
Qed.

Lemma omap_cons {A B} (f : A → option B) (x : A) (l : list A) :
  omap f (x :: l) = match f x with Some y => y :: omap f l | None => omap f l end.
Proof. done. Qed.

Lemma omap_fmap_list {A B C} (f : B → option C) (g : A → B) (l : list A) :
  omap f (g <$> l) = omap (λ x, f (g x)) l.
Proof.
  induction l as [|x l IH]; [done|]. rewrite fmap_cons, !omap_cons. by rewrite IH.
Qed.

Lemma omap_ext_in {A B} (f g : A → option B) (l : list A) :
  (∀ x, x ∈ l → f x = g x) → omap f l = omap g l.
Proof.
  induction l as [|x l IH]; intros H; [done|]. rewrite !omap_cons.
  rewrite (H x) by apply list_elem_of_here.
  rewrite IH; [done|]. intros y Hy. apply H. by apply list_elem_of_further.
Qed.

Lemma omap_all_None {A B} (f : A → option B) (l : list A) :
  (∀ x, x ∈ l → f x = None) → omap f l = [].
Proof.
  induction l as [|x l IH]; intros H; [done|]. rewrite omap_cons.
  rewrite (H x) by apply list_elem_of_here.
  apply IH. intros y Hy. apply H. by apply list_elem_of_further.
Qed.

Lemma bind_ext_in {A B} (f g : A → list B) (l : list A) :
  (∀ x, x ∈ l → f x = g x) → l ≫= f = l ≫= g.
Proof.
  induction l as [|x l IH]; intros H; [done|].
  rewrite !bind_cons. rewrite (H x) by apply list_elem_of_here.
  rewrite IH; [done|]. intros y Hy. apply H. by apply list_elem_of_further.
Qed.

Lemma bind_all_nil {A B} (g : A → list B) (l : list A) :
  (∀ x, x ∈ l → g x = []) → l ≫= g = [].
Proof.
  induction l as [|x l IH]; intros H; [done|].
  rewrite bind_cons. rewrite (H x) by apply list_elem_of_here.
  apply IH. intros y Hy. apply H. by apply list_elem_of_further.
Qed.

Lemma bind_single {A B} (g : A → list B) (l : list A) (s : A) :
  NoDup l → s ∈ l → (∀ x, x ∈ l → x ≠ s → g x = []) → l ≫= g = g s.
Proof.
  induction l as [|x l IH]; intros Hnd Hin Hg; [by apply elem_of_nil in Hin|].
  apply NoDup_cons in Hnd as [Hx Hnd]. rewrite bind_cons.
  apply elem_of_cons in Hin as [->|Hin].
  - rewrite bind_all_nil; [by rewrite app_nil_r|].
    intros y Hy. apply Hg; [by apply list_elem_of_further|]. by intros ->.
  - rewrite (Hg x); [|apply list_elem_of_here|by intros ->]. simpl.
    apply IH; [done|done|]. intros y Hy. apply Hg. by apply list_elem_of_further.
Qed.

Lemma xrange_members :
  xrange GridWorldMDP.len_Actions = GridWorldMDP.value <$> GridWorldMDP.members.
Proof. reflexivity. Qed.

Lemma elem_of_members (a : GridWorldMDP.Actions) : a ∈ GridWorldMDP.members.
Proof.
  unfold GridWorldMDP.members.
  destruct a; repeat first [apply list_elem_of_here | apply list_elem_of_further].
Qed.

Lemma elem_of_xrange (n s : Z) : s ∈ xrange n ↔ 0 ≤ s < n.
Proof. unfold xrange. rewrite elem_of_seqZ. lia. Qed.

(** The entries that the loop appends to the forward list of a state are
    its legal moves. *)
Lemma fwd_entries_legal_moves (rows cols : Z) (dd : bool) (s : Z) :
  0 < cols → 0 ≤ s < rows * cols →
  omap (fwd_entry rows cols dd s)
       (index_pairs (xrange (rows * cols)) (xrange GridWorldMDP.len_Actions))
  = legal_moves rows cols dd s.
Proof.
  intros Hc Hs. unfold index_pairs. rewrite omap_bind_list.
  rewrite (bind_single _ _ s).
  - rewrite xrange_members, !omap_fmap_list. unfold legal_moves.
    apply omap_ext_in. intros a _. unfold fwd_entry. simpl.
    rewrite bool_decide_eq_true_2 by done. simpl.
    rewrite step_of_spec by done. simpl. rewrite negb_involutive.
    by destruct (legal rows cols dd s a).
  - apply NoDup_seqZ.
  - by apply elem_of_xrange.
  - intros x _ Hx. rewrite omap_fmap_list. apply omap_all_None.
    intros a _. unfold fwd_entry. simpl. by rewrite bool_decide_eq_false_2.
Qed.

(** The entries that the loop appends to the reverse list of a state are
    the legal moves into it. *)
Lemma rev_entries_predecessors (rows cols : Z) (dd : bool) (s' : Z) :
  0 < cols →
  omap (rev_entry rows cols dd s')
       (index_pairs (xrange (rows * cols)) (xrange GridWorldMDP.len_Actions))
  = predecessors rows cols dd s'.
Proof.
  intros Hc. unfold index_pairs, predecessors. rewrite omap_bind_list.
  apply bind_ext_in. intros s Hs%elem_of_xrange.
  rewrite xrange_members, !omap_fmap_list.
  apply omap_ext_in. intros a _. unfold rev_entry. simpl.
  rewrite step_of_spec by done. simpl. rewrite negb_involutive.
  destruct (legal rows cols dd s a); [|done]. done.
Qed.

Lemma elem_of_legal_moves (rows cols : Z) (dd : bool) (s : Z) (x : Z * Z) :
  x ∈ legal_moves rows cols dd s ↔
  ∃ a, legal rows cols dd s a = true ∧ x = (GridWorldMDP.value a, target cols s a).
Proof.
  unfold legal_moves. rewrite list_elem_of_omap. split.
  - intros (a & _ & Ha). exists a. destruct (legal rows cols dd s a); [|done].
    injection Ha as <-. done.
  - intros (a & Hl & ->). exists a. split; [apply elem_of_members|].
    by rewrite Hl.
Qed.

Lemma elem_of_predecessors (rows cols : Z) (dd : bool) (s' : Z) (x : Z * Z) :
  x ∈ predecessors rows cols dd s' ↔
  ∃ s a, 0 ≤ s < rows * cols ∧ legal rows cols dd s a = true ∧
         target cols s a = s' ∧ x = (GridWorldMDP.value a, s).
Proof.
  unfold predecessors. rewrite list_elem_of_bind. split.
  - intros (s & Hx & Hs%elem_of_xrange).
    apply list_elem_of_omap in Hx as (a & _ & Ha). exists s, a.
    destruct (legal rows cols dd s a); [|done]. simpl in Ha.
    case_bool_decide; [|done]. injection Ha as <-. done.
  - intros (s & a & Hs & Hl & Ht & ->). exists s.
    split; [|by apply elem_of_xrange].
    apply list_elem_of_omap. exists a. split; [apply elem_of_members|].
    rewrite Hl. simpl. by rewrite bool_decide_eq_true_2.
Qed.

Lemma NoDup_members : NoDup GridWorldMDP.members.
Proof.
  apply (NoDup_fmap_1 GridWorldMDP.value). rewrite <- xrange_members.
  apply NoDup_seqZ.
Qed.

Lemma NoDup_omap_fst {A} (f : A → option (Z * Z)) (g : A → Z) (l : list A) :
  (∀ x y, f x = Some y → y.1 = g x) → NoDup (g <$> l) → NoDup ((omap f l).*1).
Proof.
  intros Hf. induction l as [|x l IH]; intros Hnd; [constructor|].
  rewrite fmap_cons in Hnd. apply NoDup_cons in Hnd as [Hx Hnd].
  rewrite omap_cons.
  destruct (f x) as [y|] eqn:Hy; [|by apply IH].
  rewrite fmap_cons. apply NoDup_cons. split; [|by apply IH].
  rewrite (Hf _ _ Hy). intros Hin. apply Hx.
  apply list_elem_of_fmap in Hin as (z & Hz & Hzin).
  apply list_elem_of_omap in Hzin as (x' & Hx' & Hfx').
  apply list_elem_of_fmap. exists x'. split; [|done].
  rewrite Hz. by apply Hf.
Qed.

Lemma NoDup_legal_moves (rows cols : Z) (dd : bool) (s : Z) :
  NoDup ((legal_moves rows cols dd s).*1).
Proof.
  unfold legal_moves. apply (NoDup_omap_fst _ GridWorldMDP.value).
  - intros a y Hy. destruct (legal rows cols dd s a); [|done]. by injection Hy as <-.
  - apply NoDup_fmap_2; [|apply NoDup_members].
    intros a b Hab. by apply value_inj.
Qed.

(** ** An engine after a sequence of mutations *)

Lemma engine_after_mutations (rows cols : Z) (rd : gmap (Z * Z) float)
    (goal : option Z) (dr : float) (eu aw dd : bool) (mus : list mutation)
    (h : heap) :
  valid_args rows cols rd goal = true →
  forallb (mutation_ok rows cols) mus = true →
  let n := Z.to_nat (rows * cols) in
  let rw := fresh (dom h) in
  ∃ final m0 g' arr,
    GridWorldMDP.__init__ rows cols rd goal dr eu aw dd h
      = Ok (m0, <[rw := final]> h) ∧
    mutations mus m0 (<[rw := final]> h)
      = Ok (GridWorldMDP.with_goal m0 g', <[rw := arr]> h) ∧
    GridWorldMDP.rewards m0 = rw ∧
    GridWorldMDP.rows m0 = rows ∧ GridWorldMDP.cols m0 = cols ∧
    GridWorldMDP.allow_wait m0 = aw ∧ GridWorldMDP.default_reward m0 = dr ∧
    nd_wf n 9 final ∧ nd_wf n 9 arr ∧
    (∀ s a, in_range n 9 s a →
       cell final s a = Some (final_reward rows cols dd rd dr eu aw goal s a)) ∧
    (∀ s a, in_range n 9 s a → a ≠ 8 → cell arr s a = cell final s a).
Proof.
  intros Hv Hmus n rw.
  destruct (init_engine rows cols rd goal dr eu aw dd h Hv)
    as (Hrows & Hcols & Hn & tb & sr & h1 & final & m & Hinit & _ & Hwf & Hcells
        & _ & _ & _ & Hm).
  assert (GridWorldMDP.rewards m = rw) as Hrw by (by subst m).
  destruct (mutations_frame rows cols mus m (<[rw := final]> h) n final Hn)
    as (g' & arr & Hmut & Hwf' & Hframe); [|done|done|].
  { rewrite Hrw. apply lookup_insert_eq. }
  rewrite Hrw, insert_insert_eq in Hmut.
  exists final, m, g', arr. split; [done|]. split; [done|]. split; [done|].
  split; [by subst m|]. split; [by subst m|]. split; [by subst m|].
  split; [by subst m|]. done.
Qed.

Lemma set_goal_IndexError (self : GridWorldMDP.t) (g : Z) (h : heap) (n : nat)
    (arr : ndarray float) :
  h !! GridWorldMDP.rewards self = Some arr → nd_wf n 9 arr →
  ¬ (- Z.of_nat n ≤ g < Z.of_nat n) →
  GridWorldMDP.set_goal self (Some g) h = Raise IndexError.
Proof.
  intros Hh Hwf Hg.
  destruct (set_goal_unfold self (Some g) h n arr Hh Hwf) as (arr1 & Hwf1 & _ & ->).
  unfold nd_setitem. rewrite (proj1 Hwf1). simpl.
  by rewrite py_index_IndexError.
Qed.

Lemma valid_args_goal (rows cols : Z) (rd : gmap (Z * Z) float) (goal g : option Z) :
  valid_args rows cols rd goal = true → goal_in_grid rows cols g →
  valid_args rows cols rd g = true.
Proof.
  intros (Hrows & Hcols & Hkeys & _)%valid_args_spec Hg. unfold valid_args.
  rewrite !bool_decide_eq_true_2 by done. simpl.
  destruct g; [|done]. by apply bool_decide_eq_true_2.
Qed.


Lemma reward_at_insert (h : heap) (rw : loc) (n : nat) (arr : ndarray float)
    (s a : Z) :
  nd_wf n 9 arr → in_range n 9 s a →
  reward_at (<[rw := arr]> h) rw s a =
    match cell arr s a with Some v => Ok v | None => Raise IndexError end.
Proof.
  intros Hwf Hr. unfold reward_at, heap_read. rewrite lookup_insert_eq.
  by apply (nd_getitem_cell n 9).
Qed.

(** * Further properties of the code: the theorems *)

(** ** The transition helper *)

(** X1.  Whenever [_transition_helper] returns, on any state and action
    whatever, the action is one of the nine members, the flag is the
    negation of [legal], the returned state is the encoded candidate for a
    legal move and the origin for an illegal one, and it is a state of the
    grid. *)
Theorem transition_helper_returns_target_or_origin
    (rows cols : Z) (dd : bool) (s a s' : Z) (ill : bool) :
  0 < cols →
  GridWorldMDP._transition_helper rows cols dd s a = Ok (s', ill) →
  ∃ act, a = GridWorldMDP.value act ∧
         ill = negb (legal rows cols dd s act) ∧
         s' = (if legal rows cols dd s act then target cols s act else s) ∧
         0 ≤ s' < rows * cols.
Proof. apply _transition_helper_Ok_inv. Qed.

Lemma transition_helper_returns_target_or_origin_witness :
  GridWorldMDP._transition_helper 2 3 true 4 5 = Ok (4, true) ∧
  ∃ act, 5 = GridWorldMDP.value act ∧
         true = negb (legal 2 3 true 4 act) ∧
         4 = (if legal 2 3 true 4 act then target 3 4 act else 4) ∧
         0 ≤ 4 < 2 * 3.
Proof.
  split; [reflexivity|].
  apply (transition_helper_returns_target_or_origin 2 3 true 4 5 4 true);
    [lia|reflexivity].
Defined.

(** X2.  [_transition_helper] returns exactly when the state is below
    [rows * cols], the action is one of the nine members, and the state is
    not negative or the move is legal; the lower bound of the state is not
    checked, so a negative state whose candidate falls into the grid gets
    a result. *)
Theorem transition_helper_returns_iff (rows cols : Z) (dd : bool) (s a : Z) :
  0 < cols →
  (∃ r, GridWorldMDP._transition_helper rows cols dd s a = Ok r) ↔
  s < rows * cols ∧
  ∃ act, a = GridWorldMDP.value act ∧ (0 ≤ s ∨ legal rows cols dd s act = true).
Proof. apply _transition_helper_Ok_iff. Qed.

Lemma transition_helper_returns_iff_witness :
  ∃ r, GridWorldMDP._transition_helper 2 3 false (-1) 3 = Ok r.
Proof.
  apply (transition_helper_returns_iff 2 3 false (-1) 3); [lia|].
  split; [lia|]. exists GridWorldMDP.RIGHT. split; [reflexivity|].
  right. reflexivity.
Defined.

(** X3.  A move to the right from a negative state of the last [cols]
    ones is answered as a legal move into the first row: the helper
    returns [s + cols] with the flag [False]. *)
Theorem transition_helper_negative_origin (rows cols : Z) (dd : bool) (s : Z) :
  0 < rows → 0 < cols → - cols ≤ s < 0 →
  GridWorldMDP._transition_helper rows cols dd s
    (GridWorldMDP.value GridWorldMDP.RIGHT) = Ok (s + cols, false).
Proof.
  intros Hr Hc Hs.
  assert (s `div` cols = -1) as Hd.
  { symmetry. apply (Z.div_unique s cols (-1) (s + cols)); lia. }
  assert (s `mod` cols = s + cols) as Hm.
  { symmetry. apply (Z.mod_unique s cols (-1) (s + cols)); lia. }
  rewrite _transition_helper_unfold by nia.
  assert (legal rows cols dd s GridWorldMDP.RIGHT = true) as ->.
  { unfold legal, candidate. simpl. rewrite Hd, Hm.
    rewrite bool_decide_eq_true_2 by lia. by rewrite andb_false_r. }
  unfold target, candidate. simpl. rewrite Hd, Hm. do 2 f_equal. lia.
Qed.

Lemma transition_helper_negative_origin_witness :
  GridWorldMDP._transition_helper 2 3 false (-1)
    (GridWorldMDP.value GridWorldMDP.RIGHT) = Ok (-1 + 3, false).
Proof. apply (transition_helper_negative_origin 2 3 false (-1)); lia. Defined.

(** X4.  Every failure of [_transition_helper] is an [AssertionError]:
    the assertion of [state_to_coor], the assertion on the action, or an
    assertion of [coor_to_state].  The final [else] branch that raises
    [BaseException] is never taken, because the assertion on the action
    has already rejected every value that is not a member.  The grid has
    [cols > 0], as every engine's has: the division by [cols] is then
    defined. *)
Theorem transition_helper_raises_only_AssertionError
    (rows cols : Z) (dd : bool) (s a : Z) (e : exn) :
  0 < cols →
  GridWorldMDP._transition_helper rows cols dd s a = Raise e →
  (∃ cond, e = AssertionError cond) ∧ ∀ msg, e ≠ BaseException msg.
Proof.
  intros _ H. destruct (_transition_helper_Raise_inv rows cols dd s a e H) as [c ->].
  split; [by eexists|]. done.
Qed.

Lemma transition_helper_raises_only_AssertionError_witness :
  GridWorldMDP._transition_helper 2 3 false 0 9
    = Raise (AssertionError "a >= 0 and a < len(self.Actions)") ∧
  (∃ cond, AssertionError "a >= 0 and a < len(self.Actions)" = AssertionError cond) ∧
  ∀ msg, AssertionError "a >= 0 and a < len(self.Actions)" ≠ BaseException msg.
Proof.
  split; [reflexivity|].
  apply (transition_helper_raises_only_AssertionError 2 3 false 0 9);
    [lia|reflexivity].
Defined.

(** X5.  A legal move is undone by the opposite action: if the helper
    answers [(s', False)] for [a] at a state [s] of the grid, it answers
    [(s, False)] for the opposite action at [s']. *)
Theorem legal_move_undone_by_opposite (rows cols : Z) (dd : bool) (s s' : Z)
    (a : GridWorldMDP.Actions) :
  0 < cols → 0 ≤ s < rows * cols →
  GridWorldMDP._transition_helper rows cols dd s (GridWorldMDP.value a)
    = Ok (s', false) →
  GridWorldMDP._transition_helper rows cols dd s' (GridWorldMDP.value (opposite a))
    = Ok (s, false).
Proof.
  intros Hc Hs H. rewrite _transition_helper_spec in H by done.
  destruct (legal rows cols dd s a) eqn:Hl; [|done].
  assert (s' = target cols s a) as -> by (unfold target; congruence).
  destruct (legal_opposite rows cols dd s a Hc Hs Hl) as [Hl' Ht'].
  unfold target at 1 in Ht'.
  rewrite _transition_helper_spec.
  - rewrite Hl'. by rewrite Ht'.
  - done.
  - apply legal_candidate in Hl. unfold target. apply encode_bounds; lia.
Qed.

Lemma legal_move_undone_by_opposite_witness :
  GridWorldMDP._transition_helper 2 3 false 1
    (GridWorldMDP.value GridWorldMDP.UP_RIGHT) = Ok (5, false) ∧
  GridWorldMDP._transition_helper 2 3 false 5
    (GridWorldMDP.value (opposite GridWorldMDP.UP_RIGHT)) = Ok (1, false).
Proof.
  split; [reflexivity|].
  apply (legal_move_undone_by_opposite 2 3 false 1 5 GridWorldMDP.UP_RIGHT);
    [lia|lia|reflexivity].
Defined.

(** X6.  [state_to_coor] accepts every negative state: it returns a pair
    with a negative row and a column of the grid, and [coor_to_state]
    rejects that pair. *)
Theorem state_to_coor_accepts_negative_states (rows cols s : Z) :
  0 < rows → 0 < cols → s < 0 →
  ∃ r c, GridWorldMDP.state_to_coor rows cols s = Ok (r, c) ∧
         r < 0 ∧ 0 ≤ c < cols ∧
         GridWorldMDP.coor_to_state rows cols r c
           = Raise (AssertionError "0 <= r < self.rows").
Proof.
  intros Hr Hc Hs. exists (s `div` cols), (s `mod` cols).
  assert (s `div` cols < 0) as Hd by (apply negative_div; lia).
  split; [|split; [done|split]].
  - unfold GridWorldMDP.state_to_coor. by rewrite bool_decide_eq_true_2 by nia.
  - by apply Z.mod_pos_bound.
  - rewrite coor_to_state_cases. by rewrite bool_decide_eq_false_2 by lia.
Qed.

Lemma state_to_coor_accepts_negative_states_witness :
  ∃ r c, GridWorldMDP.state_to_coor 2 3 (-4) = Ok (r, c) ∧
         r < 0 ∧ 0 ≤ c < 3 ∧
         GridWorldMDP.coor_to_state 2 3 r c
           = Raise (AssertionError "0 <= r < self.rows").
Proof. apply (state_to_coor_accepts_negative_states 2 3 (-4)); lia. Defined.

(** ** The adjacency lists of a constructed engine *)

(** X7.  The forward adjacency list of a state [s] of a constructed engine
    is exactly the list of the legal moves of [s]: one pair
    [(a, s')] for each legal action, in the order of the action numbers,
    and no action twice. *)
Theorem forward_adjacency_is_legal_moves (rows cols : Z) (rd : gmap (Z * Z) float)
    (goal : option Z) (dr : float) (eu aw dd : bool) (h : heap) :
  valid_args rows cols rd goal = true →
  ∃ m h',
    GridWorldMDP.__init__ rows cols rd goal dr eu aw dd h = Ok (m, h') ∧
    ∀ s, 0 ≤ s < rows * cols →
      list_getitem (GridWorldMDP.neighbors m) s = Ok (legal_moves rows cols dd s) ∧
      NoDup (legal_moves rows cols dd s).*1.
Proof.
  intros Hv.
  destruct (init_engine rows cols rd goal dr eu aw dd h Hv)
    as (Hrows & Hcols & Hn & tb & sr & h1 & final & m & Hinit & _ & _ & _ & Hflat
        & _ & _ & Hm).
  exists m, (<[fresh (dom h) := final]> h). split; [done|].
  intros s Hs. split; [|apply NoDup_legal_moves].
  unfold flat_inv in Hflat. cbv zeta in Hflat.
  destruct Hflat as (Hl1 & _ & _ & _ & Hfw & _).
  subst m. simpl. rewrite list_getitem_row by (rewrite Hl1; lia).
  rewrite Hfw by lia. by rewrite fwd_entries_legal_moves.
Qed.

Lemma forward_adjacency_is_legal_moves_witness :
  ∃ m h',
    GridWorldMDP.__init__ 2 2 ∅ (Some 0) (-1)%float true false true ∅ = Ok (m, h') ∧
    list_getitem (GridWorldMDP.neighbors m) 0 = Ok [(0, 1); (3, 2); (8, 0)].
Proof.
  destruct (forward_adjacency_is_legal_moves 2 2 ∅ (Some 0) (-1)%float true false
              true ∅) as (m & h' & Hinit & Hall); [reflexivity|].
  exists m, h'. split; [exact Hinit|].
  destruct (Hall 0) as [Hnb _]; [lia|]. exact Hnb.
Defined.

(** X8.  The reverse adjacency list of a state [s'] of a constructed
    engine is exactly the list of the legal moves into [s']: one pair
    [(a, s)] for each state [s] and action [a] whose move is legal and
    leads to [s'], by origin and then by action number. *)
Theorem reverse_adjacency_is_predecessors (rows cols : Z) (rd : gmap (Z * Z) float)
    (goal : option Z) (dr : float) (eu aw dd : bool) (h : heap) :
  valid_args rows cols rd goal = true →
  ∃ m h',
    GridWorldMDP.__init__ rows cols rd goal dr eu aw dd h = Ok (m, h') ∧
    ∀ s', 0 ≤ s' < rows * cols →
      list_getitem (GridWorldMDP.reverse_neighbors m) s'
        = Ok (predecessors rows cols dd s').
Proof.
  intros Hv.
  destruct (init_engine rows cols rd goal dr eu aw dd h Hv)
    as (Hrows & Hcols & Hn & tb & sr & h1 & final & m & Hinit & _ & _ & _ & Hflat
        & _ & _ & Hm).
  exists m, (<[fresh (dom h) := final]> h). split; [done|].
  intros s Hs.
  unfold flat_inv in Hflat. cbv zeta in Hflat.
  destruct Hflat as (_ & Hl2 & _ & _ & _ & Hrv).
  subst m. simpl. rewrite list_getitem_row by (rewrite Hl2; lia).
  rewrite Hrv by lia. by rewrite rev_entries_predecessors.
Qed.

Lemma reverse_adjacency_is_predecessors_witness :
  ∃ m h',
    GridWorldMDP.__init__ 2 2 ∅ (Some 0) (-1)%float true false true ∅ = Ok (m, h') ∧
    list_getitem (GridWorldMDP.reverse_neighbors m) 0 = Ok [(8, 0); (1, 1); (2, 2)].
Proof.
  destruct (reverse_adjacency_is_predecessors 2 2 ∅ (Some 0) (-1)%float true false
              true ∅) as (m & h' & Hinit & Hall); [reflexivity|].
  exists m, h'. split; [exact Hinit|]. apply (Hall 0). lia.
Defined.

(** X9.  The two adjacency lists of a constructed engine mirror each
    other: for any two states [s], [s'] of the grid and any number [a],
    the pair [(a, s')] is in the forward list of [s] exactly when the pair
    [(a, s)] is in the reverse list of [s']. *)
Theorem adjacency_lists_mirror (rows cols : Z) (rd : gmap (Z * Z) float)
    (goal : option Z) (dr : float) (eu aw dd : bool) (h : heap) :
  valid_args rows cols rd goal = true →
  ∃ m h',
    GridWorldMDP.__init__ rows cols rd goal dr eu aw dd h = Ok (m, h') ∧
    ∀ s s' a, 0 ≤ s < rows * cols → 0 ≤ s' < rows * cols →
      ∃ fwd rev,
        list_getitem (GridWorldMDP.neighbors m) s = Ok fwd ∧
        list_getitem (GridWorldMDP.reverse_neighbors m) s' = Ok rev ∧
        ((a, s') ∈ fwd ↔ (a, s) ∈ rev).
Proof.
  intros Hv.
  destruct (init_engine rows cols rd goal dr eu aw dd h Hv)
    as (Hrows & Hcols & Hn & tb & sr & h1 & final & m & Hinit & _ & _ & _ & Hflat
        & _ & _ & Hm).
  exists m, (<[fresh (dom h) := final]> h). split; [done|].
  intros s s' a Hs Hs'.
  unfold flat_inv in Hflat. cbv zeta in Hflat.
  destruct Hflat as (Hl1 & Hl2 & _ & _ & Hfw & Hrv).
  subst m. simpl. eexists _, _.
  split; [apply list_getitem_row; rewrite Hl1; lia|].
  split; [apply list_getitem_row; rewrite Hl2; lia|].
  rewrite Hfw, Hrv by lia.
  rewrite fwd_entries_legal_moves, rev_entries_predecessors by done.
  rewrite elem_of_legal_moves, elem_of_predecessors. split.
  - intros (act & Hl & [= -> ->]). by exists s, act.
  - intros (s0 & act & _ & Hl & Ht & [= -> ->]). exists act.
    split; [done|]. by rewrite Ht.
Qed.

Lemma adjacency_lists_mirror_witness :
  ∃ m h' fwd rev,
    GridWorldMDP.__init__ 2 2 ∅ (Some 0) (-1)%float true false false ∅ = Ok (m, h') ∧
    list_getitem (GridWorldMDP.neighbors m) 0 = Ok fwd ∧
    list_getitem (GridWorldMDP.reverse_neighbors m) 3 = Ok rev ∧
    ((5, 3) ∈ fwd ↔ (5, 0) ∈ rev).
Proof.
  destruct (adjacency_lists_mirror 2 2 ∅ (Some 0) (-1)%float true false false ∅)
    as (m & h' & Hinit & Hall); [reflexivity|].
  destruct (Hall 0 3 5) as (fwd & rev & Hf & Hr & Hiff); [lia|lia|].
  exists m, h', fwd, rev. split; [exact Hinit|]. split; [exact Hf|].
  split; [exact Hr|exact Hiff].
Defined.

(** X10.  Every entry of the forward adjacency list of a state [s] of a
    constructed engine is a transition of the engine: for an entry
    [(a, s')] the number [a] is an action, the move is legal, [s'] is a
    state of the grid and [_transition(s, a)] returns [s']. *)
Theorem forward_adjacency_entries_are_transitions (rows cols : Z)
    (rd : gmap (Z * Z) float) (goal : option Z) (dr : float) (eu aw dd : bool)
    (h : heap) :
  valid_args rows cols rd goal = true →
  ∃ m h',
    GridWorldMDP.__init__ rows cols rd goal dr eu aw dd h = Ok (m, h') ∧
    ∀ s, 0 ≤ s < rows * cols →
      ∃ fwd,
        list_getitem (GridWorldMDP.neighbors m) s = Ok fwd ∧
        ∀ a s', (a, s') ∈ fwd →
          0 ≤ s' < rows * cols ∧
          GridWorldMDP._transition m s a = Ok s' ∧
          GridWorldMDP._transition_helper rows cols dd s a = Ok (s', false).
Proof.
  intros Hv.
  destruct (init_engine rows cols rd goal dr eu aw dd h Hv)
    as (Hrows & Hcols & Hn & tb & sr & h1 & final & m & Hinit & _ & _ & _ & Hflat
        & _ & Htab & Hm).
  exists m, (<[fresh (dom h) := final]> h). split; [done|].
  intros s Hs.
  unfold flat_inv in Hflat. cbv zeta in Hflat.
  destruct Hflat as (Hl1 & _ & _ & _ & Hfw & _).
  exists (legal_moves rows cols dd s). split.
  { subst m. simpl. rewrite list_getitem_row by (rewrite Hl1; lia).
    rewrite Hfw by lia. by rewrite fwd_entries_legal_moves. }
  intros a s' (act & Hl & [= -> ->])%elem_of_legal_moves.
  destruct (tables_ok_transition rows cols dd m s act Hcols Htab Hs) as (Ht & _ & Hb).
  rewrite Hl in Ht, Hb. split; [exact Hb|]. split; [exact Ht|].
  rewrite _transition_helper_spec by done. by rewrite Hl.
Qed.

Lemma forward_adjacency_entries_are_transitions_witness :
  ∃ m h' fwd,
    GridWorldMDP.__init__ 2 2 ∅ (Some 0) (-1)%float true false false ∅ = Ok (m, h') ∧
    list_getitem (GridWorldMDP.neighbors m) 0 = Ok fwd ∧
    ∀ a s', (a, s') ∈ fwd → GridWorldMDP._transition m 0 a = Ok s'.
Proof.
  destruct (forward_adjacency_entries_are_transitions 2 2 ∅ (Some 0) (-1)%float
              true false false ∅) as (m & h' & Hinit & Hall); [reflexivity|].
  destruct (Hall 0) as (fwd & Hf & Hin); [lia|].
  exists m, h', fwd. split; [exact Hinit|]. split; [exact Hf|].
  intros a s' Ha. by destruct (Hin a s' Ha) as (_ & Ht & _).
Defined.

(** ** The flat caches and the state rewards *)

(** X11.  The flat list [transition_cached_l] and the tuple
    [transition_cached_t] of a constructed engine have [rows * cols * 9]
    entries, the tuple has the entries of the list, and entry
    [a + s * 9] is the state that [_transition(s, a)] returns, for every
    state [s] of the grid and every action [a]. *)
Theorem flat_caches_agree_with_transition (rows cols : Z) (rd : gmap (Z * Z) float)
    (goal : option Z) (dr : float) (eu aw dd : bool) (h : heap) :
  valid_args rows cols rd goal = true →
  ∃ m h',
    GridWorldMDP.__init__ rows cols rd goal dr eu aw dd h = Ok (m, h') ∧
    GridWorldMDP.transition_cached_t m = GridWorldMDP.transition_cached_l m ∧
    Z.of_nat (length (GridWorldMDP.transition_cached_l m))
      = rows * cols * GridWorldMDP.len_Actions ∧
    ∀ s a, 0 ≤ s < rows * cols →
      ∃ s', GridWorldMDP._transition m s (GridWorldMDP.value a) = Ok s' ∧
            list_getitem (GridWorldMDP.transition_cached_l m)
              (GridWorldMDP.value a + s * GridWorldMDP.len_Actions) = Ok s'.
Proof.
  intros Hv.
  destruct (init_engine rows cols rd goal dr eu aw dd h Hv)
    as (Hrows & Hcols & Hn & tb & sr & h1 & final & m & Hinit & _ & _ & _ & Hflat
        & _ & Htab & Hm).
  exists m, (<[fresh (dom h) := final]> h). split; [done|].
  unfold flat_inv in Hflat. cbv zeta in Hflat.
  destruct Hflat as (_ & _ & Hl3 & Htcl & _ & _).
  assert (GridWorldMDP.transition_cached_l m = GridWorldMDP.t_transition_cached_l tb)
    as Hl by (by subst m).
  split; [by subst m|]. rewrite Hl, Hl3.
  split; [change GridWorldMDP.len_Actions with 9; nia|].
  intros s a Hs.
  destruct (tables_ok_transition rows cols dd m s a Hcols Htab Hs) as (Ht & _ & _).
  eexists. split; [exact Ht|].
  pose proof (value_range a) as Hva. change GridWorldMDP.len_Actions with 9 in *.
  unfold list_getitem. rewrite py_index_nonneg by (rewrite Hl3; nia). simpl.
  rewrite (Htcl s (GridWorldMDP.value a)).
  - rewrite step_of_spec by done. done.
  - apply elem_of_index_pairs. change GridWorldMDP.len_Actions with 9. lia.
Qed.

Lemma flat_caches_agree_with_transition_witness :
  ∃ m h',
    GridWorldMDP.__init__ 2 2 ∅ (Some 0) (-1)%float true false false ∅ = Ok (m, h') ∧
    ∃ s', GridWorldMDP._transition m 1 (GridWorldMDP.value GridWorldMDP.RIGHT) = Ok s' ∧
          list_getitem (GridWorldMDP.transition_cached_l m) (3 + 1 * 9) = Ok s'.
Proof.
  destruct (flat_caches_agree_with_transition 2 2 ∅ (Some 0) (-1)%float true false
              false ∅) as (m & h' & Hinit & _ & _ & Hall); [reflexivity|].
  exists m, h'. split; [exact Hinit|].
  apply (Hall 1 GridWorldMDP.RIGHT). lia.
Defined.





(** ** Indexing the transition cache *)

(** X14.  [_transition] of a constructed engine indexes the cache as
    numpy does: a state in [[-rows * cols, rows * cols)] and an action
    number in [[-9, 9)] are accepted, a negative one counting from the
    end, and the result is the state that [_transition_helper] returns
    for the state and action so designated, a state of the grid; any
    other pair raises [IndexError]. *)
Theorem transition_index_semantics (rows cols : Z) (rd : gmap (Z * Z) float)
    (goal : option Z) (dr : float) (eu aw dd : bool) (h : heap) :
  valid_args rows cols rd goal = true →
  ∃ m h',
    GridWorldMDP.__init__ rows cols rd goal dr eu aw dd h = Ok (m, h') ∧
    (∀ s a, - (rows * cols) ≤ s < rows * cols → -9 ≤ a < 9 →
       ∃ s' ill,
         GridWorldMDP._transition m s a = Ok s' ∧
         GridWorldMDP._transition_helper rows cols dd
           (wrap (rows * cols) s) (wrap 9 a) = Ok (s', ill) ∧
         0 ≤ s' < rows * cols) ∧
    (∀ s a, ¬ (- (rows * cols) ≤ s < rows * cols ∧ -9 ≤ a < 9) →
       GridWorldMDP._transition m s a = Raise IndexError).
Proof.
  intros Hv.
  destruct (init_engine rows cols rd goal dr eu aw dd h Hv)
    as (Hrows & Hcols & Hn & tb & sr & h1 & final & m & Hinit & _ & _ & _ & _
        & _ & Htab & _).
  exists m, (<[fresh (dom h) := final]> h). split; [done|].
  unfold tables_ok in Htab. cbv zeta in Htab.
  destruct Htab as (_ & Hwf & _ & _ & Hcell & _).
  set (n := Z.to_nat (rows * cols)) in *.
  unfold GridWorldMDP._transition. split.
  - intros s a Hs Ha.
    rewrite (nd_getitem_wrap n 9 _ s a (proj1 Hwf)) by lia.
    rewrite Hn. change (Z.of_nat 9) with 9.
    set (s0 := wrap (rows * cols) s). set (a0 := wrap 9 a).
    assert (0 ≤ s0 < rows * cols ∧ 0 ≤ a0 < 9) as [Hs0 Ha0].
    { subst s0 a0. unfold wrap. repeat case_bool_decide; lia. }
    destruct (_transition_helper_total rows cols dd s0 a0 Hcols Hs0 Ha0)
      as (s' & ill & Hh & Hb).
    exists s', ill. split; [|done].
    assert (in_range n 9 s0 a0) as Hr by (split; lia).
    rewrite (nd_getitem_cell n 9) by done. rewrite Hcell by done.
    unfold step_of. by rewrite Hh.
  - intros s a Hsa. apply (nd_getitem_IndexError n 9); [apply Hwf|].
    rewrite Hn. change (Z.of_nat 9) with 9. done.
Qed.

Lemma transition_index_semantics_witness :
  ∃ m h',
    GridWorldMDP.__init__ 2 2 ∅ (Some 0) (-1)%float true false false ∅ = Ok (m, h') ∧
    GridWorldMDP._transition m (-1) (-1) = Ok 3 ∧
    GridWorldMDP._transition m 4 0 = Raise IndexError.
Proof.
  destruct (transition_index_semantics 2 2 ∅ (Some 0) (-1)%float true false false ∅)
    as (m & h' & Hinit & Hin & Hout); [reflexivity|].
  exists m, h'. split; [exact Hinit|]. split.
  - destruct (Hin (-1) (-1)) as (s' & ill & Ht & Hh & _); [lia|lia|].
    rewrite Ht. vm_compute in Hh. congruence.
  - apply Hout. lia.
Defined.

(** ** Diagonal moves and the finished reward table *)

(** X15.  With [disallow_diag] set, every diagonal action is illegal at
    every state of a constructed engine: the transition stays in place,
    the reward is negative infinity whether or not the rewards are
    scaled, and the forward adjacency list of the state has no entry for
    the action. *)
Theorem disallow_diag_forbids_diagonals (rows cols : Z) (rd : gmap (Z * Z) float)
    (goal : option Z) (dr : float) (eu aw : bool) (h : heap) :
  valid_args rows cols rd goal = true →
  ∃ m h',
    GridWorldMDP.__init__ rows cols rd goal dr eu aw true h = Ok (m, h') ∧
    ∀ s a, 0 ≤ s < rows * cols → is_diagonal a = true →
      GridWorldMDP._transition m s (GridWorldMDP.value a) = Ok s ∧
      reward_at h' (GridWorldMDP.rewards m) s (GridWorldMDP.value a)
        = Ok neg_infinity ∧
      ∃ fwd, list_getitem (GridWorldMDP.neighbors m) s = Ok fwd ∧
             ∀ s', (GridWorldMDP.value a, s') ∉ fwd.
Proof.
  intros Hv.
  destruct (init_engine rows cols rd goal dr eu aw true h Hv)
    as (Hrows & Hcols & Hn & tb & sr & h1 & final & m & Hinit & _ & Hwf & Hcells
        & Hflat & _ & Htab & Hm).
  exists m, (<[fresh (dom h) := final]> h). split; [done|].
  intros s a Hs Hdiag.
  assert (legal rows cols true s a = false) as Hl.
  { unfold legal. rewrite Hdiag. apply andb_false_r. }
  destruct (tables_ok_transition rows cols true m s a Hcols Htab Hs) as (Ht & _ & _).
  rewrite Hl in Ht. split; [exact Ht|]. split.
  - assert (GridWorldMDP.rewards m = fresh (dom h)) as -> by (by subst m).
    apply (reward_at_cell _ _ (Z.to_nat (rows * cols)) final);
      [apply lookup_insert_eq|done|apply action_in_range; lia|].
    rewrite Hcells by (apply action_in_range; lia).
    unfold final_reward. rewrite decide_False by (by destruct a).
    unfold scaled_reward. rewrite value_diagonal, Hdiag.
    rewrite loop_reward_assigned by done. unfold assigned_reward. rewrite Hl.
    by destruct eu.
  - unfold flat_inv in Hflat. cbv zeta in Hflat.
    destruct Hflat as (Hl1 & _ & _ & _ & Hfw & _).
    exists (legal_moves rows cols true s). split.
    { subst m. simpl. rewrite list_getitem_row by (rewrite Hl1; lia).
      rewrite Hfw by lia. by rewrite fwd_entries_legal_moves. }
    intros s' (act & Hact & [= ->%value_inj _])%elem_of_legal_moves. congruence.
Qed.

Lemma disallow_diag_forbids_diagonals_witness :
  ∃ m h',
    GridWorldMDP.__init__ 2 2 ∅ (Some 0) (-1)%float true false true ∅ = Ok (m, h') ∧
    GridWorldMDP._transition m 0 (GridWorldMDP.value GridWorldMDP.UP_RIGHT) = Ok 0 ∧
    reward_at h' (GridWorldMDP.rewards m) 0 (GridWorldMDP.value GridWorldMDP.UP_RIGHT)
      = Ok neg_infinity.
Proof.
  destruct (disallow_diag_forbids_diagonals 2 2 ∅ (Some 0) (-1)%float true false ∅)
    as (m & h' & Hinit & Hall); [reflexivity|].
  exists m, h'. split; [exact Hinit|].
  destruct (Hall 0 GridWorldMDP.UP_RIGHT) as (Ht & Hr & _); [lia|reflexivity|].
  split; [exact Ht|exact Hr].
Defined.

(** X16.  The reward table of a constructed engine, entry by entry.  In
    the ABSORB column the entry of a state is 0 at the state that the
    goal designates and otherwise the default reward if [allow_wait] is
    set and negative infinity if not; the override map and the scaling
    play no part in that column.  In every other column the entry is the
    reward that the loop assigned, multiplied by [sqrt 2] when the action
    is diagonal and [euclidean_rewards] is set, and as assigned when
    [euclidean_rewards] is unset. *)
Theorem finished_reward_table (rows cols : Z) (rd : gmap (Z * Z) float)
    (goal : option Z) (dr : float) (eu aw dd : bool) (h : heap) :
  valid_args rows cols rd goal = true →
  ∃ m h',
    GridWorldMDP.__init__ rows cols rd goal dr eu aw dd h = Ok (m, h') ∧
    ∀ s a, 0 ≤ s < rows * cols →
      reward_at h' (GridWorldMDP.rewards m) s (GridWorldMDP.value a) =
        Ok (match a with
            | GridWorldMDP.ABSORB => absorb_reward aw dr (goal_index rows cols goal) s
            | _ => if eu && is_diagonal a
                   then scaled (assigned_reward rows cols dd rd dr s a)
                   else assigned_reward rows cols dd rd dr s a
            end).
Proof.
  intros Hv.
  destruct (init_engine rows cols rd goal dr eu aw dd h Hv)
    as (Hrows & Hcols & Hn & tb & sr & h1 & final & m & Hinit & _ & Hwf & Hcells
        & _ & _ & _ & Hm).
  exists m, (<[fresh (dom h) := final]> h). split; [done|].
  intros s a Hs.
  assert (GridWorldMDP.rewards m = fresh (dom h)) as -> by (by subst m).
  apply (reward_at_cell _ _ (Z.to_nat (rows * cols)) final);
    [apply lookup_insert_eq|done|apply action_in_range; lia|].
  rewrite Hcells by (apply action_in_range; lia).
  unfold final_reward, scaled_reward.
  rewrite value_diagonal, loop_reward_assigned by done.
  destruct a; first [by rewrite decide_True | by rewrite decide_False].
Qed.

Lemma finished_reward_table_witness :
  ∃ m h',
    GridWorldMDP.__init__ 2 2 {[ (1, 0) := 5%float ]} (Some (-1)) (-1)%float false
      true false ∅ = Ok (m, h') ∧
    reward_at h' (GridWorldMDP.rewards m) 3 (GridWorldMDP.value GridWorldMDP.ABSORB)
      = Ok 0%float ∧
    reward_at h' (GridWorldMDP.rewards m) 2 (GridWorldMDP.value GridWorldMDP.ABSORB)
      = Ok (-1)%float ∧
    reward_at h' (GridWorldMDP.rewards m) 1 (GridWorldMDP.value GridWorldMDP.DOWN_RIGHT)
      = Ok 5%float.
Proof.
  destruct (finished_reward_table 2 2 {[ (1, 0) := 5%float ]} (Some (-1)) (-1)%float
              false true false ∅)
    as (m & h' & Hinit & Hall); [vm_compute; reflexivity|].
  exists m, h'. split; [exact Hinit|]. split; [|split].
  - rewrite (Hall 3 GridWorldMDP.ABSORB) by lia. reflexivity.
  - rewrite (Hall 2 GridWorldMDP.ABSORB) by lia. reflexivity.
  - rewrite (Hall 1 GridWorldMDP.DOWN_RIGHT) by lia. vm_compute. reflexivity.
Defined.

(** ** Reconfiguring the goal in general *)

(** X17.  On an engine in any state reached from construction by
    [set_goal] and [set_all_goals], [set_all_goals()] succeeds, leaves 0
    in the ABSORB column at every state, and leaves every other entry of
    the reward table as it was. *)
Theorem set_all_goals_zeroes_absorb_column (rows cols : Z) (rd : gmap (Z * Z) float)
    (goal : option Z) (dr : float) (eu aw dd : bool) (mus0 : list mutation)
    (h : heap) :
  valid_args rows cols rd goal = true →
  forallb (mutation_ok rows cols) mus0 = true →
  ∃ m0 h0 m h1 h2,
    GridWorldMDP.__init__ rows cols rd goal dr eu aw dd h = Ok (m0, h0) ∧
    mutations mus0 m0 h0 = Ok (m, h1) ∧
    GridWorldMDP.set_all_goals m h1 = Ok (tt, h2) ∧
    ∀ s a, 0 ≤ s < rows * cols →
      reward_at h2 (GridWorldMDP.rewards m) s (GridWorldMDP.value a) =
        match a with
        | GridWorldMDP.ABSORB => Ok 0%float
        | _ => reward_at h1 (GridWorldMDP.rewards m) s (GridWorldMDP.value a)
        end.
Proof.
  intros Hv Hmus.
  destruct (engine_after_mutations rows cols rd goal dr eu aw dd mus0 h Hv Hmus)
    as (final & m0 & g' & arr & Hinit & Hmut & Hrw & _ & _ & _ & _ & _ & Hwf & _ & _).
  set (n := Z.to_nat (rows * cols)) in *. set (rw := fresh (dom h)) in *.
  assert (Z.of_nat n = rows * cols) as Hn.
  { apply valid_args_spec in Hv as (? & ? & _). subst n. nia. }
  set (m := GridWorldMDP.with_goal m0 g') in *.
  assert (GridWorldMDP.rewards m = rw) as Hrwm by done.
  destruct (set_all_goals_spec m (<[rw := arr]> h) n arr) as (arr' & Hset & Hwf' & Hc);
    [rewrite Hrwm; apply lookup_insert_eq|done|].
  rewrite Hrwm, insert_insert_eq in Hset.
  exists m0, (<[rw := final]> h), m, (<[rw := arr]> h), (<[rw := arr']> h).
  split; [done|]. split; [done|]. split; [done|].
  intros s a Hs. rewrite Hrwm.
  assert (in_range n 9 s (GridWorldMDP.value a)) as Hr by (apply action_in_range; lia).
  rewrite !(reward_at_insert _ _ n) by done. rewrite Hc by done.
  destruct a; first [by rewrite decide_True | by rewrite decide_False].
Qed.

Lemma set_all_goals_zeroes_absorb_column_witness :
  ∃ m0 h0 m h1 h2,
    GridWorldMDP.__init__ 2 2 ∅ (Some 0) (-1)%float true false false ∅ = Ok (m0, h0) ∧
    mutations [Set_goal (Some 3)] m0 h0 = Ok (m, h1) ∧
    GridWorldMDP.set_all_goals m h1 = Ok (tt, h2) ∧
    reward_at h2 (GridWorldMDP.rewards m) 1 (GridWorldMDP.value GridWorldMDP.ABSORB)
      = Ok 0%float.
Proof.
  destruct (set_all_goals_zeroes_absorb_column 2 2 ∅ (Some 0) (-1)%float true false
              false [Set_goal (Some 3)] ∅)
    as (m0 & h0 & m & h1 & h2 & Hinit & Hmut & Hset & Hall);
    [reflexivity|reflexivity|].
  exists m0, h0, m, h1, h2. split; [exact Hinit|]. split; [exact Hmut|].
  split; [exact Hset|]. apply (Hall 1 GridWorldMDP.ABSORB). lia.
Defined.

(** X18.  On an engine in any state reached from construction by
    [set_goal] and [set_all_goals], [set_goal(g)] succeeds for [g = None]
    and for every index [g] in [[-rows * cols, rows * cols)], stores [g]
    as given in [goal], and rewrites the ABSORB column only: 0 at the
    state that [g] designates (a negative [g] counts from the end, [None]
    designates no state), elsewhere the default reward if [allow_wait] is
    set and negative infinity if not.  Every other column is as before. *)
Theorem set_goal_any_goal (rows cols : Z) (rd : gmap (Z * Z) float)
    (goal : option Z) (dr : float) (eu aw dd : bool) (mus0 : list mutation)
    (h : heap) :
  valid_args rows cols rd goal = true →
  forallb (mutation_ok rows cols) mus0 = true →
  ∃ m0 h0 m h1,
    GridWorldMDP.__init__ rows cols rd goal dr eu aw dd h = Ok (m0, h0) ∧
    mutations mus0 m0 h0 = Ok (m, h1) ∧
    ∀ g, goal_in_grid rows cols g →
      ∃ m2 h2,
        GridWorldMDP.set_goal m g h1 = Ok (m2, h2) ∧
        GridWorldMDP.goal m2 = g ∧
        GridWorldMDP.rewards m2 = GridWorldMDP.rewards m ∧
        ∀ s a, 0 ≤ s < rows * cols →
          reward_at h2 (GridWorldMDP.rewards m2) s (GridWorldMDP.value a) =
            match a with
            | GridWorldMDP.ABSORB =>
                Ok (absorb_reward aw dr (goal_index rows cols g) s)
            | _ => reward_at h1 (GridWorldMDP.rewards m) s (GridWorldMDP.value a)
            end.
Proof.
  intros Hv Hmus.
  destruct (engine_after_mutations rows cols rd goal dr eu aw dd mus0 h Hv Hmus)
    as (final & m0 & g' & arr & Hinit & Hmut & Hrw & _ & _ & Haw & Hdr & _ & Hwf
        & _ & _).
  set (n := Z.to_nat (rows * cols)) in *. set (rw := fresh (dom h)) in *.
  assert (Z.of_nat n = rows * cols) as Hn.
  { apply valid_args_spec in Hv as (? & ? & _). subst n. nia. }
  set (m := GridWorldMDP.with_goal m0 g') in *.
  assert (GridWorldMDP.rewards m = rw) as Hrwm by done.
  exists m0, (<[rw := final]> h), m, (<[rw := arr]> h).
  split; [done|]. split; [done|]. intros g Hg.
  destruct (set_goal_spec m g (<[rw := arr]> h) n arr) as (arr' & Hset & Hwf' & Hc);
    [rewrite Hrwm; apply lookup_insert_eq|done| |].
  { destruct g; [|done]. simpl in Hg. lia. }
  rewrite Hrwm, insert_insert_eq in Hset.
  exists (GridWorldMDP.with_goal m g), (<[rw := arr']> h).
  split; [done|]. split; [done|]. split; [done|].
  intros s a Hs. simpl. rewrite Hrw.
  assert (in_range n 9 s (GridWorldMDP.value a)) as Hr by (apply action_in_range; lia).
  rewrite !(reward_at_insert _ _ n) by done. rewrite Hc by done.
  simpl. rewrite Haw, Hdr, Hn. fold (goal_index rows cols g).
  destruct a; first [by rewrite decide_True | by rewrite decide_False].
Qed.

Lemma set_goal_any_goal_witness :
  ∃ m0 h0 m h1 m2 h2,
    GridWorldMDP.__init__ 2 2 ∅ (Some 0) (-1)%float true true false ∅ = Ok (m0, h0) ∧
    mutations [Set_all_goals] m0 h0 = Ok (m, h1) ∧
    GridWorldMDP.set_goal m (Some (-1)) h1 = Ok (m2, h2) ∧
    GridWorldMDP.goal m2 = Some (-1) ∧
    reward_at h2 (GridWorldMDP.rewards m2) 3 (GridWorldMDP.value GridWorldMDP.ABSORB)
      = Ok 0%float ∧
    reward_at h2 (GridWorldMDP.rewards m2) 0 (GridWorldMDP.value GridWorldMDP.ABSORB)
      = Ok (-1)%float.
Proof.
  destruct (set_goal_any_goal 2 2 ∅ (Some 0) (-1)%float true true false
              [Set_all_goals] ∅)
    as (m0 & h0 & m & h1 & Hinit & Hmut & Hall); [reflexivity|reflexivity|].
  destruct (Hall (Some (-1))) as (m2 & h2 & Hset & Hg & _ & Hr); [simpl; lia|].
  exists m0, h0, m, h1, m2, h2. split; [exact Hinit|]. split; [exact Hmut|].
  split; [exact Hset|]. split; [exact Hg|]. split.
  - rewrite (Hr 3 GridWorldMDP.ABSORB) by lia. reflexivity.
  - rewrite (Hr 0 GridWorldMDP.ABSORB) by lia. reflexivity.
Defined.

(** X19.  On an engine in any state reached from construction by
    [set_goal] and [set_all_goals], [set_goal(g)] with an integer [g]
    outside [[-rows * cols, rows * cols)] raises [IndexError]. *)
Theorem set_goal_out_of_range_raises_IndexError (rows cols : Z)
    (rd : gmap (Z * Z) float) (goal : option Z) (dr : float) (eu aw dd : bool)
    (mus0 : list mutation) (h : heap) :
  valid_args rows cols rd goal = true →
  forallb (mutation_ok rows cols) mus0 = true →
  ∃ m0 h0 m h1,
    GridWorldMDP.__init__ rows cols rd goal dr eu aw dd h = Ok (m0, h0) ∧
    mutations mus0 m0 h0 = Ok (m, h1) ∧
    ∀ g, ¬ (- (rows * cols) ≤ g < rows * cols) →
      GridWorldMDP.set_goal m (Some g) h1 = Raise IndexError.
Proof.
  intros Hv Hmus.
  destruct (engine_after_mutations rows cols rd goal dr eu aw dd mus0 h Hv Hmus)
    as (final & m0 & g' & arr & Hinit & Hmut & Hrw & _ & _ & _ & _ & _ & Hwf & _ & _).
  set (n := Z.to_nat (rows * cols)) in *. set (rw := fresh (dom h)) in *.
  assert (Z.of_nat n = rows * cols) as Hn.
  { apply valid_args_spec in Hv as (? & ? & _). subst n. nia. }
  eexists _, _, _, _. split; [exact Hinit|]. split; [exact Hmut|].
  intros g Hg. apply (set_goal_IndexError _ _ _ n arr); [|done|lia].
  simpl. rewrite Hrw. apply lookup_insert_eq.
Qed.

Lemma set_goal_out_of_range_raises_IndexError_witness :
  ∃ m0 h0 m h1,
    GridWorldMDP.__init__ 2 2 ∅ (Some 0) (-1)%float true false false ∅ = Ok (m0, h0) ∧
    mutations [] m0 h0 = Ok (m, h1) ∧
    GridWorldMDP.set_goal m (Some 4) h1 = Raise IndexError ∧
    GridWorldMDP.set_goal m (Some (-5)) h1 = Raise IndexError.
Proof.
  destruct (set_goal_out_of_range_raises_IndexError 2 2 ∅ (Some 0) (-1)%float true
              false false [] ∅)
    as (m0 & h0 & m & h1 & Hinit & Hmut & Hall); [reflexivity|reflexivity|].
  exists m0, h0, m, h1. split; [exact Hinit|]. split; [exact Hmut|].
  split; apply Hall; lia.
Defined.

(** X20.  [set_goal] forgets the history of the engine: on an engine in
    any state reached from construction by [set_goal] and
    [set_all_goals], [set_goal(g)] with a valid goal leaves the store and
    the attributes of the engine that the code initialises (every one but
    the never-written [transition_cached_nd1d]) exactly as constructing
    the engine with the goal [g] in the first place does. *)
Theorem set_goal_equals_construction_with_goal (rows cols : Z)
    (rd : gmap (Z * Z) float) (goal : option Z) (dr : float) (eu aw dd : bool)
    (mus0 : list mutation) (h : heap) :
  valid_args rows cols rd goal = true →
  forallb (mutation_ok rows cols) mus0 = true →
  ∃ m0 h0 m h1,
    GridWorldMDP.__init__ rows cols rd goal dr eu aw dd h = Ok (m0, h0) ∧
    mutations mus0 m0 h0 = Ok (m, h1) ∧
    ∀ g, goal_in_grid rows cols g →
      ∃ m2 h2 m',
        GridWorldMDP.set_goal m g h1 = Ok (m2, h2) ∧
        GridWorldMDP.__init__ rows cols rd g dr eu aw dd h = Ok (m', h2) ∧
        GridWorldMDP.goal m2 = GridWorldMDP.goal m' ∧
        GridWorldMDP.rewards m2 = GridWorldMDP.rewards m' ∧
        GridWorldMDP.state_rewards m2 = GridWorldMDP.state_rewards m' ∧
        GridWorldMDP.neighbors m2 = GridWorldMDP.neighbors m' ∧
        GridWorldMDP.reverse_neighbors m2 = GridWorldMDP.reverse_neighbors m' ∧
        GridWorldMDP.transition_cached m2 = GridWorldMDP.transition_cached m' ∧
        GridWorldMDP.transition_cached_l m2 = GridWorldMDP.transition_cached_l m' ∧
        GridWorldMDP.transition_cached_t m2 = GridWorldMDP.transition_cached_t m' ∧
        GridWorldMDP.allow_wait m2 = GridWorldMDP.allow_wait m' ∧
        GridWorldMDP.disallow_diag m2 = GridWorldMDP.disallow_diag m' ∧
        GridWorldMDP.default_reward m2 = GridWorldMDP.default_reward m' ∧
        GridWorldMDP.rows m2 = GridWorldMDP.rows m' ∧
        GridWorldMDP.cols m2 = GridWorldMDP.cols m'.
Proof.
  intros Hv Hmus.
  destruct (engine_after_mutations rows cols rd goal dr eu aw dd mus0 h Hv Hmus)
    as (final & m0 & g' & arr & Hinit & Hmut & Hrw & _ & _ & Haw & Hdr & Hwff & Hwf
        & Hcf & Hframe).
  set (n := Z.to_nat (rows * cols)) in *. set (rw := fresh (dom h)) in *.
  assert (Z.of_nat n = rows * cols) as Hn.
  { apply valid_args_spec in Hv as (? & ? & _). subst n. nia. }
  set (m := GridWorldMDP.with_goal m0 g') in *.
  assert (GridWorldMDP.rewards m = rw) as Hrwm by done.
  exists m0, (<[rw := final]> h), m, (<[rw := arr]> h).
  split; [done|]. split; [done|]. intros g Hg.
  destruct (set_goal_spec m g (<[rw := arr]> h) n arr) as (arr' & Hset & Hwf' & Hc);
    [rewrite Hrwm; apply lookup_insert_eq|done| |].
  { destruct g; [|done]. simpl in Hg. lia. }
  rewrite Hrwm, insert_insert_eq in Hset.
  (* the engine constructed with the goal [g] *)
  cut (GridWorldMDP.__init__ rows cols rd g dr eu aw dd h
       = Ok (GridWorldMDP.with_goal m g, <[rw := arr']> h)).
  { intros Hnew. exists (GridWorldMDP.with_goal m g), (<[rw := arr']> h),
      (GridWorldMDP.with_goal m g). done. }
  destruct (init_engine rows cols rd g dr eu aw dd h (valid_args_goal _ _ _ _ _ Hv Hg))
    as (_ & _ & _ & tb & sr & h1 & finalg & mg & Hinitg & Htb & Hwfg & Hcg & _ & Hsr
        & _ & Hmg).
  destruct (init_engine rows cols rd goal dr eu aw dd h Hv)
    as (_ & _ & _ & tb0 & sr0 & h10 & final0 & m0' & Hinit0 & Htb0 & _ & _ & _ & Hsr0
        & _ & Hm0).
  fold n rw in Hinitg, Hinit0, Hwfg, Hcg, Hsr, Hsr0, Htb, Htb0, Hmg, Hm0.
  rewrite Hinit in Hinit0. injection Hinit0 as <- _.
  rewrite Htb in Htb0. injection Htb0 as <- _.
  rewrite Hsr in Hsr0. injection Hsr0 as <-.
  rewrite Hinitg. f_equal. f_equal.
  - subst m mg. rewrite with_goal_with_goal. by rewrite Hm0.
  - f_equal. apply (nd_ext n 9); [done|done|].
    intros s a Hr. symmetry. revert s a Hr.
    intros s a Hr. rewrite Hc, Hcg by done. unfold final_reward.
    simpl. rewrite Haw, Hdr, Hn. fold (goal_index rows cols g).
    destruct (decide (a = 8)) as [->|Ha]; [done|].
    rewrite Hframe, Hcf by done. unfold final_reward. by rewrite decide_False.
Qed.

Lemma set_goal_equals_construction_with_goal_witness :
  ∃ m0 h0 m h1 m2 h2 m',
    GridWorldMDP.__init__ 2 2 ∅ (Some 0) (-1)%float true false false ∅ = Ok (m0, h0) ∧
    mutations [Set_all_goals; Set_goal None] m0 h0 = Ok (m, h1) ∧
    GridWorldMDP.set_goal m (Some 3) h1 = Ok (m2, h2) ∧
    GridWorldMDP.__init__ 2 2 ∅ (Some 3) (-1)%float true false false ∅ = Ok (m', h2) ∧
    GridWorldMDP.goal m2 = GridWorldMDP.goal m'.
Proof.
  destruct (set_goal_equals_construction_with_goal 2 2 ∅ (Some 0) (-1)%float true
              false false [Set_all_goals; Set_goal None] ∅)
    as (m0 & h0 & m & h1 & Hinit & Hmut & Hall); [reflexivity|reflexivity|].
  destruct (Hall (Some 3)) as (m2 & h2 & m' & Hset & Hnew & Hg & _); [simpl; lia|].
  exists m0, h0, m, h1, m2, h2, m'. split; [exact Hinit|]. split; [exact Hmut|].
  split; [exact Hset|]. split; [exact Hnew|exact Hg].
Defined.

(** ** Construction: when it returns and how it fails *)




(** ** What a copy keeps *)

(** X23.  [copy()] keeps the dimensions and the reward matrix only.  On
    an engine in any state reached from construction by [set_goal] and
    [set_all_goals], the copy is an engine constructed with the defaults:
    its goal is [None], [allow_wait] and [disallow_diag] are unset, the
    default reward is -1, every state reward is -1, and its transitions
    and forward adjacency lists are those of the grid with diagonal moves
    allowed, whatever the settings of the source are. *)
Theorem copy_has_default_settings (rows cols : Z) (rd : gmap (Z * Z) float)
    (goal : option Z) (dr : float) (eu aw dd : bool) (mus0 : list mutation)
    (h : heap) :
  valid_args rows cols rd goal = true →
  forallb (mutation_ok rows cols) mus0 = true →
  ∃ m0 h0 m h1 cp h2,
    GridWorldMDP.__init__ rows cols rd goal dr eu aw dd h = Ok (m0, h0) ∧
    mutations mus0 m0 h0 = Ok (m, h1) ∧
    GridWorldMDP.copy m h1 = Ok (cp, h2) ∧
    GridWorldMDP.rows cp = rows ∧ GridWorldMDP.cols cp = cols ∧
    GridWorldMDP.goal cp = None ∧
    GridWorldMDP.allow_wait cp = false ∧ GridWorldMDP.disallow_diag cp = false ∧
    GridWorldMDP.default_reward cp = (-1)%float ∧
    ∀ s, 0 ≤ s < rows * cols →
      list_getitem (GridWorldMDP.state_rewards cp) s = Ok (-1)%float ∧
      list_getitem (GridWorldMDP.neighbors cp) s = Ok (legal_moves rows cols false s) ∧
      ∀ a, GridWorldMDP._transition cp s (GridWorldMDP.value a)
           = Ok (if legal rows cols false s a then target cols s a else s).
Proof.
  intros Hv Hmus.
  destruct (engine_after_mutations rows cols rd goal dr eu aw dd mus0 h Hv Hmus)
    as (final & m0 & g' & arr & Hinit & Hmut & Hrw & Hr0 & Hc0 & _ & _ & _ & Hwf
        & _ & _).
  set (n := Z.to_nat (rows * cols)) in *. set (rw := fresh (dom h)) in *.
  pose proof Hv as (Hrows & Hcols & _)%valid_args_spec.
  assert (Z.of_nat n = rows * cols) as Hn by (subst n; nia).
  set (m := GridWorldMDP.with_goal m0 g') in *.
  set (h1 := <[rw := arr]> h) in *.
  assert (valid_args rows cols ∅ None = true) as Hvc.
  { unfold valid_args. rewrite !bool_decide_eq_true_2; [done| |done|done].
    apply map_Forall_empty. }
  destruct (init_engine rows cols ∅ None (-1)%float true false false h1 Hvc)
    as (_ & _ & _ & tb & sr & h1' & finalc & cp0 & Hinitc & _ & _ & _ & Hflat & Hsr
        & Htab & Hcp0).
  set (l1 := fresh (dom h1)) in *.
  assert (l1 ≠ rw) as Hl1.
  { intros Heq. pose proof (is_fresh (dom h1)) as Hf.
    change (l1 ∉ dom h1) in Hf. rewrite Heq in Hf.
    apply Hf, elem_of_dom. subst h1. rewrite lookup_insert_eq. eauto. }
  assert (GridWorldMDP.copy m h1
          = Ok (GridWorldMDP.with_rewards cp0 (fresh (dom (<[l1 := finalc]> h1))),
                <[fresh (dom (<[l1 := finalc]> h1)) := arr]> (<[l1 := finalc]> h1)))
    as Hcopy.
  { unfold GridWorldMDP.copy.
    change (GridWorldMDP.rows m) with (GridWorldMDP.rows m0).
    change (GridWorldMDP.cols m) with (GridWorldMDP.cols m0).
    change (GridWorldMDP.rewards m) with (GridWorldMDP.rewards m0).
    rewrite Hr0, Hc0, Hrw. rewrite (bind_eq _ _ _ _ _ Hinitc).
    assert (heap_read rw (<[l1 := finalc]> h1) = Ok (arr, <[l1 := finalc]> h1))
      as Hread.
    { unfold heap_read. rewrite lookup_insert_ne by done.
      subst h1. by rewrite lookup_insert_eq. }
    rewrite (bind_eq _ _ _ _ _ Hread).
    unfold heap_alloc, bind, ret. by destruct arr. }
  eexists m0, _, m, h1, _, _.
  split; [exact Hinit|]. split; [exact Hmut|]. split; [exact Hcopy|].
  unfold state_rewards_loop in Hsr. rewrite map_to_list_empty in Hsr.
  injection Hsr as <-.
  unfold flat_inv in Hflat. cbv zeta in Hflat.
  destruct Hflat as (Hlen & _ & _ & _ & Hfw & _).
  rewrite Hcp0. simpl. do 6 (split; [done|]).
  intros s Hs. split; [|split].
  - unfold list_getitem. rewrite length_replicate.
    rewrite py_index_nonneg by lia. simpl.
    by rewrite lookup_replicate_2 by lia.
  - rewrite list_getitem_row by (rewrite Hlen; lia).
    rewrite Hfw by lia. by rewrite fwd_entries_legal_moves.
  - intros a.
    destruct (tables_ok_transition rows cols false cp0 s a Hcols Htab Hs)
      as (Ht & _ & _).
    rewrite Hcp0 in Ht. exact Ht.
Qed.

Lemma copy_has_default_settings_witness :
  ∃ m0 h0 m h1 cp h2,
    GridWorldMDP.__init__ 2 2 {[ (1, 0) := 5%float ]} (Some 0) (-3)%float true true
      true ∅ = Ok (m0, h0) ∧
    mutations [Set_goal (Some 1)] m0 h0 = Ok (m, h1) ∧
    GridWorldMDP.copy m h1 = Ok (cp, h2) ∧
    GridWorldMDP.goal cp = None ∧
    GridWorldMDP.disallow_diag cp = false ∧
    GridWorldMDP._transition cp 0 (GridWorldMDP.value GridWorldMDP.UP_RIGHT) = Ok 3.
Proof.
  destruct (copy_has_default_settings 2 2 {[ (1, 0) := 5%float ]} (Some 0)
              (-3)%float true true true [Set_goal (Some 1)] ∅)
    as (m0 & h0 & m & h1 & cp & h2 & Hinit & Hmut & Hcopy & _ & _ & Hg & _ & Hdd & _
        & Hall); [vm_compute; reflexivity|reflexivity|].
  exists m0, h0, m, h1, cp, h2. split; [exact Hinit|]. split; [exact Hmut|].
  split; [exact Hcopy|]. split; [exact Hg|]. split; [exact Hdd|].
  destruct (Hall 0) as (_ & _ & Ht); [lia|].
  exact (Ht GridWorldMDP.UP_RIGHT).
Defined.

(** ** Staying in place *)

(** X24.  For an action other than ABSORB at a state of the grid, the
    helper returns the origin exactly when it flags the move illegal: a
    legal move always changes the state. *)
Theorem stays_in_place_iff_illegal (rows cols : Z) (dd : bool) (s s' : Z)
    (a : GridWorldMDP.Actions) (ill : bool) :
  0 < cols → 0 ≤ s < rows * cols → a ≠ GridWorldMDP.ABSORB →
  GridWorldMDP._transition_helper rows cols dd s (GridWorldMDP.value a)
    = Ok (s', ill) →
  s' = s ↔ ill = true.
Proof.
  intros Hc Hs Ha H. rewrite _transition_helper_spec in H by done.
  injection H as <- <-.
  destruct (legal rows cols dd s a) eqn:Hl; simpl; [|done].
  split; [|done]. intros Heq. exfalso.
  destruct (target_candidate rows cols dd s a Hl) as [Hd Hm].
  unfold target, candidate in Hd, Hm. unfold candidate in Heq.
  simpl in Hd, Hm, Heq. rewrite Heq in Hd, Hm.
  destruct a; simpl in Hd, Hm; try lia. done.
Qed.

Lemma stays_in_place_iff_illegal_witness :
  GridWorldMDP._transition_helper 2 3 false 0 (GridWorldMDP.value GridWorldMDP.LEFT)
    = Ok (0, true) ∧
  (0 = 0 ↔ true = true).
Proof.
  split; [reflexivity|].
  apply (stays_in_place_iff_illegal 2 3 false 0 0 GridWorldMDP.LEFT true);
    [lia|lia|discriminate|reflexivity].
Defined.
